(** * The news aggregation, enrichment and analysis pipeline

    A shallow embedding of [src/app/api/news/analyze/route.ts] (the
    analysis route) and of the aggregator of [src/app/api/news/route.ts]
    (the listing route), with the properties the specification states
    about them.

    Conventions.
    - A JavaScript string is the list of its UTF-16 code units.
    - [async] functions are computations in the monad [M]: they thread a
      [World] (the clock position, the log of outbound calls, the cache
      store) and end in a value or in a thrown exception.
    - Everything the outside world decides (responses of the network, the
      clock, the process environment) is read from an [Env].
    - [console.log] lines are left out, with the clock readings written
      inside them and the readings made only to print a duration. *)

From Stdlib Require Import List NArith ZArith QArith Bool Arith Lia String Ascii DecimalString Permutation.
From Equations Require Import Equations.
Import ListNotations.
Local Open Scope nat_scope.
Local Open Scope list_scope.

Set Implicit Arguments.

(* ================================================================== *)
(** * Strings *)
(* ================================================================== *)

(** A string value: its UTF-16 code units, in order. *)
Definition jsstring := list N.

(** A literal of the source, written in ASCII. *)
Definition js (s : string) : jsstring :=
  map N_of_ascii (list_ascii_of_string s).

(** A literal in which the apostrophe stands for the double quote. *)
Definition jsq (s : string) : jsstring :=
  map (fun c => if (c =? 39)%N then 34%N else c) (js s).

Definition str_eqb (a b : jsstring) : bool :=
  if list_eq_dec N.eq_dec a b then true else false.

(** Truthiness of a string: [''] is falsy, every other string is truthy. *)
Definition truthy (s : jsstring) : bool :=
  match s with [] => false | _ :: _ => true end.

(** [a || b] on strings. *)
Definition str_or (a b : jsstring) : jsstring := if truthy a then a else b.

(** [x || b] where [x] may be [undefined] (an absent attribute, an unset
    environment variable, an optional chain that stopped). *)
Definition opt_or (x : option jsstring) (b : jsstring) : jsstring :=
  match x with Some a => str_or a b | None => b end.

(** [!x] for such an [x]. *)
Definition opt_truthy (x : option jsstring) : bool :=
  match x with Some a => truthy a | None => false end.

(** [s.startsWith(pat)]. *)
Fixpoint startsWith (pat s : jsstring) : bool :=
  match pat, s with
  | [], _ => true
  | _ :: _, [] => false
  | p :: pat', c :: s' => N.eqb p c && startsWith pat' s'
  end.

(** [s.includes(pat)]. *)
Fixpoint includes (pat s : jsstring) : bool :=
  startsWith pat s ||
  match s with [] => false | _ :: s' => includes pat s' end.

(** [s.substring(0, n)]. *)
Definition substring0 (n : nat) (s : jsstring) : jsstring := firstn n s.

(** White space and line terminators of ECMAScript, the code units
    [String.prototype.trim] removes. *)
Definition is_space (c : N) : bool :=
  ((9 <=? c) && (c <=? 13) || (c =? 32) || (c =? 160) || (c =? 5760)
   || (8192 <=? c) && (c <=? 8202) || (c =? 8232) || (c =? 8233)
   || (c =? 8239) || (c =? 8287) || (c =? 12288) || (c =? 65279))%N.

Fixpoint trimStart (s : jsstring) : jsstring :=
  match s with
  | [] => []
  | c :: s' => if is_space c then trimStart s' else s
  end.

Definition trimEnd (s : jsstring) : jsstring := rev (trimStart (rev s)).

Definition trim (s : jsstring) : jsstring := trimEnd (trimStart s).

(** [s.replace(/<[^>]*>/g, '')]: a ['<'] starts a match when some ['>']
    follows it, and the match ends at the first such ['>']. *)
Definition LT : N := 60.
Definition GT : N := 62.

Fixpoint strip_tags (inTag : bool) (s : jsstring) : jsstring :=
  match s with
  | [] => []
  | c :: s' =>
      if inTag then strip_tags (negb (N.eqb c GT)) s'
      else if N.eqb c LT && existsb (N.eqb GT) s' then strip_tags true s'
      else c :: strip_tags false s'
  end.

(** [s.replace(/pat/g, rep)] for a literal, non-empty [pat]: matches are
    taken left to right and do not overlap; [skip] counts the code units of
    the current match still to be passed over. *)
Fixpoint replace_from (pat rep : jsstring) (skip : nat) (s : jsstring) : jsstring :=
  match s with
  | [] => []
  | c :: s' =>
      match skip with
      | S k => replace_from pat rep k s'
      | O =>
          if startsWith pat s
          then rep ++ replace_from pat rep (Nat.pred (List.length pat)) s'
          else c :: replace_from pat rep 0 s'
      end
  end.

Definition replaceAll (pat rep s : jsstring) : jsstring := replace_from pat rep 0 s.

(** [stripHtml] (the same function in both routes). *)
Definition stripHtml (html : jsstring) : jsstring :=
  trim
    (replaceAll (js "&nbsp;") (js " ")
    (replaceAll (js "&gt;") (js ">")
    (replaceAll (js "&lt;") (js "<")
    (replaceAll (js "&amp;") (js "&")
    (replaceAll (js "&quot;") [34%N]
    (strip_tags false html)))))).

(** Decimal digits of a natural number, as [String(n)] gives them. *)
Definition string_of_nat (n : nat) : jsstring :=
  js (NilEmpty.string_of_uint (Nat.to_uint n)).

(** [parts.join(sep)]. *)
Fixpoint join (sep : jsstring) (parts : list jsstring) : jsstring :=
  match parts with
  | [] => []
  | [p] => p
  | p :: rest => p ++ sep ++ join sep rest
  end.

(* ================================================================== *)
(** * The insertion-ordered [Map] *)
(* ================================================================== *)

Section JsMap.
Variable V : Type.

  (** A [Map] with string keys: its entries in insertion order, every key
      once. *)
Definition JsMap := list (jsstring * V).

  (** [m.set(k, v)]: an existing key keeps its place and takes the new
      value; a new key goes to the end. *)
Fixpoint Map_set (k : jsstring) (v : V) (m : JsMap) : JsMap :=
    match m with
    | [] => [(k, v)]
    | (k', v') :: m' =>
        if str_eqb k' k then (k', v) :: m' else (k', v') :: Map_set k v m'
    end.

  (** [m.get(k)]. *)
Fixpoint Map_get (k : jsstring) (m : JsMap) : option V :=
    match m with
    | [] => None
    | (k', v') :: m' => if str_eqb k' k then Some v' else Map_get k m'
    end.

  (** The entries are set one after the other, starting from [m]. *)
Definition Map_fill (entries : list (jsstring * V)) (m : JsMap) : JsMap :=
  fold_left (fun acc e => Map_set (fst e) (snd e) acc) entries m.

(** [new Map(entries)]. *)
Definition Map_of (entries : list (jsstring * V)) : JsMap := Map_fill entries [].

(** [Array.from(m.values())]. *)
Definition Map_values (m : JsMap) : list V := map snd m.

Definition Map_keys (m : JsMap) : list jsstring := map fst m.
End JsMap.

(* ================================================================== *)
(** * Search results *)
(* ================================================================== *)

Module NaverNewsItem.
Record t := mk {
    title : jsstring;
    originallink : jsstring;
    link : jsstring;
    description : jsstring;
    pubDate : jsstring
  }.
End NaverNewsItem.

(** [Array.from(new Map(allNews.map(item => [item.link, item])).values())]. *)
Definition dedupByLink (allNews : list NaverNewsItem.t) : list NaverNewsItem.t :=
  Map_values (Map_of (map (fun item => (NaverNewsItem.link item, item)) allNews)).


(* ================================================================== *)
(** * JSON values and [JSON.parse] *)
(* ================================================================== *)

(** A value as [JSON.parse] builds it. A number keeps the exact value of
    its literal (rounding to binary64 is not modelled); an object lists its
    own properties in creation order. *)
#[warnings="-register-all"] Inductive json : Type :=
| JNull
| JBool (b : bool)
| JNum (q : Q)
| JStr (s : jsstring)
| JArr (items : list json)
| JObj (props : list (jsstring * json)).

(** A plain object: its own enumerable properties. *)
Definition obj := list (jsstring * json).

(** [o[k] = v] on a plain object, and [o[k]]. *)
Definition obj_set (k : jsstring) (v : json) (o : obj) : obj := Map_set k v o.
Definition obj_get (k : jsstring) (o : obj) : option json := Map_get k o.

(** The four white-space code units of the JSON grammar. *)
Definition is_json_ws (c : N) : bool :=
  ((c =? 9) || (c =? 10) || (c =? 13) || (c =? 32))%N.

Fixpoint skip_ws (s : jsstring) : jsstring :=
  match s with
  | [] => []
  | c :: s' => if is_json_ws c then skip_ws s' else s
  end.

Definition is_digit (c : N) : bool := ((48 <=? c) && (c <=? 57))%N.

(** The longest run of decimal digits at the head of [s], and what follows. *)
Fixpoint span_digits (s : jsstring) : jsstring * jsstring :=
  match s with
  | [] => ([], [])
  | c :: s' =>
      if is_digit c
      then let (ds, rest) := span_digits s' in (c :: ds, rest)
      else ([], s)
  end.

(** The number a run of decimal digits writes. *)
Definition digits_value (ds : jsstring) : Z :=
  fold_left (fun acc c => (10 * acc + Z.of_N (c - 48))%Z) ds 0%Z.

Definition hex_value (c : N) : option N :=
  (if (48 <=? c) && (c <=? 57) then Some (c - 48)
   else if (65 <=? c) && (c <=? 70) then Some (c - 55)
   else if (97 <=? c) && (c <=? 102) then Some (c - 87)
   else None)%N.

Definition hex4 (a b c d : N) : option N :=
  match hex_value a, hex_value b, hex_value c, hex_value d with
  | Some x, Some y, Some z, Some t => Some (((x * 16 + y) * 16 + z) * 16 + t)%N
  | _, _, _, _ => None
  end.

(** The code unit a one-letter escape stands for. *)
Definition unescape (e : N) : option N :=
  (if e =? 34 then Some 34 else if e =? 92 then Some 92
   else if e =? 47 then Some 47 else if e =? 98 then Some 8
   else if e =? 102 then Some 12 else if e =? 110 then Some 10
   else if e =? 114 then Some 13 else if e =? 116 then Some 9
   else None)%N.

Definition cons_unit (c : N) (r : option (jsstring * jsstring)) :
  option (jsstring * jsstring) :=
  match r with Some (str, rest) => Some (c :: str, rest) | None => None end.

(** The characters of a string literal after its opening quote, up to and
    including the closing quote. *)
Fixpoint parse_chars (s : jsstring) : option (jsstring * jsstring) :=
  match s with
  | [] => None
  | c :: r =>
      if (c =? 34)%N then Some ([], r)
      else if (c =? 92)%N then
        match r with
        | [] => None
        | e :: r1 =>
            if (e =? 117)%N then
              match r1 with
              | h1 :: h2 :: h3 :: h4 :: r2 =>
                  match hex4 h1 h2 h3 h4 with
                  | Some u => cons_unit u (parse_chars r2)
                  | None => None
                  end
              | _ => None
              end
            else
              match unescape e with
              | Some u => cons_unit u (parse_chars r1)
              | None => None
              end
        end
      else if (c <? 32)%N then None
      else cons_unit c (parse_chars r)
  end.

(** [m * 10^e], exactly. *)
Definition decimal (m e : Z) : Q :=
  if (0 <=? e)%Z then inject_Z (m * 10 ^ e)
  else Qred (Qmake m (Z.to_pos (10 ^ (- e)))).

(** The integer part of a number: [0], or a digit from 1 to 9 and then any
    digits. *)
Definition parse_int (s : jsstring) : option (jsstring * jsstring) :=
  match s with
  | [] => None
  | c :: r =>
      if (c =? 48)%N then Some ([c], r)
      else if is_digit c then Some (span_digits s)
      else None
  end.

(** An optional fraction: a point and at least one digit. *)
Definition parse_frac (s : jsstring) : option (jsstring * jsstring) :=
  match s with
  | c :: r =>
      if (c =? 46)%N then
        match span_digits r with
        | ([], _) => None
        | (ds, rest) => Some (ds, rest)
        end
      else Some ([], s)
  | [] => Some ([], s)
  end.

(** An optional exponent: [e] or [E], an optional sign, at least one digit. *)
Definition parse_exp (s : jsstring) : option (Z * jsstring) :=
  match s with
  | c :: r =>
      if ((c =? 101) || (c =? 69))%N then
        let (neg, r1) :=
          match r with
          | sg :: r' =>
              if (sg =? 45)%N then (true, r')
              else if (sg =? 43)%N then (false, r') else (false, r)
          | [] => (false, r)
          end in
        match span_digits r1 with
        | ([], _) => None
        | (ds, rest) =>
            Some ((if neg then - digits_value ds else digits_value ds)%Z, rest)
        end
      else Some (0%Z, s)
  | [] => Some (0%Z, s)
  end.

Definition parse_number (s : jsstring) : option (Q * jsstring) :=
  let (neg, s1) :=
    match s with
    | c :: r => if (c =? 45)%N then (true, r) else (false, s)
    | [] => (false, s)
    end in
  match parse_int s1 with
  | None => None
  | Some (ip, s2) =>
      match parse_frac s2 with
      | None => None
      | Some (fp, s3) =>
          match parse_exp s3 with
          | None => None
          | Some (ex, s4) =>
              let m := digits_value (ip ++ fp) in
              Some (decimal (if neg then - m else m)
                            (ex - Z.of_nat (List.length fp)), s4)
          end
      end
  end.

(** A value, the elements of an array after its opening bracket, and the
    members of an object after its opening brace. [fuel] bounds the depth of
    the calls; a member whose key is already there replaces its value. *)
Fixpoint parse_value (fuel : nat) (s : jsstring) {struct fuel} :
  option (json * jsstring) :=
  match fuel with
  | O => None
  | S n =>
      match s with
      | [] => None
      | c :: r =>
          if (c =? 34)%N then
            match parse_chars r with
            | Some (str, rest) => Some (JStr str, rest)
            | None => None
            end
          else if (c =? 91)%N then
            match skip_ws r with
            | d :: r' =>
                if (d =? 93)%N then Some (JArr [], r')
                else
                  match parse_elements n (d :: r') with
                  | Some (items, rest) => Some (JArr items, rest)
                  | None => None
                  end
            | [] => None
            end
          else if (c =? 123)%N then
            match skip_ws r with
            | d :: r' =>
                if (d =? 125)%N then Some (JObj [], r')
                else
                  match parse_members n [] (d :: r') with
                  | Some (props, rest) => Some (JObj props, rest)
                  | None => None
                  end
            | [] => None
            end
          else if startsWith (js "null") s then Some (JNull, skipn 4 s)
          else if startsWith (js "true") s then Some (JBool true, skipn 4 s)
          else if startsWith (js "false") s then Some (JBool false, skipn 5 s)
          else
            match parse_number s with
            | Some (q, rest) => Some (JNum q, rest)
            | None => None
            end
      end
  end

with parse_elements (fuel : nat) (s : jsstring) {struct fuel} :
  option (list json * jsstring) :=
  match fuel with
  | O => None
  | S n =>
      match parse_value n s with
      | None => None
      | Some (v, rest) =>
          match skip_ws rest with
          | c :: r =>
              if (c =? 93)%N then Some ([v], r)
              else if (c =? 44)%N then
                match parse_elements n (skip_ws r) with
                | Some (vs, rest') => Some (v :: vs, rest')
                | None => None
                end
              else None
          | [] => None
          end
      end
  end

with parse_members (fuel : nat) (acc : obj) (s : jsstring) {struct fuel} :
  option (obj * jsstring) :=
  match fuel with
  | O => None
  | S n =>
      match s with
      | c :: r =>
          if (c =? 34)%N then
            match parse_chars r with
            | None => None
            | Some (key, r1) =>
                match skip_ws r1 with
                | colon :: r2 =>
                    if (colon =? 58)%N then
                      match parse_value n (skip_ws r2) with
                      | None => None
                      | Some (v, r3) =>
                          let acc' := obj_set key v acc in
                          match skip_ws r3 with
                          | d :: r4 =>
                              if (d =? 125)%N then Some (acc', r4)
                              else if (d =? 44)%N
                              then parse_members n acc' (skip_ws r4)
                              else None
                          | [] => None
                          end
                      end
                    else None
                | [] => None
                end
            end
          else None
      | [] => None
      end
  end.

(** [JSON.parse(text)]: the value, or [None] where it throws a
    [SyntaxError]. The whole text must be one value between white space. *)
Definition JSON_parse (text : jsstring) : option json :=
  match parse_value (2 * List.length text + 2) (skip_ws text) with
  | Some (v, rest) =>
      match skip_ws rest with
      | [] => Some v
      | _ :: _ => None
      end
  | None => None
  end.

(** The own enumerable properties [{...v}] copies: those of an object, the
    indexed elements of an array, the indexed code units of a string, and
    nothing for the other values. *)
Fixpoint indexed (A : Type) (i : nat) (l : list A) : list (nat * A) :=
  match l with
  | [] => []
  | x :: l' => (i, x) :: indexed (S i) l'
  end.

Definition spread (v : json) : obj :=
  match v with
  | JObj props => props
  | JArr items => map (fun p => (string_of_nat (fst p), snd p)) (indexed 0 items)
  | JStr s => map (fun p => (string_of_nat (fst p), JStr [snd p])) (indexed 0 s)
  | JNull | JBool _ | JNum _ => []
  end.


(* ================================================================== *)
(** * The world: exceptions, the clock, the network, the cache store *)
(* ================================================================== *)

(** What an [async] function can end in instead of a value. *)
Inductive exn : Type :=
| Error (message : jsstring)   (* [throw new Error(message)] *)
| SyntaxError                  (* thrown by [JSON.parse] *)
| FetchError                   (* [fetch] rejected, or a body could not be read *)
| APIError.                    (* the generation client rejected *)

(** One reading of the wall clock: milliseconds since the epoch, and the
    same instant as [toISOString] prints it. *)
Record Instant := { ms : Z; iso : jsstring }.

(** What [fetch] gives for one request: a rejection (transport error), or a
    response with its [ok] flag, its status, and its body as the reader of
    the body (text and selector queries, or [json()]) sees it; [None] where
    reading it throws. *)
Inductive Fetched (Body : Type) : Type :=
| Rejected
| Responded (ok : bool) (status : nat) (body : option Body).
Arguments Rejected {Body}.

Inductive Trend : Type := up | down | stable.

Definition Trend_str (t : Trend) : jsstring :=
  match t with up => js "up" | down => js "down" | stable => js "stable" end.

(** One [#exchangeList li] of the market-index page: the currency key when
    the link matches [FX_(\w+)KRW] (in lower case), the numbers as
    [parseFloat(...) || 0] reads them, the two trend classes, the time. *)
Module RateRow.
Record t := mk {
  currencyKey : option jsstring;
  rate : Q;
  change : Q;
  isUp : bool;
  isDown : bool;
  time : jsstring
}.
End RateRow.

Module ExchangeRateInfo.
Record t := mk {
  usd : Q;
  usdChange : Q;
  usdTrend : Trend;
  jpy : Q;
  eur : Q;
  cny : Q;
  time : jsstring
}.
End ExchangeRateInfo.

(** What the selectors of [crawlNaverNews] find in an article page:
    [text()] gives [''] and [attr()] gives [undefined] when nothing
    matches. *)
Module ArticleDoc.
Record t := mk {
  dic_area : jsstring;                 (* [$('#dic_area').text()] *)
  newsct_article_id : jsstring;        (* [$('#newsct_article').text()] *)
  newsct_article_class : jsstring;     (* [$('.newsct_article').text()] *)
  logo_alt : option jsstring;          (* [.media_end_head_top_logo img], [alt] *)
  og_author : option jsstring;         (* [og:article:author], [content] *)
  og_image : option jsstring           (* [og:image], [content] *)
}.
End ArticleDoc.

(** One [.realtimeNewsList .newsList dl] of the finance listing page. *)
Module FinanceDl.
Record t := mk {
  href : option jsstring;              (* [.articleSubject a], [href] *)
  titleAttr : option jsstring;         (* the same link, [title] *)
  linkText : jsstring;                 (* the same link, [text()] *)
  summaryText : jsstring               (* [.articleSummary], [text()] *)
}.
End FinanceDl.

(** What the content fetcher returns for an article. *)
Module CrawlResult.
Record t := mk {
  content : jsstring;
  source : jsstring;
  thumbnail : jsstring
}.
End CrawlResult.

Module CrawledNewsItem.
Record t := mk {
  title : jsstring;
  description : jsstring;
  content : jsstring;
  source : jsstring;
  url : jsstring;
  publishedAt : jsstring;
  isCrawled : bool;
  thumbnail : jsstring
}.
End CrawledNewsItem.

(** The prompt sent to the generation capability: the parts the code
    computes. The fixed instructions around them are constant text. *)
Module Prompt.
Record t := mk {
  rateInfo : option ExchangeRateInfo.t;   (* present when [currentRate.usd > 0] *)
  count : nat;                            (* [newsForAnalysis.length] *)
  newsText : jsstring
}.
End Prompt.

(** What the generation client gives: a rejection, or a completion whose
    first choice has this [content] ([None] for [null]). *)
Inductive Completion : Type :=
| ClientRejected
| Completed (content : option jsstring).

(** An outbound call. *)
Inductive NetCall : Type :=
| FetchMarketIndex
| FetchSearch (query : jsstring)
| FetchFinanceNews
| FetchArticle (url : jsstring)
| OpenAIChat (prompt : Prompt.t).

(** The environment of the process and the behaviour of the outside world.
    A network oracle answers the call with sequence number [n] in the log
    of the world, so the same request may be answered differently at
    different times. *)
Record Env := {
  OPENAI_API_KEY : option jsstring;
  NAVER_CLIENT_ID : option jsstring;
  NAVER_CLIENT_SECRET : option jsstring;
  clock : nat -> Instant;
  net_marketindex : nat -> Fetched (list RateRow.t);
  net_search : nat -> jsstring -> Fetched (list NaverNewsItem.t);
  net_finance : nat -> Fetched (list FinanceDl.t);
  net_article : nat -> jsstring -> Fetched ArticleDoc.t;
  net_openai : nat -> Prompt.t -> Completion
}.

Record CacheEntry := { value : obj; createdAt : Z }.

(** The state a request runs in and leaves behind. *)
Record World := {
  ticks : nat;                           (* clock readings made so far *)
  calls : list NetCall;                  (* outbound calls made so far *)
  store : list (jsstring * CacheEntry)   (* the result cache, by tag *)
}.

(** An [async] computation. *)
Definition M (A : Type) : Type := World -> (exn + A) * World.

Definition ret (A : Type) (a : A) : M A := fun w => (inr a, w).

Definition throw (A : Type) (e : exn) : M A := fun w => (inl e, w).
Arguments throw {A} e.

Definition bind (A B : Type) (c : M A) (k : A -> M B) : M B :=
  fun w =>
    match c w with
    | (inr a, w') => k a w'
    | (inl e, w') => (inl e, w')
    end.

(** [try { c } catch { h }]. *)
Definition try_catch (A : Type) (c : M A) (h : exn -> M A) : M A :=
  fun w =>
    match c w with
    | (inr a, w') => (inr a, w')
    | (inl e, w') => h e w'
    end.

Notation "x <- c ;; k" := (bind c (fun x => k))
  (at level 61, c at next level, right associativity).

(** [Promise.all(ps)]: every computation of [ps] has been started, so each
    one runs (in array order here); the results are collected by position,
    and a rejection of any of them rejects the whole (the first in array
    order here). *)
Fixpoint Promise_all (A : Type) (ps : list (M A)) : M (list A) :=
  fun w =>
    match ps with
    | [] => (inr [], w)
    | p :: ps' =>
        let (r, w1) := p w in
        let (rs, w2) := Promise_all ps' w1 in
        (match r, rs with
         | inl e, _ => inl e
         | inr _, inl e => inl e
         | inr a, inr l => inr (a :: l)
         end, w2)
    end.

(** [Promise.all([p, q])] for two computations of different types. *)
Definition Promise_all2 (A B : Type) (p : M A) (q : M B) : M (A * B) :=
  fun w =>
    let (r, w1) := p w in
    let (s, w2) := q w1 in
    (match r, s with
     | inl e, _ => inl e
     | inr _, inl e => inl e
     | inr a, inr b => inr (a, b)
     end, w2).

Definition tick (w : World) : World :=
  {| ticks := S (ticks w); calls := calls w; store := store w |}.

Definition logged (c : NetCall) (w : World) : World :=
  {| ticks := ticks w; calls := calls w ++ [c]; store := store w |}.

Definition stored (tag : jsstring) (e : CacheEntry) (w : World) : World :=
  {| ticks := ticks w; calls := calls w; store := Map_set tag e (store w) |}.

(** A response as the code holds it. *)
Record HttpResponse (Body : Type) := {
  ok : bool;
  status : nat;
  body : option Body
}.

Section Pipeline.

Variable env : Env.

(** [Date.now()]. *)
Definition Date_now : M Z :=
  fun w => (inr (ms (clock env (ticks w))), tick w).

(** [new Date().toISOString()]. *)
Definition Date_toISOString : M jsstring :=
  fun w => (inr (iso (clock env (ticks w))), tick w).

(** [await fetch(...)]: the call is logged, and the oracle answers it. *)
Definition fetch (Body : Type) (c : NetCall) (oracle : nat -> Fetched Body) :
  M (HttpResponse Body) :=
  fun w =>
    match oracle (List.length (calls w)) with
    | Rejected => (inl FetchError, logged c w)
    | Responded o st b => (inr {| ok := o; status := st; body := b |}, logged c w)
    end.

(** Reading the body of a response ([text()] and the parse, or [json()]). *)
Definition read_body (Body : Type) (r : HttpResponse Body) : M Body :=
  match body r with
  | Some b => ret b
  | None => throw FetchError
  end.

(* ------------------------------------------------------------------ *)
(** ** Live reference snapshot: [fetchCurrentExchangeRates] *)

Record RateEntry := { entry_rate : Q; entry_change : Q; entry_trend : Trend }.

(** The body of the [each] callback: a row whose link names no currency is
    skipped; a later row of the same currency overwrites the earlier one;
    [time] is taken from the first row that gives one. *)
Definition rates_step (acc : JsMap RateEntry * jsstring) (row : RateRow.t) :
  JsMap RateEntry * jsstring :=
  match RateRow.currencyKey row with
  | None => acc
  | Some currencyKey =>
      let trend :=
        if RateRow.isUp row then up
        else if RateRow.isDown row then down else stable in
      let change :=
        if RateRow.isDown row then Qopp (RateRow.change row)
        else RateRow.change row in
      (Map_set currencyKey
         {| entry_rate := RateRow.rate row; entry_change := change;
            entry_trend := trend |} (fst acc),
       if truthy (snd acc) then snd acc else trim (RateRow.time row))
  end.

(** [rates.k?.rate || 0]. *)
Definition rate_of (k : jsstring) (rates : JsMap RateEntry) : Q :=
  match Map_get k rates with Some e => entry_rate e | None => 0%Q end.

Definition unavailable : ExchangeRateInfo.t :=
  ExchangeRateInfo.mk 0%Q 0%Q stable 0%Q 0%Q 0%Q [].

(** The message of the error raised, and caught again, on a response that
    is not [ok]. *)
Definition marketindex_failed (status : nat) : jsstring :=
  [45348; 51060; 48260; 32; 44552; 50997; 32; 51217; 49549; 32; 49892;
   54056; 58; 32]%N ++ string_of_nat status.

Definition fetchCurrentExchangeRates : M ExchangeRateInfo.t :=
  try_catch
    (response <- fetch FetchMarketIndex (net_marketindex env) ;;
     if negb (ok response) then throw (Error (marketindex_failed (status response)))
     else
       rows <- read_body response ;;
       let (rates, time) := fold_left rates_step rows ([], []) in
       ret (ExchangeRateInfo.mk
              (rate_of (js "usd") rates)
              (match Map_get (js "usd") rates with
               | Some e => entry_change e | None => 0%Q end)
              (match Map_get (js "usd") rates with
               | Some e => entry_trend e | None => stable end)
              (rate_of (js "jpy") rates)
              (rate_of (js "eur") rates)
              (rate_of (js "cny") rates)
              time))
    (fun _ => ret unavailable).

(* ------------------------------------------------------------------ *)
(** ** Content fetcher: [crawlNaverNews] *)

(** [x || y] where both may be [undefined]. *)
Definition undef_or (x y : option jsstring) : option jsstring :=
  if opt_truthy x then x else y.

Definition crawlNaverNews (url : jsstring) : M (option CrawlResult.t) :=
  if negb (includes (js "news.naver.com") url) then ret None
  else
    try_catch
      (response <- fetch (FetchArticle url) (fun n => net_article env n url) ;;
       if negb (ok response) then ret None
       else
         doc <- read_body response ;;
         let content :=
           str_or (str_or (str_or (ArticleDoc.dic_area doc)
                                  (ArticleDoc.newsct_article_id doc))
                          (ArticleDoc.newsct_article_class doc)) [] in
         let source :=
           opt_or (undef_or (ArticleDoc.logo_alt doc) (ArticleDoc.og_author doc)) [] in
         let thumbnail := opt_or (ArticleDoc.og_image doc) [] in
         ret (Some (CrawlResult.mk (substring0 3000 (trim content))
                                   (trim source) (trim thumbnail))))
      (fun _ => ret None).

(* ------------------------------------------------------------------ *)
(** ** Secondary listing source: [fetchNaverFinanceNews] *)

Definition ENABLE_FINANCE_NEWS_CRAWLING : bool := true.

(** [href.match(/article_id=(\d+)&office_id=(\d+)/)] at one position: the
    two groups. A greedy run of digits can only be followed by the
    ampersand when it is the longest run. *)
Definition match_article_at (s : jsstring) : option (jsstring * jsstring) :=
  if startsWith (js "article_id=") s then
    match span_digits (skipn 11 s) with
    | ([], _) => None
    | (article_id, r1) =>
        if startsWith (js "&office_id=") r1 then
          match span_digits (skipn 11 r1) with
          | ([], _) => None
          | (office_id, _) => Some (article_id, office_id)
          end
        else None
    end
  else None.

(** The leftmost match. *)
Fixpoint match_article (s : jsstring) : option (jsstring * jsstring) :=
  match match_article_at s with
  | Some groups => Some groups
  | None => match s with [] => None | _ :: s' => match_article s' end
  end.

(** The body of the [each] callback: the item pushed, if any. *)
Definition financeItem (dl : FinanceDl.t) : M (option NaverNewsItem.t) :=
  let title := opt_or (FinanceDl.titleAttr dl) (trim (FinanceDl.linkText dl)) in
  if negb (opt_truthy (FinanceDl.href dl)) || negb (truthy title) then ret None
  else
    let href := opt_or (FinanceDl.href dl) [] in
    let fullUrl :=
      if startsWith (js "http") href then href
      else js "https://finance.naver.com" ++ href in
    let naverNewsUrl :=
      match match_article href with
      | Some (article_id, office_id) =>
          js "https://n.news.naver.com/mnews/article/" ++ office_id
             ++ js "/" ++ article_id
      | None => fullUrl
      end in
    now <- Date_toISOString ;;
    ret (Some (NaverNewsItem.mk (stripHtml title) fullUrl naverNewsUrl
                 (str_or (trim (FinanceDl.summaryText dl)) []) now)).

(** A loop whose body is a computation: the bodies run in order, and the
    first exception ends the loop. *)
Fixpoint mapM (A B : Type) (f : A -> M B) (l : list A) : M (list B) :=
  match l with
  | [] => ret []
  | a :: l' => b <- f a ;; bs <- mapM f l' ;; ret (b :: bs)
  end.

(** The values of the [Some]s, in order. *)
Fixpoint somes (A : Type) (l : list (option A)) : list A :=
  match l with
  | [] => []
  | Some a :: l' => a :: somes l'
  | None :: l' => somes l'
  end.

Definition fetchNaverFinanceNews : M (list NaverNewsItem.t) :=
  if negb ENABLE_FINANCE_NEWS_CRAWLING then ret []
  else
    try_catch
      (response <- fetch FetchFinanceNews (net_finance env) ;;
       if negb (ok response) then ret []
       else
         dls <- read_body response ;;
         pushed <- mapM financeItem dls ;;
         ret (somes pushed))
      (fun _ => ret []).

(* ------------------------------------------------------------------ *)
(** ** Primary search: [fetchNews] *)

Definition fetchNews (query : jsstring) : M (list NaverNewsItem.t) :=
  let clientId := NAVER_CLIENT_ID env in
  let clientSecret := NAVER_CLIENT_SECRET env in
  if negb (opt_truthy clientId) || negb (opt_truthy clientSecret)
  then throw (Error (js "Naver API credentials not configured"))
  else
    response <- fetch (FetchSearch query) (fun n => net_search env n query) ;;
    if negb (ok response)
    then throw (Error (js "Naver API error: " ++ string_of_nat (status response)))
    else read_body response.

(* ------------------------------------------------------------------ *)
(** ** Batched enrichment *)

(** [l.slice(i, j)]. *)
Definition slice (A : Type) (i j : nat) (l : list A) : list A :=
  firstn (j - i) (skipn i l).

(** The item built from a search result and from what the fetch of its
    article gave ([None] for [null]). *)
Definition crawledItem (news : NaverNewsItem.t) (crawled : option CrawlResult.t) :
  CrawledNewsItem.t :=
  CrawledNewsItem.mk
    (stripHtml (NaverNewsItem.title news))
    (stripHtml (NaverNewsItem.description news))
    (opt_or (option_map CrawlResult.content crawled) [])
    (opt_or (option_map CrawlResult.source crawled) [])
    (NaverNewsItem.link news)
    (NaverNewsItem.pubDate news)
    (opt_truthy (option_map CrawlResult.content crawled))
    (opt_or (option_map CrawlResult.thumbnail crawled) []).

(** The callback of [batch.map]: the article is fetched, then the item is
    built. *)
Definition crawl_item (news : NaverNewsItem.t) : M CrawledNewsItem.t :=
  crawled <- crawlNaverNews (NaverNewsItem.link news) ;;
  ret (crawledItem news crawled).

Definition batchSize : nat := 5.

(** [for (let i = ...; i < uniqueNews.length; i += batchSize)]: the state
    of the loop is [i] and the array [crawledNews] filled so far. *)
Equations? crawlLoop (uniqueNews : list NaverNewsItem.t) (i : nat)
  (crawledNews : list CrawledNewsItem.t) (w : World) :
  (exn + list CrawledNewsItem.t) * World
  by wf (List.length uniqueNews - i) lt :=
crawlLoop uniqueNews i crawledNews w with lt_dec i (List.length uniqueNews) := {
  | left _ with Promise_all (map crawl_item (slice i (i + batchSize) uniqueNews)) w := {
      | (inr results, w') =>
          crawlLoop uniqueNews (i + batchSize) (crawledNews ++ results) w';
      | (inl e, w') => (inl e, w') };
  | right _ => (inr crawledNews, w) }.
Proof. unfold batchSize. lia. Qed.

Definition crawlAll (uniqueNews : list NaverNewsItem.t) : M (list CrawledNewsItem.t) :=
  crawlLoop uniqueNews 0 [].

(* ------------------------------------------------------------------ *)
(** ** Report synthesizer: [analyzeWithOpenAI] *)

Definition MAX_NEWS_FOR_ANALYSIS : nat := 50.
Definition MAX_CONTENT_LENGTH : nat := 1000.

(** [news.filter(n => n.isCrawled && n.content)]. *)
Definition crawledOnly (news : list CrawledNewsItem.t) : list CrawledNewsItem.t :=
  filter (fun n => CrawledNewsItem.isCrawled n && truthy (CrawledNewsItem.content n))
         news.

(** [crawledNews.slice(0, MAX_NEWS_FOR_ANALYSIS)]. *)
Definition newsForAnalysis (news : list CrawledNewsItem.t) : list CrawledNewsItem.t :=
  slice 0 MAX_NEWS_FOR_ANALYSIS (crawledOnly news).

(** One numbered entry of the prompt; the label is U+B274 U+C2A4. *)
Definition newsLine (p : nat * CrawledNewsItem.t) : jsstring :=
  [91; 45684; 49828; 32]%N ++ string_of_nat (fst p + 1) ++ js "] "
    ++ CrawledNewsItem.title (snd p) ++ [10%N]
    ++ substring0 MAX_CONTENT_LENGTH (CrawledNewsItem.content (snd p)).

Definition newsText (articles : list CrawledNewsItem.t) : jsstring :=
  join [10; 10]%N (map newsLine (indexed 0 articles)).

Definition buildPrompt (articles : list CrawledNewsItem.t)
  (currentRate : ExchangeRateInfo.t) : Prompt.t :=
  Prompt.mk
    (if Qle_bool (ExchangeRateInfo.usd currentRate) 0%Q then None else Some currentRate)
    (List.length articles)
    (newsText articles).

(** [await openai.chat.completions.create(...)], then
    [completion.choices[0].message.content]. *)
Definition chat_create (prompt : Prompt.t) : M (option jsstring) :=
  fun w =>
    match net_openai env (List.length (calls w)) prompt with
    | ClientRejected => (inl APIError, logged (OpenAIChat prompt) w)
    | Completed content => (inr content, logged (OpenAIChat prompt) w)
    end.

(** One entry of [sources]. *)
Definition sourceOf (n : CrawledNewsItem.t) : json :=
  JObj [(js "title", JStr (CrawledNewsItem.title n));
        (js "source", JStr (CrawledNewsItem.source n));
        (js "url", JStr (CrawledNewsItem.url n));
        (js "thumbnail", JStr (CrawledNewsItem.thumbnail n))].

Definition number_of_nat (n : nat) : json := JNum (inject_Z (Z.of_nat n)).

Definition analyzeWithOpenAI (news : list CrawledNewsItem.t)
  (currentRate : ExchangeRateInfo.t) : M obj :=
  let crawledNews := crawledOnly news in
  let articles := newsForAnalysis news in
  content <- chat_create (buildPrompt articles currentRate) ;;
  match JSON_parse (opt_or content (js "{}")) with
  | None => throw SyntaxError
  | Some result =>
      generatedAt <- Date_toISOString ;;
      ret (obj_set (js "newsCount") (number_of_nat (List.length crawledNews))
          (obj_set (js "generatedAt") (JStr generatedAt)
          (obj_set (js "sources") (JArr (map sourceOf articles))
          (spread result))))
  end.

(* ------------------------------------------------------------------ *)
(** ** The pipeline: [performAnalysis] *)

(** The five search keywords (Korean words, by code unit). *)
Definition SEARCH_KEYWORDS : list jsstring :=
  [[54872; 50984]; [45804; 47084]; [50896; 54868]; [44552; 47532];
   [54620; 44397; 51008; 54665]]%N.

Definition rate_json (r : ExchangeRateInfo.t) : json :=
  JObj [(js "usd", JNum (ExchangeRateInfo.usd r));
        (js "usdChange", JNum (ExchangeRateInfo.usdChange r));
        (js "usdTrend", JStr (Trend_str (ExchangeRateInfo.usdTrend r)));
        (js "jpy", JNum (ExchangeRateInfo.jpy r));
        (js "eur", JNum (ExchangeRateInfo.eur r));
        (js "cny", JNum (ExchangeRateInfo.cny r));
        (js "time", JStr (ExchangeRateInfo.time r))].

(** [[...apiNewsResults.flat(), ...financeNews]], then the deduplication. *)
Definition uniqueNewsOf (apiNewsResults : list (list NaverNewsItem.t))
  (financeNews : list NaverNewsItem.t) : list NaverNewsItem.t :=
  dedupByLink (List.concat apiNewsResults ++ financeNews).

(** The test that guards the generation step. *)
Definition key_missing : bool :=
  negb (opt_truthy (OPENAI_API_KEY env))
  || match OPENAI_API_KEY env with
     | Some k => str_eqb k (js "your_openai_api_key_here")
     | None => false
     end.

Definition performAnalysis : M obj :=
  currentRate <- fetchCurrentExchangeRates ;;
  found <- Promise_all2 (Promise_all (map fetchNews SEARCH_KEYWORDS))
                        fetchNaverFinanceNews ;;
  let uniqueNews := uniqueNewsOf (fst found) (snd found) in
  crawledNews <- crawlAll uniqueNews ;;
  if key_missing then throw (Error (js "OpenAI API key not configured"))
  else
    analysis <- analyzeWithOpenAI crawledNews currentRate ;;
    ret (obj_set (js "currentRate") (rate_json currentRate) analysis).

(* ------------------------------------------------------------------ *)
(** ** The result cache and the route handler *)

Definition CACHE_TAG : jsstring := js "exchange-rate-analysis".

(** Modelled from the spec: [unstable_cache] of the framework, which is not
    part of the sources. Section 4.7, [get(tag)]: "returns a memoized value
    if present and unexpired; otherwise computes via the full pipeline,
    stores the result keyed by tag, and returns it"; the entry is
    "replaced wholesale", and a failed computation stores nothing.
    [revalidate] is the time to live, in seconds. *)
Definition unstable_cache (compute : M obj) (tag : jsstring) (revalidate : Z) : M obj :=
  now <- Date_now ;;
  fun w =>
    match Map_get tag (store w) with
    | Some e =>
        if (now - createdAt e <? revalidate * 1000)%Z
        then (inr (value e), w)
        else
          (v <- compute ;;
           fun w' => (inr v, stored tag {| value := v; createdAt := now |} w')) w
    | None =>
        (v <- compute ;;
         fun w' => (inr v, stored tag {| value := v; createdAt := now |} w')) w
    end.

Definition getCachedAnalysis : M obj := unstable_cache performAnalysis CACHE_TAG 600.

(** The JSON body of the response. *)
Inductive ApiResponse : Type :=
| Success (data : obj) (cached : bool) (total : Z)   (* status 200 *)
| Failure (error : exn).                             (* status 500 *)

(** [GET(request)]; [refresh] is [searchParams.get('refresh')]. *)
Definition GET (refresh : option jsstring) : M ApiResponse :=
  let forceRefresh :=
    match refresh with Some v => str_eqb v (js "true") | None => false end in
  try_catch
    (startTime <- Date_now ;;
     answer <-
       (if forceRefresh
        then analysis <- performAnalysis ;; ret (analysis, false)
        else
          analysis <- getCachedAnalysis ;;
          now <- Date_now ;;
          ret (analysis, (now - startTime <? 1000)%Z)) ;;
     now <- Date_now ;;
     ret (Success (fst answer) (snd answer) (now - startTime)))
    (fun error => ret (Failure error)).

End Pipeline.

(* ================================================================== *)
(** * The listing route: the aggregator of its [GET] *)
(* ================================================================== *)

Section Listing.

(** [new Date(s).getTime()]: the timestamp a date string denotes, [None]
    for [NaN]. Reading a date string is the platform's. *)
Variable getTime : jsstring -> option Z.

(** The comparator of the source,
    [(a, b) => new Date(b.pubDate).getTime() - new Date(a.pubDate).getTime()];
    [sort] takes a [NaN] result as [+0]. *)
Definition byDateDesc (a b : NaverNewsItem.t) : Z :=
  match getTime (NaverNewsItem.pubDate b), getTime (NaverNewsItem.pubDate a) with
  | Some tb, Some ta => (tb - ta)%Z
  | _, _ => 0%Z
  end.

(** [l.sort(cmp)], as a stable insertion sort: [x], which stood before the
    elements of [l], goes before the first [y] with [cmp x y <= 0]. With a
    consistent comparator every conforming [sort] gives this order. *)
Fixpoint sort_insert (A : Type) (cmp : A -> A -> Z) (x : A) (l : list A) : list A :=
  match l with
  | [] => [x]
  | y :: l' => if (cmp x y <=? 0)%Z then x :: l else y :: sort_insert cmp x l'
  end.

Definition Array_sort (A : Type) (cmp : A -> A -> Z) (l : list A) : list A :=
  fold_right (sort_insert cmp) [] l.

(** [newsResults.flat()], the deduplication, and [uniqueNews.sort(...)]. *)
Definition listing_uniqueNews (newsResults : list (list NaverNewsItem.t)) :
  list NaverNewsItem.t :=
  Array_sort byDateDesc (dedupByLink (List.concat newsResults)).

(** An item whose date can be read. *)
Definition dated (x : NaverNewsItem.t) : Prop :=
  getTime (NaverNewsItem.pubDate x) <> None.

(** Whether each item is at least as recent as the one after it. *)
Fixpoint non_increasingb (l : list NaverNewsItem.t) : bool :=
  match l with
  | a :: ((b :: _) as l') =>
      match getTime (NaverNewsItem.pubDate a), getTime (NaverNewsItem.pubDate b) with
      | Some ta, Some tb => (tb <=? ta)%Z && non_increasingb l'
      | _, _ => false
      end
  | _ => true
  end.

End Listing.

(* ================================================================== *)
(** * Reading the specification's words *)
(* ================================================================== *)

(** The first and the last item of [allNews] that carries the link [l]. *)
Definition first_with (l : jsstring) (allNews : list NaverNewsItem.t) :
  option NaverNewsItem.t :=
  find (fun x => str_eqb (NaverNewsItem.link x) l) allNews.

Definition last_with (l : jsstring) (allNews : list NaverNewsItem.t) :
  option NaverNewsItem.t :=
  find (fun x => str_eqb (NaverNewsItem.link x) l) (rev allNews).

(** Whether a value is a number inside [-1, 1]. *)
Definition within_unit (v : json) : bool :=
  match v with
  | JNum q => Qle_bool (-1) q && Qle_bool q 1
  | _ => false
  end.

(** [report.sentiment.score]. *)
Definition sentiment_score (report : obj) : option json :=
  match obj_get (js "sentiment") report with
  | Some (JObj sentiment) => obj_get (js "score") sentiment
  | _ => None
  end.

(** [report.sentiment.breakdown]. *)
Definition sentiment_breakdown (report : obj) : option json :=
  match obj_get (js "sentiment") report with
  | Some (JObj sentiment) => obj_get (js "breakdown") sentiment
  | _ => None
  end.

(** The value a run ended in, if it did not end in an exception. *)
Definition returned (A : Type) (r : (exn + A) * World) : option A :=
  match fst r with inr a => Some a | inl _ => None end.

(** The [data] and the [cached] field of a response, when it is a success. *)
Definition response_data (r : (exn + ApiResponse) * World) : option obj :=
  match fst r with inr (Success data _ _) => Some data | _ => None end.

Definition response_cached (r : (exn + ApiResponse) * World) : option bool :=
  match fst r with inr (Success _ cached _) => Some cached | _ => None end.

(** A call to the generation capability. *)
Definition is_chat (c : NetCall) : bool :=
  match c with OpenAIChat _ => true | _ => false end.


(** The world [w'] comes after [w]: the cache store is the same, the clock
    has not been wound back, and the log has grown by calls that all
    satisfy [P]. *)
Definition extends (P : NetCall -> Prop) (w w' : World) : Prop :=
  store w' = store w /\
  ticks w <= ticks w' /\
  exists l, calls w' = calls w ++ l /\ Forall P l.

(** A computation that, from any world, leaves such a world behind. *)
Definition runs (P : NetCall -> Prop) (A : Type) (c : M A) : Prop :=
  forall w, extends P w (snd (c w)).

(** A computation that never ends in an exception. *)
Definition never_throws (A : Type) (c : M A) : Prop :=
  forall w, exists a w', c w = (inr a, w').

(** The text of the article body as the fetcher picks it from a page: the
    first selector that finds text. *)
Definition body_text (doc : ArticleDoc.t) : jsstring :=
  str_or (str_or (str_or (ArticleDoc.dic_area doc)
                         (ArticleDoc.newsct_article_id doc))
                 (ArticleDoc.newsct_article_class doc)) [].

(* ================================================================== *)
(** * Sample inputs *)
(* ================================================================== *)

(** A story, the same story as a later search returns it under the same
    link, and a more recent story. *)
Definition story_first : NaverNewsItem.t :=
  NaverNewsItem.mk
    (js "Won slides against the dollar")
    (js "https://example.com/economy/won-slides")
    (js "https://n.news.naver.com/mnews/article/001/0000001")
    (js "first snippet")
    (js "Mon, 06 Jan 2025 09:00:00 +0900").

Definition story_again : NaverNewsItem.t :=
  NaverNewsItem.mk
    (js "Won slides against the dollar (updated)")
    (js "https://example.com/economy/won-slides")
    (js "https://n.news.naver.com/mnews/article/001/0000001")
    (js "second snippet")
    (js "Mon, 06 Jan 2025 10:30:00 +0900").

Definition story_recent : NaverNewsItem.t :=
  NaverNewsItem.mk
    (js "Bank of Korea holds its rate")
    (js "https://example.com/economy/bok-holds")
    (js "https://n.news.naver.com/mnews/article/015/0000002")
    (js "rate snippet")
    (js "Tue, 07 Jan 2025 08:15:00 +0900").

(** The timestamps of the three sample dates. *)
Definition sample_getTime (s : jsstring) : option Z :=
  if str_eqb s (js "Mon, 06 Jan 2025 09:00:00 +0900") then Some 1736121600000%Z
  else if str_eqb s (js "Mon, 06 Jan 2025 10:30:00 +0900") then Some 1736127000000%Z
  else if str_eqb s (js "Tue, 07 Jan 2025 08:15:00 +0900") then Some 1736205300000%Z
  else None.

(** Decimal digits of [n], at least [width] of them. *)
Definition pad (width n : nat) : jsstring :=
  let ds := string_of_nat n in
  repeat 48%N (width - List.length ds) ++ ds.

(** A clock that starts on 7 January 2025, 00:00:00 UTC and moves [step]
    milliseconds from one reading to the next (the text is right for the
    first minute). *)
Definition sample_clock (step : nat) (n : nat) : Instant :=
  {| ms := 1736208000000 + Z.of_nat (step * n);
     iso := js "2025-01-07T00:00:" ++ pad 2 ((step * n) / 1000)
              ++ js "." ++ pad 3 ((step * n) mod 1000) ++ js "Z" |}.

(** An article page in which no selector finds anything. *)
Definition blank_page : ArticleDoc.t := ArticleDoc.mk [] [] [] None None None.

(** An article page with a body and a press logo. *)
Definition full_page : ArticleDoc.t :=
  ArticleDoc.mk (js "  The won weakened past 1,470 per dollar.  ") [] []
                (Some (js "Yonhap")) None (Some (js "https://img.example/1.jpg")).

(** A world outside in which the search credentials are set, the first
    keyword finds [found] and the others nothing, the listing page and the
    market index are unreachable, every article page is [page], and the
    generation capability answers [completion]. *)
Definition sample_env (key : option jsstring) (step : nat)
  (found : list NaverNewsItem.t) (page : ArticleDoc.t)
  (completion : option jsstring) : Env :=
  {| OPENAI_API_KEY := key;
     NAVER_CLIENT_ID := Some (js "client-id");
     NAVER_CLIENT_SECRET := Some (js "client-secret");
     clock := sample_clock step;
     net_marketindex := fun _ => Rejected;
     net_search := fun _ q =>
       if str_eqb q [54872; 50984]%N then Responded true 200 (Some found)
       else Responded true 200 (Some []);
     net_finance := fun _ => Rejected;
     net_article := fun _ _ => Responded true 200 (Some page);
     net_openai := fun _ _ => Completed completion |}.

(** A world in which nothing has happened yet. *)
Definition fresh_world : World := {| ticks := 0; calls := []; store := [] |}.

(** Two enriched articles, and one whose fetch gave nothing. *)
Definition article_won : CrawledNewsItem.t :=
  CrawledNewsItem.mk (js "Won slides against the dollar") (js "first snippet")
    (js "The won weakened past 1,470 per dollar.") (js "Yonhap")
    (js "https://n.news.naver.com/mnews/article/001/0000001")
    (js "Mon, 06 Jan 2025 09:00:00 +0900") true (js "https://img.example/1.jpg").

Definition article_bok : CrawledNewsItem.t :=
  CrawledNewsItem.mk (js "Bank of Korea holds its rate") (js "rate snippet")
    (js "The Bank of Korea kept its base rate at 3.00%.") (js "Hankyung")
    (js "https://n.news.naver.com/mnews/article/015/0000002")
    (js "Tue, 07 Jan 2025 08:15:00 +0900") true [].

Definition article_missed : CrawledNewsItem.t :=
  CrawledNewsItem.mk (js "Dollar index at a two-year high") (js "blog snippet")
    [] [] (js "https://blog.example.com/dollar-index")
    (js "Tue, 07 Jan 2025 07:00:00 +0900") false [].

Definition sample_news : list CrawledNewsItem.t :=
  [article_won; article_missed; article_bok].

(** A snapshot of the market. *)
Definition sample_rate : ExchangeRateInfo.t :=
  ExchangeRateInfo.mk (14705 # 10) (32 # 10) up (9321 # 10) (15123 # 10)
                      (2004 # 10) (js "2025.01.07 09:00").

(** An answer of the generation capability that names sources of its own
    and a sentiment score outside the unit interval. *)
Definition answer_out_of_range : jsstring :=
  jsq "{'title':'Won under pressure','sentiment':{'overall':'negative','score':5,'description':'Risk-off','breakdown':{'positive':10,'negative':70,'neutral':20}},'sources':[{'title':'invented'}]}".

(** An answer that is not JSON. *)
Definition answer_prose : jsstring :=
  js "Sorry, I cannot produce the report.".

(** A report stored ten seconds before the sample clock starts, and a
    world that holds it in the cache. *)
Definition earlier_report : obj := [(js "title", JStr (js "Earlier briefing"))].

Definition warm_world : World :=
  {| ticks := 0; calls := [];
     store := [(CACHE_TAG, {| value := earlier_report; createdAt := 1736207990000 |})] |}.

(** A well-formed answer of the generation capability. *)
Definition answer_fresh : jsstring := jsq "{'title':'Fresh briefing'}".

(* ================================================================== *)
(** * Reading the market-index rows *)
(* ================================================================== *)

(** The entry [rates_step] writes for a row. *)
Definition rate_entry (row : RateRow.t) : RateEntry :=
  {| entry_rate := RateRow.rate row;
     entry_change :=
       if RateRow.isDown row then Qopp (RateRow.change row) else RateRow.change row;
     entry_trend :=
       if RateRow.isUp row then up
       else if RateRow.isDown row then down else stable |}.

(** The last row of the page that names the currency [key]. *)
Definition last_row (key : jsstring) (rows : list RateRow.t) : option RateRow.t :=
  find (fun row => match RateRow.currencyKey row with
                   | Some k => str_eqb k key
                   | None => false
                   end) (rev rows).

(* ================================================================== *)
(** * Kinds of outbound calls *)
(* ================================================================== *)

(** A call made for the enrichment or for the generation. *)
Definition is_late_call (c : NetCall) : bool :=
  match c with FetchArticle _ | OpenAIChat _ => true | _ => false end.

(** A process in which no credential is set, facing a network that
    answers nothing. *)
Definition unconfigured_env : Env :=
  {| OPENAI_API_KEY := None;
     NAVER_CLIENT_ID := None;
     NAVER_CLIENT_SECRET := Some [];
     clock := sample_clock 250;
     net_marketindex := fun _ => Rejected;
     net_search := fun _ _ => Rejected;
     net_finance := fun _ => Rejected;
     net_article := fun _ _ => Rejected;
     net_openai := fun _ _ => ClientRejected |}.

(** A world outside in which every keyword search is refused with status
    429. *)
Definition throttled_env : Env :=
  {| OPENAI_API_KEY := Some (js "sk-live");
     NAVER_CLIENT_ID := Some (js "client-id");
     NAVER_CLIENT_SECRET := Some (js "client-secret");
     clock := sample_clock 250;
     net_marketindex := fun _ => Rejected;
     net_search := fun _ _ => Responded false 429 None;
     net_finance := fun _ => Rejected;
     net_article := fun _ _ => Rejected;
     net_openai := fun _ _ => ClientRejected |}.

(* ================================================================== *)
(** * The listing route: its content fetcher and its [GET] *)
(* ================================================================== *)

(** What the selectors of the listing route's [crawlNaverNews] find in an
    article page. *)
Module ListingDoc.
Record t := mk {
  dic_area : jsstring;                 (* [$('#dic_area').text()] *)
  articeBody : jsstring;               (* [$('#articeBody').text()] *)
  newsct_article_id : jsstring;        (* [$('#newsct_article').text()] *)
  newsct_article_class : jsstring;     (* [$('.newsct_article').text()] *)
  article_dic_area : jsstring;         (* [$('article#dic_area').text()] *)
  logo_alt : option jsstring;          (* [.media_end_head_top_logo img], [alt] *)
  press_logo_alt : option jsstring;    (* [.press_logo img], [alt] *)
  og_author : option jsstring;         (* [og:article:author], [content] *)
  journalist_name : jsstring;          (* [.media_end_head_journalist_name] *)
  byline_s : jsstring;                 (* [.byline_s] *)
  journalist_name_alt : jsstring       (* [.journalist_name] *)
}.
End ListingDoc.

Module ListingCrawl.
Record t := mk {
  content : jsstring;
  source : jsstring;
  journalist : jsstring
}.
End ListingCrawl.

(** [CrawledNewsItem] of the listing route. *)
Module ListedNews.
Record t := mk {
  title : jsstring;
  description : jsstring;
  content : jsstring;
  source : jsstring;
  journalist : jsstring;
  url : jsstring;
  originalUrl : jsstring;
  publishedAt : jsstring;
  crawledAt : jsstring;
  isCrawled : bool
}.
End ListedNews.

(** The [data] of a successful answer of the listing route. *)
Module ListingData.
Record t := mk {
  news : list ListedNews.t;
  total : nat;
  crawledCount : nat;
  keywords : list jsstring;
  timing_api : Z;
  timing_crawl : Z;
  timing_total : Z
}.
End ListingData.

Inductive ListingResponse : Type :=
| ListingSuccess (data : ListingData.t)   (* status 200 *)
| ListingFailure (error : exn).           (* status 500 *)

(** The four search keywords of the listing route. *)
Definition LISTING_KEYWORDS : list jsstring :=
  [[54872; 50984]; [45804; 47084]; [50896; 54868]; [44552; 47532]]%N.

Section ListingPipeline.

Variable env : Env.

(** The timestamps of date strings, as in [byDateDesc]. *)
Variable getTime : jsstring -> option Z.

(** What [fetch] gives for an article page, seen through the selectors of
    this route. *)
Variable net_listing_article : nat -> jsstring -> Fetched ListingDoc.t.

(** [crawlNaverNews] of the listing route. *)
Definition listing_crawlNaverNews (url : jsstring) : M (option ListingCrawl.t) :=
  if negb (includes (js "news.naver.com") url) then ret None
  else
    try_catch
      (response <- fetch (FetchArticle url) (fun n => net_listing_article n url) ;;
       if negb (ok response) then ret None
       else
         doc <- read_body response ;;
         let articleBody :=
           str_or (str_or (str_or (str_or (ListingDoc.dic_area doc)
                                          (ListingDoc.articeBody doc))
                                  (ListingDoc.newsct_article_id doc))
                          (ListingDoc.newsct_article_class doc))
                  (ListingDoc.article_dic_area doc) in
         let content := if truthy articleBody then trim articleBody else [] in
         let source :=
           opt_or (undef_or (undef_or (ListingDoc.logo_alt doc)
                                      (ListingDoc.press_logo_alt doc))
                            (ListingDoc.og_author doc)) [] in
         let journalist :=
           str_or (str_or (str_or (ListingDoc.journalist_name doc)
                                  (ListingDoc.byline_s doc))
                          (ListingDoc.journalist_name_alt doc)) [] in
         ret (Some (ListingCrawl.mk (substring0 5000 content)
                                    (trim source) (trim journalist))))
      (fun _ => ret None).

(** The item built from a search result, from what the fetch of its
    article gave, and from the instant it was built. *)
Definition listedItem (news : NaverNewsItem.t) (crawled : option ListingCrawl.t)
  (crawledAt : jsstring) : ListedNews.t :=
  ListedNews.mk
    (stripHtml (NaverNewsItem.title news))
    (stripHtml (NaverNewsItem.description news))
    (opt_or (option_map ListingCrawl.content crawled) [])
    (opt_or (option_map ListingCrawl.source crawled) [])
    (opt_or (option_map ListingCrawl.journalist crawled) [])
    (NaverNewsItem.link news)
    (NaverNewsItem.originallink news)
    (NaverNewsItem.pubDate news)
    crawledAt
    (opt_truthy (option_map ListingCrawl.content crawled)).

(** The callback of [batch.map] in the listing route. *)
Definition listing_crawl_item (news : NaverNewsItem.t) : M ListedNews.t :=
  crawled <- listing_crawlNaverNews (NaverNewsItem.link news) ;;
  crawledAt <- Date_toISOString env ;;
  ret (listedItem news crawled crawledAt).

(** The batch loop of the listing route, with the same batch size. *)
Equations? listingLoop (uniqueNews : list NaverNewsItem.t) (i : nat)
  (crawledNews : list ListedNews.t) (w : World) :
  (exn + list ListedNews.t) * World
  by wf (List.length uniqueNews - i) lt :=
listingLoop uniqueNews i crawledNews w with lt_dec i (List.length uniqueNews) := {
  | left _ with Promise_all (map listing_crawl_item
                               (slice i (i + batchSize) uniqueNews)) w := {
      | (inr results, w') =>
          listingLoop uniqueNews (i + batchSize) (crawledNews ++ results) w';
      | (inl e, w') => (inl e, w') };
  | right _ => (inr crawledNews, w) }.
Proof. unfold batchSize. lia. Qed.

(** [GET] of the listing route. The time of the request is read first,
    before the [try]; the handler only prints it. *)
Definition listing_GET : M ListingResponse :=
  requestTime <- Date_toISOString env ;;
  try_catch
    (startTime <- Date_now env ;;
     newsResults <- Promise_all (map (fetchNews env) LISTING_KEYWORDS) ;;
     apiEnd <- Date_now env ;;
     let uniqueNews := listing_uniqueNews getTime newsResults in
     crawlStartTime <- Date_now env ;;
     crawledNews <- listingLoop uniqueNews 0 [] ;;
     crawlEnd <- Date_now env ;;
     totalEnd <- Date_now env ;;
     let crawledCount := List.length (filter ListedNews.isCrawled crawledNews) in
     ret (ListingSuccess
            (ListingData.mk crawledNews (List.length crawledNews) crawledCount
               LISTING_KEYWORDS (apiEnd - startTime) (crawlEnd - crawlStartTime)
               (totalEnd - startTime))))
    (fun error => ret (ListingFailure error)).

End ListingPipeline.

(** Whether each listed item is at least as recent as the one after it. *)
Fixpoint listed_non_increasingb (getTime : jsstring -> option Z)
  (l : list ListedNews.t) : bool :=
  match l with
  | a :: ((b :: _) as l') =>
      match getTime (ListedNews.publishedAt a), getTime (ListedNews.publishedAt b) with
      | Some ta, Some tb => (tb <=? ta)%Z && listed_non_increasingb getTime l'
      | _, _ => false
      end
  | _ => true
  end.

(** A page of the listing route's view with a body and a byline. *)
Definition listing_page : ListingDoc.t :=
  ListingDoc.mk [] (js "  Exporters sold dollars into the rally.  ") [] [] []
                None (Some (js "Maeil")) None [] (js " Kim Reporter ") [].

(** The world of the sample searches: the first keyword finds the three
    sample stories. *)
Definition sample_listing_env : Env :=
  sample_env None 250 [story_first; story_recent; story_again] full_page None.

(** Every article page, as the listing route sees it, is [listing_page]. *)
Definition sample_listing_pages (n : nat) (url : jsstring) : Fetched ListingDoc.t :=
  Responded true 200 (Some listing_page).

(** A call the listing route may make. *)
Definition is_listing_call (c : NetCall) : bool :=
  match c with FetchSearch _ | FetchArticle _ => true | _ => false end.

(* ================================================================== *)
(** * The two routes that clear the cache *)
(* ================================================================== *)

(** The part of the process environment the clearing routes read. *)
Record ServerEnv := {
  NODE_ENV : option jsstring;
  CRON_SECRET : option jsstring
}.

(** [`Bearer ${process.env.CRON_SECRET}`]: an unset variable is printed as
    [undefined]. *)
Definition bearer (senv : ServerEnv) : jsstring :=
  js "Bearer " ++ match CRON_SECRET senv with Some s => s | None => js "undefined" end.

(** [a === b] and [a !== b] where [a] may be [null] or [undefined] and [b]
    is a string. *)
Definition is_string (a : option jsstring) (b : jsstring) : bool :=
  match a with Some s => str_eqb s b | None => false end.

Inductive ClearResponse : Type :=
| Unauthorized                                              (* status 401 *)
| Cleared (clearedTags : list jsstring) (timestamp : jsstring)   (* status 200 *)
| ClearFailure (error : exn).                               (* status 500 *)

(** [m.delete(k)]. *)
Definition Map_delete (V : Type) (k : jsstring) (m : JsMap V) : JsMap V :=
  filter (fun e => negb (str_eqb (fst e) k)) m.

(** Modelled from the spec: [revalidateTag] of the framework, which is not
    part of the sources. Section 4.7, [invalidate(tag)]: "marks the
    entry(ies) immediately expired; next get recomputes". *)
Definition revalidateTag (tag : jsstring) : M unit :=
  fun w => (inr tt, {| ticks := ticks w; calls := calls w;
                       store := Map_delete tag (store w) |}).

Definition RATE_TAG : jsstring := js "exchange-rate".

(** [Object.values(CACHE_TAGS)] of the route that clears by tag. *)
Definition CACHE_TAGS : list jsstring := [CACHE_TAG; RATE_TAG].

Section Clearing.

Variable env : Env.
Variable senv : ServerEnv.

(** [POST] of [src/app/api/cache/clear/route.ts]: the tag of the analysis
    is cleared; the answer names it in its message. [authHeader] is
    [request.headers.get('authorization')]. *)
Definition clear_POST (authHeader : option jsstring) : M ClearResponse :=
  if is_string (NODE_ENV senv) (js "production")
     && negb (is_string authHeader (bearer senv))
  then ret Unauthorized
  else
    try_catch
      (_ <- revalidateTag CACHE_TAG ;;
       timestamp <- Date_toISOString env ;;
       ret (Cleared [CACHE_TAG] timestamp))
      (fun error => ret (ClearFailure error)).

(** [POST] of the route that clears by tag; [tag] is
    [searchParams.get('tag')]. *)
Definition clear_by_tag_POST (authHeader tag : option jsstring) : M ClearResponse :=
  if is_string (NODE_ENV senv) (js "production")
     && opt_truthy (CRON_SECRET senv)
     && negb (is_string authHeader (bearer senv))
  then ret Unauthorized
  else
    try_catch
      (clearedTags <-
         (if opt_truthy tag
          then _ <- revalidateTag (opt_or tag []) ;; ret [opt_or tag []]
          else mapM (fun cacheTag => _ <- revalidateTag cacheTag ;; ret cacheTag)
                    CACHE_TAGS) ;;
       timestamp <- Date_toISOString env ;;
       ret (Cleared clearedTags timestamp))
      (fun error => ret (ClearFailure error)).

(** The test at the head of the scheduled digest route: whether the
    request goes on ([true]) or is answered 401. *)
Definition cron_admitted (authHeader : option jsstring) : bool :=
  if negb (is_string authHeader (bearer senv))
  then negb (is_string (NODE_ENV senv) (js "production"))
  else true.

End Clearing.

(** A production process with the secret set, and one where it was left
    unset. *)
Definition guarded_server : ServerEnv :=
  {| NODE_ENV := Some (js "production"); CRON_SECRET := Some (js "s3cret") |}.

Definition unguarded_server : ServerEnv :=
  {| NODE_ENV := Some (js "production"); CRON_SECRET := None |}.
(* ================================================================== *)
(** * Properties *)
(* ================================================================== *)

(** ** Strings *)

Lemma str_eqb_eq (a b : jsstring) : str_eqb a b = true <-> a = b.
Proof.
  unfold str_eqb. destruct (list_eq_dec N.eq_dec a b); split; congruence.
Qed.

Lemma str_eqb_refl (a : jsstring) : str_eqb a a = true.
Proof. apply str_eqb_eq. reflexivity. Qed.

Lemma str_eqb_neq (a b : jsstring) : str_eqb a b = false <-> a <> b.
Proof.
  unfold str_eqb. destruct (list_eq_dec N.eq_dec a b); split; congruence.
Qed.

Lemma truthy_nonempty (s : jsstring) : truthy s = true <-> s <> [].
Proof. destruct s; simpl; split; congruence. Qed.

Lemma find_app (A : Type) (p : A -> bool) (l1 l2 : list A) :
  find p (l1 ++ l2) =
  match find p l1 with Some x => Some x | None => find p l2 end.
Proof.
  induction l1 as [|x l1 IH]; simpl; [reflexivity|].
  destruct (p x); [reflexivity | exact IH].
Qed.

Lemma find_map (A B : Type) (f : A -> B) (p : B -> bool) (l : list A) :
  find p (map f l) = option_map f (find (fun x => p (f x)) l).
Proof.
  induction l as [|x l IH]; simpl; [reflexivity|].
  destruct (p (f x)); [reflexivity | exact IH].
Qed.

Lemma In_firstn (A : Type) (n : nat) (l : list A) (x : A) :
  In x (firstn n l) -> In x l.
Proof.
  revert l. induction n as [|n IH]; intros [|y l]; simpl; try tauto.
  intros [H | H]; [left; exact H | right; apply IH; exact H].
Qed.

(** ** The insertion-ordered map *)

Section MapFacts.

Variable V : Type.
Implicit Types (m : JsMap V) (k : jsstring) (v : V).

Lemma Map_keys_set_in k v m :
  In k (Map_keys m) -> Map_keys (Map_set k v m) = Map_keys m.
Proof.
  induction m as [|[k' v'] m IH]; simpl; [tauto|].
  intros [Hk | Hin].
  - subst. rewrite str_eqb_refl. reflexivity.
  - destruct (str_eqb k' k) eqn:E; simpl; [reflexivity|].
    f_equal. exact (IH Hin).
Qed.

Lemma Map_keys_set_notin k v m :
  ~ In k (Map_keys m) -> Map_keys (Map_set k v m) = Map_keys m ++ [k].
Proof.
  induction m as [|[k' v'] m IH]; simpl; [reflexivity|].
  intros Hn. destruct (str_eqb k' k) eqn:E.
  - apply str_eqb_eq in E. tauto.
  - simpl. f_equal. apply IH. tauto.
Qed.

Lemma Map_keys_set_iff k v m k' :
  In k' (Map_keys (Map_set k v m)) <-> k' = k \/ In k' (Map_keys m).
Proof.
  destruct (in_dec (list_eq_dec N.eq_dec) k (Map_keys m)) as [Hin | Hn].
  - rewrite Map_keys_set_in by assumption.
    split; [tauto | intros [-> | H]; assumption].
  - rewrite Map_keys_set_notin by assumption.
    rewrite in_app_iff. simpl. intuition congruence.
Qed.

Lemma Map_set_NoDup k v m :
  NoDup (Map_keys m) -> NoDup (Map_keys (Map_set k v m)).
Proof.
  intros Hnd.
  destruct (in_dec (list_eq_dec N.eq_dec) k (Map_keys m)) as [Hin | Hn].
  - rewrite Map_keys_set_in; assumption.
  - rewrite Map_keys_set_notin by assumption.
    apply NoDup_rev in Hnd. rewrite <- (rev_involutive (Map_keys m ++ [k])).
    apply NoDup_rev. rewrite rev_app_distr. simpl. constructor; [|assumption].
    rewrite <- in_rev. assumption.
Qed.

Lemma Map_get_set_same k v m : Map_get k (Map_set k v m) = Some v.
Proof.
  induction m as [|[k' v'] m IH]; simpl.
  - rewrite str_eqb_refl. reflexivity.
  - destruct (str_eqb k' k) eqn:E; simpl; rewrite E; [reflexivity | exact IH].
Qed.

Lemma Map_get_set_other k k' v m :
  str_eqb k k' = false -> Map_get k' (Map_set k v m) = Map_get k' m.
Proof.
  intros Hne. induction m as [|[k0 v0] m IH]; simpl.
  - rewrite Hne. reflexivity.
  - destruct (str_eqb k0 k) eqn:E; simpl.
    + apply str_eqb_eq in E. subst k0. rewrite Hne. reflexivity.
    + destruct (str_eqb k0 k'); [reflexivity | exact IH].
Qed.

Lemma Map_get_In k v m :
  NoDup (Map_keys m) -> In (k, v) m -> Map_get k m = Some v.
Proof.
  induction m as [|[k' v'] m IH]; simpl; [tauto|].
  intros Hnd [Heq | Hin].
  - inversion Heq; subst. rewrite str_eqb_refl. reflexivity.
  - inversion Hnd as [|? ? Hnotin Hnd']; subst.
    destruct (str_eqb k' k) eqn:E.
    + apply str_eqb_eq in E. subst k'. exfalso. apply Hnotin.
      change k with (fst (k, v)). apply in_map. assumption.
    + apply IH; assumption.
Qed.

Lemma Map_fill_NoDup entries m :
  NoDup (Map_keys m) -> NoDup (Map_keys (Map_fill entries m)).
Proof.
  revert m. induction entries as [|e es IH]; simpl; intros m Hnd; [assumption|].
  apply IH. apply Map_set_NoDup. assumption.
Qed.

Lemma Map_fill_keys entries m k :
  In k (Map_keys (Map_fill entries m)) <->
  In k (map fst entries) \/ In k (Map_keys m).
Proof.
  revert m. induction entries as [|e es IH]; simpl; intros m; [tauto|].
  rewrite IH, Map_keys_set_iff. intuition congruence.
Qed.

(** After the fill, a key holds the value of its last entry. *)
Lemma Map_fill_get entries m k :
  Map_get k (Map_fill entries m) =
  match find (fun e => str_eqb (fst e) k) (rev entries) with
  | Some e => Some (snd e)
  | None => Map_get k m
  end.
Proof.
  revert m. induction entries as [|e es IH]; simpl; intros m; [reflexivity|].
  rewrite IH, find_app. simpl.
  destruct (find (fun e0 => str_eqb (fst e0) k) (rev es)); [reflexivity|].
  destruct (str_eqb (fst e) k) eqn:E.
  - apply str_eqb_eq in E. subst k. apply Map_get_set_same.
  - apply Map_get_set_other. assumption.
Qed.

End MapFacts.

(** ** Deduplication *)

Lemma dedupByLink_fill (allNews : list NaverNewsItem.t) :
  dedupByLink allNews =
  Map_values (Map_fill (map (fun item => (NaverNewsItem.link item, item)) allNews) []).
Proof. reflexivity. Qed.

Lemma dedupByLink_links (allNews : list NaverNewsItem.t) :
  map NaverNewsItem.link (dedupByLink allNews) =
  Map_keys (Map_fill (map (fun item => (NaverNewsItem.link item, item)) allNews) []).
Proof.
  rewrite dedupByLink_fill. unfold Map_values, Map_keys. rewrite map_map.
  set (m := Map_fill _ _).
  assert (Hinv : forall e, In e m -> fst e = NaverNewsItem.link (snd e)).
  { intros [k v] Hin. simpl.
    assert (Hnd : NoDup (Map_keys m)) by (apply Map_fill_NoDup; constructor).
    pose proof (Map_get_In _ _ _ Hnd Hin) as Hget. unfold m in Hget.
    rewrite Map_fill_get in Hget. rewrite <- map_rev, find_map in Hget.
    simpl in Hget.
    destruct (find _ (rev allNews)) as [x|] eqn:F; simpl in Hget; [|discriminate].
    apply find_some in F. destruct F as [_ F]. apply str_eqb_eq in F.
    inversion Hget; subst. reflexivity. }
  clearbody m. induction m as [|e m IH]; simpl; [reflexivity|].
  f_equal.
  - symmetry. apply Hinv. left. reflexivity.
  - apply IH. intros e' He'. apply Hinv. right. assumption.
Qed.

Lemma dedupByLink_last (allNews : list NaverNewsItem.t) (item : NaverNewsItem.t) :
  In item (dedupByLink allNews) ->
  last_with (NaverNewsItem.link item) allNews = Some item.
Proof.
  rewrite dedupByLink_fill. unfold Map_values. intros Hin.
  apply in_map_iff in Hin. destruct Hin as [[k v] [Hv Hin]]. simpl in Hv. subst v.
  set (m := Map_fill _ _) in Hin.
  assert (Hnd : NoDup (Map_keys m)) by (apply Map_fill_NoDup; constructor).
  pose proof (Map_get_In _ _ _ Hnd Hin) as Hget. unfold m in Hget.
  rewrite Map_fill_get in Hget. rewrite <- map_rev, find_map in Hget.
  simpl in Hget. unfold last_with.
  destruct (find _ (rev allNews)) as [x|] eqn:F; simpl in Hget; [|discriminate].
  inversion Hget; subst x.
  pose proof (find_some _ _ F) as [_ Hk]. apply str_eqb_eq in Hk. subst k.
  exact F.
Qed.

Lemma dedupByLink_subset (allNews : list NaverNewsItem.t) (item : NaverNewsItem.t) :
  In item (dedupByLink allNews) -> In item allNews.
Proof.
  intros Hin. apply dedupByLink_last in Hin. unfold last_with in Hin.
  apply find_some in Hin. destruct Hin as [Hin _].
  apply in_rev. assumption.
Qed.

Lemma Map_set_fresh (V : Type) (k : jsstring) (v : V) (m : JsMap V) :
  ~ In k (Map_keys m) -> Map_set k v m = m ++ [(k, v)].
Proof.
  induction m as [|[k' v'] m IH]; simpl; [reflexivity|].
  intros Hn. destruct (str_eqb k' k) eqn:E.
  - apply str_eqb_eq in E. tauto.
  - f_equal. apply IH. tauto.
Qed.

Lemma Map_fill_fresh (V : Type) (entries : list (jsstring * V)) (m : JsMap V) :
  NoDup (map fst entries) ->
  (forall k, In k (map fst entries) -> ~ In k (Map_keys m)) ->
  Map_fill entries m = m ++ entries.
Proof.
  revert m. induction entries as [|[k v] es IH]; simpl; intros m Hnd Hdisj.
  - rewrite app_nil_r. reflexivity.
  - inversion Hnd as [|? ? Hk Hnd']; subst.
    rewrite Map_set_fresh by (apply Hdisj; left; reflexivity).
    rewrite IH; [rewrite <- app_assoc; reflexivity | assumption |].
    intros k' Hk' Hin. unfold Map_keys in Hin. rewrite map_app, in_app_iff in Hin.
    simpl in Hin. destruct Hin as [Hin | [<- | []]].
    + apply (Hdisj k'); [right; assumption | exact Hin].
    + contradiction.
Qed.

(** Without repeated links the deduplication returns its input, in the
    order it came. *)
Lemma dedupByLink_distinct (allNews : list NaverNewsItem.t) :
  NoDup (map NaverNewsItem.link allNews) -> dedupByLink allNews = allNews.
Proof.
  intros Hnd. rewrite dedupByLink_fill, Map_fill_fresh.
  - simpl. unfold Map_values. rewrite map_map. simpl. apply map_id.
  - rewrite map_map. simpl. assumption.
  - intros k _ [].
Qed.

(** C2 (amended). For every list of search results, from either source,
    the merged output carries each link exactly once: no link twice, and
    every link of the input. The entry kept for a link is the last one of
    the input that carries it, so its title, snippet and date are those of
    the last occurrence. *)
Theorem dedup_each_link_once_last_kept (allNews : list NaverNewsItem.t) :
  NoDup (map NaverNewsItem.link (dedupByLink allNews)) /\
  (forall l, In l (map NaverNewsItem.link (dedupByLink allNews)) <->
             In l (map NaverNewsItem.link allNews)) /\
  (forall item, In item (dedupByLink allNews) ->
                last_with (NaverNewsItem.link item) allNews = Some item).
Proof.
  split; [|split].
  - rewrite dedupByLink_links. apply Map_fill_NoDup. constructor.
  - intros l. rewrite dedupByLink_links, Map_fill_keys, map_map. simpl. tauto.
  - intros item. apply dedupByLink_last.
Qed.

(** C2, as the specification states it, fails: of two results with one
    link the second is kept, and its title, snippet and date differ from
    those of the first. *)
Lemma dedup_does_not_keep_first :
  dedupByLink [story_first; story_again] = [story_again] /\
  first_with (NaverNewsItem.link story_again) [story_first; story_again]
    = Some story_first /\
  ~ (forall item, In item (dedupByLink [story_first; story_again]) ->
       first_with (NaverNewsItem.link item) [story_first; story_again] = Some item).
Proof.
  split; [vm_compute; reflexivity|]. split; [vm_compute; reflexivity|].
  intros H. specialize (H story_again (or_introl eq_refl)).
  vm_compute in H. discriminate H.
Qed.

(** ** The order handed to the enrichment phase *)

Section ListingFacts.

Variable getTime : jsstring -> option Z.

Lemma sort_insert_In (x y : NaverNewsItem.t) (l : list NaverNewsItem.t) :
  In y (sort_insert (byDateDesc getTime) x l) <-> y = x \/ In y l.
Proof.
  induction l as [|z l IH]; simpl; [intuition congruence|].
  destruct (byDateDesc getTime x z <=? 0)%Z; simpl; [intuition congruence|].
  rewrite IH. intuition congruence.
Qed.

Lemma Array_sort_In (y : NaverNewsItem.t) (l : list NaverNewsItem.t) :
  In y (Array_sort (byDateDesc getTime) l) <-> In y l.
Proof.
  induction l as [|x l IH]; simpl; [tauto|].
  rewrite sort_insert_In, IH. intuition congruence.
Qed.

Lemma non_increasingb_cons (a b : NaverNewsItem.t) (l : list NaverNewsItem.t) :
  non_increasingb getTime (a :: b :: l) =
  match getTime (NaverNewsItem.pubDate a), getTime (NaverNewsItem.pubDate b) with
  | Some ta, Some tb => (tb <=? ta)%Z && non_increasingb getTime (b :: l)
  | _, _ => false
  end.
Proof. reflexivity. Qed.

Lemma sort_insert_non_increasing (x : NaverNewsItem.t) (l : list NaverNewsItem.t) :
  dated getTime x -> Forall (dated getTime) l ->
  non_increasingb getTime l = true ->
  non_increasingb getTime (sort_insert (byDateDesc getTime) x l) = true.
Proof.
  unfold dated. intros Hx Hl. induction l as [|y l IH]; intros Hs; [reflexivity|].
  inversion Hl as [|? ? Hy Hl']; subst.
  destruct (getTime (NaverNewsItem.pubDate x)) as [tx|] eqn:Ex; [|congruence].
  destruct (getTime (NaverNewsItem.pubDate y)) as [ty|] eqn:Ey; [|congruence].
  cbn [sort_insert]. unfold byDateDesc at 1. rewrite Ex, Ey.
  destruct (ty - tx <=? 0)%Z eqn:C.
  - rewrite non_increasingb_cons, Ex, Ey, Hs, andb_true_r.
    apply Z.leb_le. apply Z.leb_le in C. lia.
  - apply Z.leb_gt in C. specialize (IH Hl').
    destruct l as [|z l].
    + cbn [sort_insert]. rewrite non_increasingb_cons, Ey, Ex. cbn.
      rewrite andb_true_r. apply Z.leb_le. lia.
    + rewrite non_increasingb_cons, Ey in Hs.
      destruct (getTime (NaverNewsItem.pubDate z)) as [tz|] eqn:Ez; [|discriminate].
      apply andb_true_iff in Hs. destruct Hs as [Hyz Hs].
      specialize (IH Hs). cbn [sort_insert] in IH |- *.
      destruct (byDateDesc getTime x z <=? 0)%Z.
      * rewrite non_increasingb_cons, Ey, Ex, IH, andb_true_r.
        apply Z.leb_le. lia.
      * rewrite non_increasingb_cons, Ey, Ez, Hyz, IH. reflexivity.
Qed.

(** X26. The listing route: with every date readable, the list handed to
    its enrichment loop is in non-increasing order of timestamp. *)
Lemma listing_route_sorted (newsResults : list (list NaverNewsItem.t)) :
  Forall (dated getTime) (List.concat newsResults) ->
  non_increasingb getTime (listing_uniqueNews getTime newsResults) = true.
Proof.
  intros Hd. unfold listing_uniqueNews.
  assert (Hu : Forall (dated getTime) (dedupByLink (List.concat newsResults))).
  { apply Forall_forall. intros x Hx. apply dedupByLink_subset in Hx.
    rewrite Forall_forall in Hd. apply Hd. assumption. }
  induction Hu as [|x l Hx Hl IH]; [reflexivity|].
  change (Array_sort (byDateDesc getTime) (x :: l))
    with (sort_insert (byDateDesc getTime) x (Array_sort (byDateDesc getTime) l)).
  apply sort_insert_non_increasing; [exact Hx | | exact IH].
  apply Forall_forall. intros y Hy. rewrite Array_sort_In in Hy.
  rewrite Forall_forall in Hl. apply Hl. assumption.
Qed.

End ListingFacts.

(** C3. The analysis route hands the merged list to the enrichment loop in
    the order of arrival: it never sorts. On two results of two keyword
    searches, the older first, the list stays older-first, which is not
    non-increasing by timestamp; the listing route, on the same results,
    does put the recent one first. *)
Theorem analysis_route_not_sorted (getTime : jsstring -> option Z) (t1 t2 : Z) :
  getTime (NaverNewsItem.pubDate story_first) = Some t1 ->
  getTime (NaverNewsItem.pubDate story_recent) = Some t2 ->
  (t1 < t2)%Z ->
  uniqueNewsOf [[story_first]; [story_recent]] [] = [story_first; story_recent] /\
  non_increasingb getTime (uniqueNewsOf [[story_first]; [story_recent]] []) = false /\
  listing_uniqueNews getTime [[story_first]; [story_recent]]
    = [story_recent; story_first].
Proof.
  intros H1 H2 Hlt.
  assert (Hu : uniqueNewsOf [[story_first]; [story_recent]] []
               = [story_first; story_recent]) by (vm_compute; reflexivity).
  split; [exact Hu|]. split.
  - rewrite Hu. cbn [non_increasingb]. rewrite H1, H2.
    apply andb_false_iff. left. apply Z.leb_gt. assumption.
  - unfold listing_uniqueNews.
    replace (dedupByLink (List.concat [[story_first]; [story_recent]]))
      with [story_first; story_recent] by (vm_compute; reflexivity).
    cbn [Array_sort fold_right sort_insert]. unfold byDateDesc. rewrite H1, H2.
    destruct (t2 - t1 <=? 0)%Z eqn:C; [apply Z.leb_le in C; lia | reflexivity].
Qed.

Lemma analysis_route_not_sorted_witness :
  uniqueNewsOf [[story_first]; [story_recent]] [] = [story_first; story_recent] /\
  non_increasingb sample_getTime (uniqueNewsOf [[story_first]; [story_recent]] [])
    = false /\
  listing_uniqueNews sample_getTime [[story_first]; [story_recent]]
    = [story_recent; story_first].
Proof.
  apply (@analysis_route_not_sorted sample_getTime 1736121600000 1736205300000);
    [vm_compute; reflexivity | vm_compute; reflexivity | lia].
Defined.

(** ** The content fetcher *)

(** Whatever the network does, the [catch] turns it into null. *)
Lemma crawlNaverNews_never_throws (env : Env) (url : jsstring) :
  never_throws (crawlNaverNews env url).
Proof.
  intros w. unfold crawlNaverNews, try_catch, bind, fetch, read_body, ret, throw.
  destruct (includes (js "news.naver.com") url); simpl; [|eauto].
  destruct (net_article env (List.length (calls w)) url) as [|[|] st [doc|]];
    simpl; eauto.
Qed.

(** C5 (amended). The content fetcher never ends in an exception. For a
    URL outside the article host it returns null at once, without a call.
    Otherwise one call is made, and it returns null on a transport error,
    on a response that is not a success, and when the body cannot be read.
    When the page is read, the result is not null, whatever the page holds:
    its text is the trimmed, bounded text of the first selector that finds
    any, which is the empty text when none does. *)
Theorem crawlNaverNews_outcomes (env : Env) (url : jsstring) (w : World) :
  (exists r w', crawlNaverNews env url w = (inr r, w')) /\
  (includes (js "news.naver.com") url = false ->
   crawlNaverNews env url w = (inr None, w)) /\
  (includes (js "news.naver.com") url = true ->
   match net_article env (List.length (calls w)) url with
   | Rejected
   | Responded false _ _
   | Responded true _ None =>
       crawlNaverNews env url w = (inr None, logged (FetchArticle url) w)
   | Responded true _ (Some doc) =>
       exists r,
         crawlNaverNews env url w = (inr (Some r), logged (FetchArticle url) w) /\
         CrawlResult.content r = substring0 3000 (trim (body_text doc)) /\
         (trim (body_text doc) = [] -> CrawlResult.content r = [])
   end).
Proof.
  split; [apply crawlNaverNews_never_throws|].
  unfold crawlNaverNews, try_catch, bind, fetch, read_body, ret, throw.
  destruct (includes (js "news.naver.com") url); simpl.
  - destruct (net_article env (List.length (calls w)) url) as [|[|] st [doc|]];
      simpl; (split; [discriminate|]); intros _; try reflexivity.
    eexists. split; [reflexivity|]. split; [reflexivity|].
    simpl. unfold body_text. intros ->. reflexivity.
  - split; [reflexivity | discriminate].
Qed.

(** C5, as the specification states it, fails in one case: a page that is
    read and holds no article body does not give null but a result with
    empty text. *)
Lemma crawlNaverNews_blank_page_not_null :
  let env := sample_env (Some (js "sk-live")) 250 [] blank_page None in
  let url := js "https://n.news.naver.com/mnews/article/001/0000001" in
  trim (body_text blank_page) = [] /\
  crawlNaverNews env url fresh_world
    = (inr (Some (CrawlResult.mk [] [] [])), logged (FetchArticle url) fresh_world) /\
  fst (crawlNaverNews env url fresh_world) <> inr None.
Proof.
  split; [reflexivity|]. split; [vm_compute; reflexivity|].
  vm_compute. discriminate.
Qed.

(** ** Computations *)

Lemma mapM_app (A B : Type) (f : A -> M B) (l1 l2 : list A) (w : World) :
  mapM f (l1 ++ l2) w =
  match mapM f l1 w with
  | (inr bs1, w1) =>
      match mapM f l2 w1 with
      | (inr bs2, w2) => (inr (bs1 ++ bs2), w2)
      | (inl e, w2) => (inl e, w2)
      end
  | (inl e, w1) => (inl e, w1)
  end.
Proof.
  revert w. induction l1 as [|a l1 IH]; intros w; simpl.
  - unfold ret. destruct (mapM f l2 w) as [[e|bs] w2]; reflexivity.
  - unfold bind, ret. destruct (f a w) as [[e|b] w1]; [reflexivity|].
    rewrite IH. destruct (mapM f l1 w1) as [[e|bs1] w2]; [reflexivity|].
    destruct (mapM f l2 w2) as [[e|bs2] w3]; reflexivity.
Qed.

(** When no member can be rejected, [Promise.all] is the loop that runs
    the members in order. *)
Lemma Promise_all_mapM (A B : Type) (f : A -> M B) (l : list A) (w : World) :
  (forall a, never_throws (f a)) ->
  Promise_all (map f l) w = mapM f l w.
Proof.
  intros Hok. revert w. induction l as [|a l IH]; intros w; simpl; [reflexivity|].
  unfold bind, ret. destruct (Hok a w) as [b [w1 Hb]]. rewrite Hb, IH.
  destruct (mapM f l w1) as [[e|bs] w2]; reflexivity.
Qed.

Lemma mapM_never_throws (A B : Type) (f : A -> M B) (l : list A) :
  (forall a, never_throws (f a)) -> never_throws (mapM f l).
Proof.
  intros Hok. induction l as [|a l IH]; intros w; simpl.
  - unfold ret. eauto.
  - unfold bind, ret. destruct (Hok a w) as [b [w1 Hb]]. rewrite Hb.
    destruct (IH w1) as [bs [w2 Hbs]]. rewrite Hbs. eauto.
Qed.

(** The loop over a list relates its input and its output item by item. *)
Lemma mapM_Forall2 (A B : Type) (f : A -> M B) (R : A -> B -> Prop)
  (l : list A) (w : World) (bs : list B) (w' : World) :
  (forall a w1 b w2, f a w1 = (inr b, w2) -> R a b) ->
  mapM f l w = (inr bs, w') -> Forall2 R l bs.
Proof.
  intros HR. revert w bs. induction l as [|a l IH]; intros w bs; simpl.
  - unfold ret. intros H. inversion H. constructor.
  - unfold bind, ret. destruct (f a w) as [[e|b] w1] eqn:Hb; [discriminate|].
    destruct (mapM f l w1) as [[e|bs1] w2] eqn:Hbs; [discriminate|].
    intros H. inversion H; subst. constructor; eauto.
Qed.

(** ** Batched enrichment *)

Lemma crawl_item_run (env : Env) (news : NaverNewsItem.t) (w : World) :
  exists crawled w',
    crawlNaverNews env (NaverNewsItem.link news) w = (inr crawled, w') /\
    crawl_item env news w = (inr (crawledItem news crawled), w').
Proof.
  destruct (crawlNaverNews_never_throws env (NaverNewsItem.link news) w)
    as [crawled [w' H]].
  exists crawled, w'. split; [exact H|].
  unfold crawl_item, bind, ret. rewrite H. reflexivity.
Qed.

Lemma crawl_item_never_throws (env : Env) (news : NaverNewsItem.t) :
  never_throws (crawl_item env news).
Proof.
  intros w. destruct (crawl_item_run env news w) as [crawled [w' [_ H]]]. eauto.
Qed.

Lemma skipn_slice (A : Type) (i : nat) (l : list A) :
  skipn i l = slice i (i + batchSize) l ++ skipn (i + batchSize) l.
Proof.
  unfold slice. replace (i + batchSize - i) with batchSize by lia.
  rewrite (Nat.add_comm i), <- skipn_skipn, firstn_skipn. reflexivity.
Qed.

(** From position [i] on, the batched loop gives what a loop over the
    remaining items, one by one, gives. *)
Lemma crawlLoop_mapM (env : Env) (uniqueNews : list NaverNewsItem.t) (i : nat)
  (crawledNews : list CrawledNewsItem.t) (w : World) :
  crawlLoop env uniqueNews i crawledNews w =
  match mapM (crawl_item env) (skipn i uniqueNews) w with
  | (inr results, w') => (inr (crawledNews ++ results), w')
  | (inl e, w') => (inl e, w')
  end.
Proof.
  apply (crawlLoop_elim env
    (fun uniqueNews i crawledNews w res =>
       res = match mapM (crawl_item env) (skipn i uniqueNews) w with
             | (inr results, w') => (inr (crawledNews ++ results), w')
             | (inl e, w') => (inl e, w')
             end)); clear.
  - intros uniqueNews i Hge crawledNews w _.
    rewrite skipn_all2 by lia. simpl. unfold ret. rewrite app_nil_r. reflexivity.
  - intros uniqueNews i Hlt crawledNews w e w' Hbatch _.
    rewrite Promise_all_mapM in Hbatch by apply crawl_item_never_throws.
    rewrite skipn_slice, mapM_app, Hbatch. reflexivity.
  - intros uniqueNews i Hlt crawledNews w results w' IH Hbatch _.
    rewrite Promise_all_mapM in Hbatch by apply crawl_item_never_throws.
    rewrite IH. rewrite (skipn_slice i), mapM_app, Hbatch.
    destruct (mapM (crawl_item env) (skipn (i + batchSize) uniqueNews) w')
      as [[e|rest] w2]; [reflexivity|].
    rewrite app_assoc. reflexivity.
Qed.

(** The batched loop ends in a value, the one the loop over the items
    gives. *)
Lemma crawlAll_returns (env : Env) (uniqueNews : list NaverNewsItem.t) (w : World) :
  exists out w',
    crawlAll env uniqueNews w = (inr out, w') /\
    mapM (crawl_item env) uniqueNews w = (inr out, w').
Proof.
  destruct (mapM_never_throws (crawl_item env) uniqueNews
              (crawl_item_never_throws env) w) as [out [w' Hrun]].
  exists out, w'. split; [|exact Hrun].
  unfold crawlAll. rewrite crawlLoop_mapM. simpl. rewrite Hrun. reflexivity.
Qed.

(** C4. For every list of deduplicated items the batched enrichment, with
    batches of five, ends in a value: exactly one enriched article per
    item, in the order of the items, and what a loop over the items one by
    one gives. Each article is built from its item and from what the fetch
    of that item returned; its flag says whether that fetch returned a
    result, not null, with a text that is not empty. No item is dropped,
    whatever the fetches do. *)
Theorem crawlAll_complete (env : Env) (uniqueNews : list NaverNewsItem.t)
  (w : World) :
  batchSize = 5 /\
  exists out w',
    crawlAll env uniqueNews w = (inr out, w') /\
    mapM (crawl_item env) uniqueNews w = (inr out, w') /\
    List.length out = List.length uniqueNews /\
    map CrawledNewsItem.url out = map NaverNewsItem.link uniqueNews /\
    Forall2
      (fun news article =>
         exists crawled w1 w2,
           crawlNaverNews env (NaverNewsItem.link news) w1 = (inr crawled, w2) /\
           article = crawledItem news crawled /\
           CrawledNewsItem.isCrawled article =
             match crawled with
             | Some r => truthy (CrawlResult.content r)
             | None => false
             end)
      uniqueNews out.
Proof.
  split; [reflexivity|].
  destruct (crawlAll_returns env uniqueNews w) as [out [w' [Hall Hrun]]].
  assert (HF : Forall2
      (fun news article =>
         exists crawled w1 w2,
           crawlNaverNews env (NaverNewsItem.link news) w1 = (inr crawled, w2) /\
           article = crawledItem news crawled /\
           CrawledNewsItem.isCrawled article =
             match crawled with
             | Some r => truthy (CrawlResult.content r)
             | None => false
             end)
      uniqueNews out).
  { eapply mapM_Forall2; [|exact Hrun].
    intros news w1 article w2 Hitem.
    destruct (crawl_item_run env news w1) as [crawled [w2' [Hc Hi]]].
    rewrite Hi in Hitem. inversion Hitem; subst.
    exists crawled, w1, w2. split; [exact Hc|]. split; [reflexivity|].
    destruct crawled; reflexivity. }
  exists out, w'. split; [exact Hall|split; [exact Hrun|split; [|split; [|exact HF]]]].
  - symmetry. eapply Forall2_length. exact HF.
  - clear Hrun Hall. induction HF as [|news article l l' [c [w1 [w2 [_ [-> _]]]]] _ IH];
      simpl; [reflexivity|]. f_equal. exact IH.
Qed.

(** ** The report synthesizer *)

(** What a run of the synthesizer comes to: one call, then the rejection of
    the client, the [SyntaxError] of the parser, or the report. *)
Lemma analyzeWithOpenAI_run (env : Env) (news : list CrawledNewsItem.t)
  (rate : ExchangeRateInfo.t) (w : World) :
  let prompt := buildPrompt (newsForAnalysis news) rate in
  let w1 := logged (OpenAIChat prompt) w in
  analyzeWithOpenAI env news rate w =
  match net_openai env (List.length (calls w)) prompt with
  | ClientRejected => (inl APIError, w1)
  | Completed content =>
      match JSON_parse (opt_or content (js "{}")) with
      | None => (inl SyntaxError, w1)
      | Some result =>
          (inr (obj_set (js "newsCount")
                  (number_of_nat (List.length (crawledOnly news)))
               (obj_set (js "generatedAt") (JStr (iso (clock env (ticks w1))))
               (obj_set (js "sources") (JArr (map sourceOf (newsForAnalysis news)))
               (spread result)))), tick w1)
      end
  end.
Proof.
  cbv zeta. unfold analyzeWithOpenAI, bind, chat_create.
  destruct (net_openai env _ _) as [|content]; [reflexivity|].
  destruct (JSON_parse _); reflexivity.
Qed.

Lemma newsForAnalysis_enriched (news : list CrawledNewsItem.t)
  (n : CrawledNewsItem.t) :
  In n (newsForAnalysis news) ->
  In n news /\ CrawledNewsItem.isCrawled n = true /\ CrawledNewsItem.content n <> [].
Proof.
  unfold newsForAnalysis, slice, crawledOnly. rewrite skipn_O.
  intros Hin. apply In_firstn in Hin. apply filter_In in Hin.
  destruct Hin as [Hin Hf]. apply andb_true_iff in Hf. destruct Hf as [Hc Ht].
  split; [assumption|]. split; [assumption|]. apply truthy_nonempty. assumption.
Qed.

Lemma newsForAnalysis_bounded (news : list CrawledNewsItem.t) :
  List.length (newsForAnalysis news) <= MAX_NEWS_FOR_ANALYSIS.
Proof. unfold newsForAnalysis, slice. apply firstn_le_length. Qed.

Lemma join_holds_part (sep : jsstring) (parts : list jsstring) (i : nat)
  (part : jsstring) :
  nth_error parts i = Some part ->
  exists before after, join sep parts = before ++ part ++ after.
Proof.
  revert i. induction parts as [|p rest IH]; intros [|i] Hnth;
    try discriminate.
  - injection Hnth as ->. exists []. destruct rest as [|q rest].
    + exists []. simpl. rewrite app_nil_r. reflexivity.
    + exists (sep ++ join sep (q :: rest)). reflexivity.
  - simpl in Hnth. destruct (IH i Hnth) as [before [after Hjoin]].
    destruct rest as [|q rest]; [destruct i; discriminate|].
    exists (p ++ sep ++ before), after.
    change (join sep (p :: q :: rest)) with (p ++ sep ++ join sep (q :: rest)).
    rewrite Hjoin, <- !app_assoc. reflexivity.
Qed.

Lemma indexed_nth (A : Type) (l : list A) (k i : nat) (a : A) :
  nth_error l i = Some a -> nth_error (indexed k l) i = Some (k + i, a).
Proof.
  revert k i. induction l as [|x l IH]; intros k [|i] Hnth; try discriminate.
  - injection Hnth as ->. simpl. rewrite Nat.add_0_r. reflexivity.
  - simpl in *. rewrite (IH (S k) i Hnth). f_equal. f_equal. lia.
Qed.

(** Each article handed to [newsText] is printed in the text under its
    number: the label, the title, a line feed, and the head of the
    content. *)
Lemma newsText_holds_article (articles : list CrawledNewsItem.t) (i : nat)
  (a : CrawledNewsItem.t) :
  nth_error articles i = Some a ->
  exists before after,
    newsText articles
      = before ++ [91; 45684; 49828; 32]%N ++ string_of_nat (i + 1) ++ js "] "
          ++ CrawledNewsItem.title a ++ [10%N]
          ++ firstn 1000 (CrawledNewsItem.content a) ++ after.
Proof.
  intros Hnth. unfold newsText.
  destruct (@join_holds_part [10; 10]%N
              (map newsLine (indexed 0 articles)) i (newsLine (i, a)))
    as [before [after Hjoin]].
  { rewrite nth_error_map, (indexed_nth articles 0 i Hnth). reflexivity. }
  exists before, after. rewrite Hjoin. unfold newsLine, substring0. cbn [fst snd].
  unfold MAX_CONTENT_LENGTH. rewrite <- !app_assoc. reflexivity.
Qed.

(** C1. Whenever the synthesizer returns a report, for whatever list of
    crawled items and whatever the model answered, the [sources] of the
    report are, entry by entry and in order, the title, source name, URL
    and thumbnail of the submitted articles: the first 50 of the crawled
    items that are flagged and have a text. The same holds once the
    pipeline has attached the snapshot. The one call made carries the
    prompt built from exactly those articles: it announces their number,
    and its text holds each of them, under its number, with its title and
    the first 1000 code units of its content. Each submitted article is
    among the crawled items, was enriched, and has a text that is not
    empty. *)
Theorem sources_are_the_submitted_articles (env : Env)
  (news : list CrawledNewsItem.t) (rate : ExchangeRateInfo.t) (w : World)
  (report : obj) (w' : World) :
  analyzeWithOpenAI env news rate w = (inr report, w') ->
  let submitted :=
    firstn 50 (filter (fun n => CrawledNewsItem.isCrawled n
                                && truthy (CrawledNewsItem.content n)) news) in
  let entry := fun n =>
    JObj [(js "title", JStr (CrawledNewsItem.title n));
          (js "source", JStr (CrawledNewsItem.source n));
          (js "url", JStr (CrawledNewsItem.url n));
          (js "thumbnail", JStr (CrawledNewsItem.thumbnail n))] in
  obj_get (js "sources") report = Some (JArr (map entry submitted)) /\
  obj_get (js "sources") (obj_set (js "currentRate") (rate_json rate) report)
    = Some (JArr (map entry submitted)) /\
  calls w' = calls w ++ [OpenAIChat (buildPrompt submitted rate)] /\
  Prompt.count (buildPrompt submitted rate) = List.length submitted /\
  (forall i a, nth_error submitted i = Some a ->
     exists before after,
       Prompt.newsText (buildPrompt submitted rate)
         = before ++ [91; 45684; 49828; 32]%N ++ string_of_nat (i + 1) ++ js "] "
             ++ CrawledNewsItem.title a ++ [10%N]
             ++ firstn 1000 (CrawledNewsItem.content a) ++ after) /\
  (forall a, In a submitted ->
     In a news /\ CrawledNewsItem.isCrawled a = true
     /\ CrawledNewsItem.content a <> []).
Proof.
  intros Hrun submitted entry.
  assert (Hsub : newsForAnalysis news = submitted).
  { unfold newsForAnalysis, slice, crawledOnly. rewrite skipn_O. reflexivity. }
  assert (Hentry : map sourceOf (newsForAnalysis news) = map entry submitted).
  { rewrite Hsub. reflexivity. }
  rewrite analyzeWithOpenAI_run in Hrun. cbv zeta in Hrun.
  rewrite Hentry, Hsub in Hrun.
  destruct (net_openai env _ _) as [|content]; [discriminate|].
  destruct (JSON_parse _) as [result|]; [|discriminate].
  inversion Hrun; subst report w'; clear Hrun.
  assert (Hsources :
    forall o, obj_get (js "sources")
                (obj_set (js "newsCount")
                   (number_of_nat (List.length (crawledOnly news)))
                (obj_set (js "generatedAt") o
                (obj_set (js "sources") (JArr (map entry submitted))
                (spread result))))
              = Some (JArr (map entry submitted))).
  { intros o. unfold obj_get, obj_set.
    rewrite Map_get_set_other by reflexivity.
    rewrite Map_get_set_other by reflexivity.
    apply Map_get_set_same. }
  split; [apply Hsources|]. split.
  { unfold obj_get, obj_set at 1.
    rewrite Map_get_set_other by reflexivity. apply Hsources. }
  split; [reflexivity|]. split; [reflexivity|]. split.
  { intros i a Hnth. exact (newsText_holds_article submitted i Hnth). }
  intros a Ha. rewrite <- Hsub in Ha. apply newsForAnalysis_enriched. exact Ha.
Qed.

Lemma sources_are_the_submitted_articles_witness :
  let env := sample_env (Some (js "sk-live")) 250 [] full_page
               (Some answer_out_of_range) in
  exists report w',
    analyzeWithOpenAI env sample_news sample_rate fresh_world = (inr report, w') /\
    obj_get (js "sources") report
      = Some (JArr
          [JObj [(js "title", JStr (js "Won slides against the dollar"));
                 (js "source", JStr (js "Yonhap"));
                 (js "url",
                  JStr (js "https://n.news.naver.com/mnews/article/001/0000001"));
                 (js "thumbnail", JStr (js "https://img.example/1.jpg"))];
           JObj [(js "title", JStr (js "Bank of Korea holds its rate"));
                 (js "source", JStr (js "Hankyung"));
                 (js "url",
                  JStr (js "https://n.news.naver.com/mnews/article/015/0000002"));
                 (js "thumbnail", JStr [])]]).
Proof.
  cbv zeta. eexists. eexists.
  refine ((fun H => conj H
             (proj1 (sources_are_the_submitted_articles _ _ _ _ H))) _).
  lazy. reflexivity.
Defined.

(** C6 (amended). When the generation capability answers with a text that
    is not empty and that [JSON.parse] rejects, the synthesizer ends in the
    [SyntaxError] of the parser right after the call: no report is
    returned. An answer that is null or the empty text is read as the
    empty object instead, and a report comes back that holds only what the
    synthesizer itself attaches. *)
Theorem unparseable_output_fails (env : Env) (news : list CrawledNewsItem.t)
  (rate : ExchangeRateInfo.t) (w : World) (content : option jsstring) :
  net_openai env (List.length (calls w)) (buildPrompt (newsForAnalysis news) rate)
    = Completed content ->
  let w1 := logged (OpenAIChat (buildPrompt (newsForAnalysis news) rate)) w in
  (forall text, content = Some text -> text <> [] -> JSON_parse text = None ->
     analyzeWithOpenAI env news rate w = (inl SyntaxError, w1)) /\
  (content = None \/ content = Some [] ->
     analyzeWithOpenAI env news rate w =
       (inr [(js "sources", JArr (map sourceOf (newsForAnalysis news)));
             (js "generatedAt", JStr (iso (clock env (ticks w1))));
             (js "newsCount", number_of_nat (List.length (crawledOnly news)))],
        tick w1)).
Proof.
  intros Hanswer. cbv zeta. rewrite analyzeWithOpenAI_run. cbv zeta.
  rewrite Hanswer. split.
  - intros text -> Hne Hparse. destruct text as [|c text]; [congruence|].
    simpl opt_or. unfold str_or. simpl truthy. cbv iota.
    rewrite Hparse. reflexivity.
  - intros [-> | ->]; reflexivity.
Qed.

Lemma unparseable_output_fails_witness :
  let env := sample_env (Some (js "sk-live")) 250 [] full_page (Some answer_prose) in
  JSON_parse answer_prose = None /\
  analyzeWithOpenAI env sample_news sample_rate fresh_world
    = (inl SyntaxError,
       logged (OpenAIChat (buildPrompt (newsForAnalysis sample_news) sample_rate))
              fresh_world).
Proof.
  cbv zeta. split; [vm_compute; reflexivity|].
  apply (proj1 (@unparseable_output_fails
                  (sample_env (Some (js "sk-live")) 250 [] full_page (Some answer_prose))
                  sample_news sample_rate fresh_world (Some answer_prose) eq_refl)
               answer_prose eq_refl).
  - discriminate.
  - vm_compute. reflexivity.
Defined.

(** C6, as the specification states it, fails: the empty text is not JSON,
    and yet a report comes back, with nothing in it from the model. *)
Lemma empty_output_gives_defaulted_report :
  let env := sample_env (Some (js "sk-live")) 250 [] full_page (Some []) in
  JSON_parse [] = None /\
  returned (analyzeWithOpenAI env sample_news sample_rate fresh_world)
    = Some [(js "sources", JArr [sourceOf article_won; sourceOf article_bok]);
            (js "generatedAt", JStr (js "2025-01-07T00:00:00.000Z"));
            (js "newsCount", JNum 2)] /\
  returned (analyzeWithOpenAI env sample_news sample_rate fresh_world) <> None.
Proof.
  cbv zeta. split; [vm_compute; reflexivity|].
  split; [vm_compute; reflexivity|]. vm_compute. discriminate.
Qed.

(** The same at the level of the request: the answer that is not JSON
    makes the request fail, and nothing is put in the cache. *)
Example prose_answer_fails_the_request :
  let env := sample_env (Some (js "sk-live")) 250 [] full_page (Some answer_prose) in
  fst (GET env None fresh_world) = inr (Failure SyntaxError) /\
  store (snd (GET env None fresh_world)) = [].
Proof. cbv zeta. split; vm_compute; reflexivity. Qed.

Lemma sentiment_untouched (report : obj) (k : jsstring) (v : json) :
  str_eqb k (js "sentiment") = false ->
  obj_get (js "sentiment") (obj_set k v report) = obj_get (js "sentiment") report.
Proof. intros H. apply Map_get_set_other. exact H. Qed.

(** C7 (amended). Whenever the synthesizer returns a report, the
    [sentiment] of the report is the [sentiment] of the parsed answer of
    the generation capability, unchanged: the score and the breakdown are
    both passed through as provided, and no bound is put on the score.
    Attaching the market snapshot leaves it as it is. *)
Theorem sentiment_passed_through (env : Env) (news : list CrawledNewsItem.t)
  (rate : ExchangeRateInfo.t) (w : World) (report : obj) (w' : World) :
  analyzeWithOpenAI env news rate w = (inr report, w') ->
  exists content result,
    net_openai env (List.length (calls w)) (buildPrompt (newsForAnalysis news) rate)
      = Completed content /\
    JSON_parse (opt_or content (js "{}")) = Some result /\
    obj_get (js "sentiment") report = obj_get (js "sentiment") (spread result) /\
    sentiment_score report = sentiment_score (spread result) /\
    sentiment_breakdown report = sentiment_breakdown (spread result) /\
    sentiment_score (obj_set (js "currentRate") (rate_json rate) report)
      = sentiment_score (spread result).
Proof.
  rewrite analyzeWithOpenAI_run. cbv zeta.
  destruct (net_openai env _ _) as [|content]; [discriminate|].
  destruct (JSON_parse _) as [result|] eqn:Hparse; [|discriminate].
  intros H. inversion H; subst; clear H.
  exists content, result. split; [reflexivity|]. split; [exact Hparse|].
  match goal with |- obj_get _ ?r = _ /\ _ => set (made := r) end.
  assert (Hs : obj_get (js "sentiment") made
               = obj_get (js "sentiment") (spread result)).
  { unfold made. rewrite !sentiment_untouched by reflexivity. reflexivity. }
  clearbody made. split; [exact Hs|].
  unfold sentiment_score, sentiment_breakdown.
  rewrite sentiment_untouched by reflexivity. rewrite Hs.
  split; [reflexivity|]. split; reflexivity.
Qed.

Lemma sentiment_passed_through_witness :
  let env := sample_env (Some (js "sk-live")) 250 [] full_page
               (Some answer_out_of_range) in
  exists report w',
    analyzeWithOpenAI env sample_news sample_rate fresh_world = (inr report, w') /\
    exists content result,
      net_openai env 0 (buildPrompt (newsForAnalysis sample_news) sample_rate)
        = Completed content /\
      JSON_parse (opt_or content (js "{}")) = Some result /\
      obj_get (js "sentiment") report = obj_get (js "sentiment") (spread result) /\
      sentiment_score report = sentiment_score (spread result) /\
      sentiment_breakdown report = sentiment_breakdown (spread result) /\
      sentiment_score (obj_set (js "currentRate") (rate_json sample_rate) report)
        = sentiment_score (spread result).
Proof.
  cbv zeta. eexists. eexists.
  refine ((fun H => conj H (sentiment_passed_through _ _ _ _ H)) _).
  lazy. reflexivity.
Defined.

(** C7, as the specification states it, fails: a score of 5 in the answer
    is a score of 5 in the report, outside the unit interval. *)
Lemma score_not_clamped :
  let env := sample_env (Some (js "sk-live")) 250 [] full_page
               (Some answer_out_of_range) in
  option_map sentiment_score
    (returned (analyzeWithOpenAI env sample_news sample_rate fresh_world))
    = Some (Some (JNum 5)) /\
  within_unit (JNum 5) = false /\
  option_map sentiment_breakdown
    (returned (analyzeWithOpenAI env sample_news sample_rate fresh_world))
    = Some (Some (JObj [(js "positive", JNum 10); (js "negative", JNum 70);
                        (js "neutral", JNum 20)])).
Proof.
  cbv zeta. split; [vm_compute; reflexivity|].
  split; vm_compute; reflexivity.
Qed.

(** ** What a computation does to the world *)

Section Effects.

Variable P : NetCall -> Prop.

Lemma extends_refl (w : World) : extends P w w.
Proof.
  split; [reflexivity|]. split; [lia|].
  exists []. rewrite app_nil_r. split; [reflexivity | constructor].
Qed.

Lemma extends_trans (w1 w2 w3 : World) :
  extends P w1 w2 -> extends P w2 w3 -> extends P w1 w3.
Proof.
  intros [Hs1 [Ht1 [l1 [Hc1 Hp1]]]] [Hs2 [Ht2 [l2 [Hc2 Hp2]]]].
  split; [congruence|]. split; [lia|].
  exists (l1 ++ l2). split.
  - rewrite Hc2, Hc1, app_assoc. reflexivity.
  - apply Forall_app. split; assumption.
Qed.

Lemma extends_tick (w : World) : extends P w (tick w).
Proof.
  split; [reflexivity|]. split; [simpl; lia|].
  exists []. simpl. rewrite app_nil_r. split; [reflexivity | constructor].
Qed.

Lemma extends_logged (c : NetCall) (w : World) : P c -> extends P w (logged c w).
Proof.
  intros Hc. split; [reflexivity|]. split; [simpl; lia|].
  exists [c]. split; [reflexivity | constructor; [assumption | constructor]].
Qed.

Lemma runs_ret (A : Type) (a : A) : runs P (ret a).
Proof. intros w. apply extends_refl. Qed.

Lemma runs_throw (A : Type) (e : exn) : runs P (@throw A e).
Proof. intros w. apply extends_refl. Qed.

Lemma runs_bind (A B : Type) (c : M A) (k : A -> M B) :
  runs P c -> (forall a, runs P (k a)) -> runs P (bind c k).
Proof.
  intros Hc Hk w. unfold bind. specialize (Hc w).
  destruct (c w) as [[e|a] w1]; simpl in *; [assumption|].
  eapply extends_trans; [exact Hc | apply Hk].
Qed.

Lemma runs_try_catch (A : Type) (c : M A) (h : exn -> M A) :
  runs P c -> (forall e, runs P (h e)) -> runs P (try_catch c h).
Proof.
  intros Hc Hh w. unfold try_catch. specialize (Hc w).
  destruct (c w) as [[e|a] w1]; simpl in *; [|assumption].
  eapply extends_trans; [exact Hc | apply Hh].
Qed.

Lemma runs_Promise_all (A : Type) (ps : list (M A)) :
  Forall (fun p => runs P p) ps -> runs P (Promise_all ps).
Proof.
  induction 1 as [|p ps Hp Hps IH]; intros w; simpl; [apply extends_refl|].
  specialize (Hp w). destruct (p w) as [r w1]. specialize (IH w1).
  destruct (Promise_all ps w1) as [rs w2]. simpl in *.
  eapply extends_trans; eassumption.
Qed.

Lemma runs_Promise_all2 (A B : Type) (p : M A) (q : M B) :
  runs P p -> runs P q -> runs P (Promise_all2 p q).
Proof.
  intros Hp Hq w. unfold Promise_all2. specialize (Hp w).
  destruct (p w) as [r w1]. specialize (Hq w1).
  destruct (q w1) as [s w2]. simpl in *.
  eapply extends_trans; eassumption.
Qed.

Lemma runs_mapM (A B : Type) (f : A -> M B) (l : list A) :
  (forall a, runs P (f a)) -> runs P (mapM f l).
Proof.
  intros Hf. induction l as [|a l IH]; simpl; [apply runs_ret|].
  apply runs_bind; [apply Hf|]. intros b.
  apply runs_bind; [exact IH|]. intros bs. apply runs_ret.
Qed.

Lemma runs_Date_now (env : Env) : runs P (Date_now env).
Proof. intros w. apply extends_tick. Qed.

Lemma runs_Date_toISOString (env : Env) : runs P (Date_toISOString env).
Proof. intros w. apply extends_tick. Qed.

Lemma runs_fetch (Body : Type) (c : NetCall) (oracle : nat -> Fetched Body) :
  P c -> runs P (fetch c oracle).
Proof.
  intros Hc w. unfold fetch.
  destruct (oracle _); simpl; apply extends_logged; assumption.
Qed.

Lemma runs_read_body (Body : Type) (r : HttpResponse Body) : runs P (read_body r).
Proof. unfold read_body. destruct (body r); [apply runs_ret | apply runs_throw]. Qed.

(** The fetches of the pipeline, all but the call to the generation
    capability, satisfy [P]. *)
Hypothesis fetches : forall c, is_chat c = false -> P c.

Lemma runs_fetchCurrentExchangeRates (env : Env) :
  runs P (fetchCurrentExchangeRates env).
Proof.
  unfold fetchCurrentExchangeRates.
  apply runs_try_catch; [|intros e; apply runs_ret].
  apply runs_bind; [apply runs_fetch, fetches; reflexivity|]. intros r.
  destruct (negb (ok r)); [apply runs_throw|].
  apply runs_bind; [apply runs_read_body|]. intros rows.
  destruct (fold_left rates_step rows ([], [])). apply runs_ret.
Qed.

Lemma runs_crawlNaverNews (env : Env) (url : jsstring) :
  runs P (crawlNaverNews env url).
Proof.
  unfold crawlNaverNews.
  destruct (negb (includes (js "news.naver.com") url)); [apply runs_ret|].
  apply runs_try_catch; [|intros e; apply runs_ret].
  apply runs_bind; [apply runs_fetch, fetches; reflexivity|]. intros r.
  destruct (negb (ok r)); [apply runs_ret|].
  apply runs_bind; [apply runs_read_body|]. intros doc. apply runs_ret.
Qed.

Lemma runs_fetchNews (env : Env) (query : jsstring) : runs P (fetchNews env query).
Proof.
  unfold fetchNews.
  destruct (_ || _); [apply runs_throw|].
  apply runs_bind; [apply runs_fetch, fetches; reflexivity|]. intros r.
  destruct (negb (ok r)); [apply runs_throw | apply runs_read_body].
Qed.

Lemma runs_financeItem (env : Env) (dl : FinanceDl.t) : runs P (financeItem env dl).
Proof.
  unfold financeItem. destruct (_ || _); [apply runs_ret|].
  apply runs_bind; [apply runs_Date_toISOString|]. intros now. apply runs_ret.
Qed.

Lemma runs_fetchNaverFinanceNews (env : Env) : runs P (fetchNaverFinanceNews env).
Proof.
  unfold fetchNaverFinanceNews.
  destruct (negb ENABLE_FINANCE_NEWS_CRAWLING); [apply runs_ret|].
  apply runs_try_catch; [|intros e; apply runs_ret].
  apply runs_bind; [apply runs_fetch, fetches; reflexivity|]. intros r.
  destruct (negb (ok r)); [apply runs_ret|].
  apply runs_bind; [apply runs_read_body|]. intros dls.
  apply runs_bind; [apply runs_mapM, runs_financeItem|]. intros pushed.
  apply runs_ret.
Qed.

Lemma runs_crawl_item (env : Env) (news : NaverNewsItem.t) :
  runs P (crawl_item env news).
Proof.
  unfold crawl_item. apply runs_bind; [apply runs_crawlNaverNews|].
  intros c. apply runs_ret.
Qed.

Lemma runs_crawlAll (env : Env) (uniqueNews : list NaverNewsItem.t) :
  runs P (crawlAll env uniqueNews).
Proof.
  intros w. unfold crawlAll. rewrite crawlLoop_mapM. simpl skipn.
  pose proof (runs_mapM (crawl_item env) uniqueNews (runs_crawl_item env) w) as H.
  destruct (mapM (crawl_item env) uniqueNews w) as [[e|out] w']; exact H.
Qed.

(** Everything the pipeline does before the test of the generation key. *)
Lemma runs_search_phase (env : Env) :
  runs P (Promise_all2 (Promise_all (map (fetchNews env) SEARCH_KEYWORDS))
                       (fetchNaverFinanceNews env)).
Proof.
  apply runs_Promise_all2; [|apply runs_fetchNaverFinanceNews].
  apply runs_Promise_all. apply Forall_forall. intros p Hp.
  apply in_map_iff in Hp. destruct Hp as [q [<- _]]. apply runs_fetchNews.
Qed.

End Effects.

(** ** The pipeline and the generation key *)

Lemma fetchCurrentExchangeRates_logs (env : Env) (w : World) :
  exists rate,
    fetchCurrentExchangeRates env w = (inr rate, logged FetchMarketIndex w).
Proof.
  unfold fetchCurrentExchangeRates, try_catch, bind, fetch, read_body, ret, throw.
  destruct (net_marketindex env _) as [|[|] st [rows|]]; simpl; eauto.
  destruct (fold_left rates_step rows ([], [])). eauto.
Qed.

Lemma try_catch_never_throws (A : Type) (c : M A) (h : exn -> M A) :
  (forall e, never_throws (h e)) -> never_throws (try_catch c h).
Proof.
  intros Hh w. unfold try_catch. destruct (c w) as [[e|a] w1]; [apply Hh | eauto].
Qed.

Lemma fetchNaverFinanceNews_never_throws (env : Env) :
  never_throws (fetchNaverFinanceNews env).
Proof.
  unfold fetchNaverFinanceNews.
  destruct (negb ENABLE_FINANCE_NEWS_CRAWLING); [intros w; unfold ret; eauto|].
  apply try_catch_never_throws. intros e w. unfold ret. eauto.
Qed.

Lemma no_calls (A : Type) (c : M A) (w : World) :
  runs (fun _ => False) c -> calls (snd (c w)) = calls w.
Proof.
  intros H. destruct (H w) as [_ [_ [l [Hl Hf]]]].
  destruct l as [|x l]; [rewrite app_nil_r in Hl; exact Hl|].
  inversion Hf; contradiction.
Qed.

Lemma fetchNaverFinanceNews_calls (env : Env) (w : World) :
  calls (snd (fetchNaverFinanceNews env w)) = calls w ++ [FetchFinanceNews].
Proof.
  unfold fetchNaverFinanceNews. cbn [ENABLE_FINANCE_NEWS_CRAWLING negb].
  unfold try_catch, bind, fetch, read_body, ret, throw.
  destruct (net_finance env _) as [|[|] st [dls|]]; simpl; try reflexivity.
  pose proof (@no_calls _ (mapM (financeItem env) dls)
                (logged FetchFinanceNews w)
                (runs_mapM _ dls (runs_financeItem _ env))) as H.
  destruct (mapM (financeItem env) dls (logged FetchFinanceNews w))
    as [[e|pushed] w1]; simpl in *; exact H.
Qed.

Lemma fetchNews_calls (env : Env) (query : jsstring) (w : World) :
  opt_truthy (NAVER_CLIENT_ID env) = true ->
  opt_truthy (NAVER_CLIENT_SECRET env) = true ->
  calls (snd (fetchNews env query w)) = calls w ++ [FetchSearch query].
Proof.
  intros Hid Hsecret. unfold fetchNews. rewrite Hid, Hsecret. simpl.
  unfold bind, fetch, read_body, ret, throw.
  destruct (net_search env _ query) as [|[|] st [items|]]; reflexivity.
Qed.

Lemma searches_calls (env : Env) (queries : list jsstring) (w : World) :
  opt_truthy (NAVER_CLIENT_ID env) = true ->
  opt_truthy (NAVER_CLIENT_SECRET env) = true ->
  calls (snd (Promise_all (map (fetchNews env) queries) w))
    = calls w ++ map FetchSearch queries.
Proof.
  intros Hid Hsecret. revert w.
  induction queries as [|q qs IH]; intros w; simpl.
  - rewrite app_nil_r. reflexivity.
  - pose proof (fetchNews_calls env q w Hid Hsecret) as Hq.
    destruct (fetchNews env q w) as [r w1]. specialize (IH w1).
    destruct (Promise_all (map (fetchNews env) qs) w1) as [rs w2].
    simpl in *. rewrite IH, Hq, <- app_assoc. reflexivity.
Qed.

Lemma crawlNaverNews_calls (env : Env) (url : jsstring) (w : World) :
  calls (snd (crawlNaverNews env url w)) =
  calls w ++ (if includes (js "news.naver.com") url then [FetchArticle url] else []).
Proof.
  unfold crawlNaverNews, try_catch, bind, fetch, read_body, ret, throw.
  destruct (includes (js "news.naver.com") url); cbn [negb].
  - destruct (net_article env (List.length (calls w)) url) as [|[|] st [doc|]];
      reflexivity.
  - simpl. rewrite app_nil_r. reflexivity.
Qed.

Lemma crawl_items_calls (env : Env) (uniqueNews : list NaverNewsItem.t) (w : World) :
  calls (snd (mapM (crawl_item env) uniqueNews w)) =
  calls w ++ map FetchArticle
               (filter (includes (js "news.naver.com"))
                       (map NaverNewsItem.link uniqueNews)).
Proof.
  revert w. induction uniqueNews as [|news l IH]; intros w.
  - simpl. rewrite app_nil_r. reflexivity.
  - cbn [mapM map filter]. unfold bind at 1.
    pose proof (crawlNaverNews_calls env (NaverNewsItem.link news) w) as Hc.
    destruct (crawl_item_run env news w) as [crawled [w1 [Hrun Hitem]]].
    rewrite Hitem. rewrite Hrun in Hc. cbn [snd] in Hc.
    unfold bind. specialize (IH w1).
    destruct (mapM (crawl_item env) l w1) as [[e|rest] w2]; cbn [snd ret] in *;
      rewrite IH, Hc;
      destruct (includes (js "news.naver.com") (NaverNewsItem.link news));
      simpl; rewrite <- app_assoc; reflexivity.
Qed.

Lemma fetchNews_unconfigured (env : Env) (query : jsstring) (w : World) :
  opt_truthy (NAVER_CLIENT_ID env) = false \/
  opt_truthy (NAVER_CLIENT_SECRET env) = false ->
  fetchNews env query w
    = (inl (Error (js "Naver API credentials not configured")), w).
Proof.
  intros H. unfold fetchNews.
  replace (negb (opt_truthy (NAVER_CLIENT_ID env))
           || negb (opt_truthy (NAVER_CLIENT_SECRET env))) with true; [reflexivity|].
  destruct H as [-> | ->]; [reflexivity|].
  destruct (opt_truthy (NAVER_CLIENT_ID env)); reflexivity.
Qed.

(** The searches cannot all succeed unless both credentials are set. *)
Lemma searches_need_credentials (env : Env) (w : World)
  (api : list (list NaverNewsItem.t)) :
  fst (Promise_all (map (fetchNews env) SEARCH_KEYWORDS) w) = inr api ->
  opt_truthy (NAVER_CLIENT_ID env) = true /\
  opt_truthy (NAVER_CLIENT_SECRET env) = true.
Proof.
  intros Hall.
  destruct (opt_truthy (NAVER_CLIENT_ID env)) eqn:Hid;
    [destruct (opt_truthy (NAVER_CLIENT_SECRET env)) eqn:Hsecret;
       [split; reflexivity|]|];
    exfalso; revert Hall; unfold SEARCH_KEYWORDS; cbn [map];
    match goal with
    | |- context [Promise_all (fetchNews env ?q :: ?ps) w] =>
        change (Promise_all (fetchNews env q :: ps) w)
          with (let (r, w1) := fetchNews env q w in
                let (rs, w2) := Promise_all ps w1 in
                (match r, rs with
                 | inl e, _ => inl e
                 | inr _, inl e => inl e
                 | inr a, inr l => inr (a :: l)
                 end, w2));
        rewrite (@fetchNews_unconfigured env q w) by auto;
        destruct (Promise_all ps w) as [rs w2]; discriminate
    end.
Qed.

(** C9 (amended). When the key of the generation capability is absent
    (unset, empty, or the placeholder of the template), the pipeline fails
    and the generation capability is never called; but the test comes
    after the fetches, not before them. The market index has been fetched;
    with the search credentials set, the five keyword searches and the
    listing page have been fetched as well. When the search phase
    succeeded, the log is exactly: the market index, the five searches,
    the listing page, and then one article fetch for every merged result
    whose link is on the article host; only then is the key found missing.
    The error is the configuration error, unless the search phase failed
    first, whose error is then the one surfaced. *)
Theorem missing_key_fails_after_the_fetches (env : Env) (w : World) :
  key_missing env = true ->
  exists e w' l,
    performAnalysis env w = (inl e, w') /\
    calls w' = calls w ++ FetchMarketIndex :: l /\
    Forall (fun c => is_chat c = false) l /\
    e = match fst (Promise_all (map (fetchNews env) SEARCH_KEYWORDS)
                               (logged FetchMarketIndex w)) with
        | inl e' => e'
        | inr _ => Error (js "OpenAI API key not configured")
        end /\
    (opt_truthy (NAVER_CLIENT_ID env) = true ->
     opt_truthy (NAVER_CLIENT_SECRET env) = true ->
     exists l', l = map FetchSearch SEARCH_KEYWORDS ++ FetchFinanceNews :: l') /\
    (forall api fin wb,
       Promise_all2 (Promise_all (map (fetchNews env) SEARCH_KEYWORDS))
                    (fetchNaverFinanceNews env) (logged FetchMarketIndex w)
         = (inr (api, fin), wb) ->
       l = map FetchSearch SEARCH_KEYWORDS
             ++ FetchFinanceNews
             :: map FetchArticle
                  (filter (includes (js "news.naver.com"))
                     (map NaverNewsItem.link
                        (dedupByLink (List.concat api ++ fin))))).
Proof.
  intros Hkey.
  destruct (fetchCurrentExchangeRates_logs env w) as [rate Hrate].
  unfold performAnalysis, bind. rewrite Hrate.
  set (w1 := logged FetchMarketIndex w).
  pose proof (searches_calls env SEARCH_KEYWORDS w1) as Hsearched.
  pose proof (@runs_Promise_all (fun c => is_chat c = false) _
                (map (fetchNews env) SEARCH_KEYWORDS)) as Hsearch.
  unfold Promise_all2.
  destruct (Promise_all (map (fetchNews env) SEARCH_KEYWORDS) w1) as [r wa] eqn:Ha.
  assert (Hwa : extends (fun c => is_chat c = false) w1 wa).
  { change wa with (snd (r, wa)). rewrite <- Ha. apply Hsearch.
    apply Forall_forall. intros p Hp. apply in_map_iff in Hp.
    destruct Hp as [q [<- _]]. apply runs_fetchNews. auto. }
  pose proof (fetchNaverFinanceNews_calls env wa) as Hlisted.
  pose proof (@runs_fetchNaverFinanceNews (fun c => is_chat c = false)
                (fun c H => H) env wa) as Hwb.
  destruct (fetchNaverFinanceNews_never_throws env wa) as [fin [wb Hb]].
  rewrite Hb in *. cbn [fst snd] in *.
  assert (Hw1b : extends (fun c => is_chat c = false) w1 wb)
    by (eapply extends_trans; eassumption).
  destruct r as [e | api].
  - destruct Hw1b as [_ [_ [l [Hl Hf]]]].
    exists e, wb, l. split; [reflexivity|]. split.
    { rewrite Hl. unfold w1. simpl. rewrite <- app_assoc. reflexivity. }
    split; [exact Hf|]. split; [reflexivity|]. split.
    + intros Hid Hsecret. exists []. specialize (Hsearched Hid Hsecret).
      rewrite Hlisted, Hsearched, <- app_assoc in Hl.
      apply app_inv_head in Hl. symmetry. exact Hl.
    + intros api0 fin0 wb0 Hfound. discriminate Hfound.
  - assert (Hcreds : opt_truthy (NAVER_CLIENT_ID env) = true /\
                     opt_truthy (NAVER_CLIENT_SECRET env) = true).
    { apply (@searches_need_credentials env w1 api). rewrite Ha. reflexivity. }
    destruct Hcreds as [Hid Hsecret]. specialize (Hsearched Hid Hsecret).
    pose proof (crawl_items_calls env (uniqueNewsOf api fin) wb) as Hfetched.
    destruct (crawlAll_returns env (uniqueNewsOf api fin) wb)
      as [out [wc [Hc Hitems]]].
    rewrite Hitems in Hfetched. cbn [snd] in Hfetched.
    cbn [fst snd]. rewrite Hc. rewrite Hkey. unfold throw.
    destruct Hw1b as [_ [_ [l [Hl Hf]]]].
    rewrite Hlisted, Hsearched, <- app_assoc in Hl.
    apply app_inv_head in Hl. subst l.
    exists (Error (js "OpenAI API key not configured")), wc,
           (map FetchSearch SEARCH_KEYWORDS
              ++ FetchFinanceNews
              :: map FetchArticle
                   (filter (includes (js "news.naver.com"))
                      (map NaverNewsItem.link (uniqueNewsOf api fin)))).
    split; [reflexivity|]. split.
    { rewrite Hfetched, Hlisted, Hsearched. unfold w1. cbn [logged calls].
      rewrite <- !app_assoc. reflexivity. }
    split.
    { apply Forall_app. split; [apply Forall_app in Hf; apply Hf|].
      constructor; [reflexivity|]. apply Forall_forall. intros c Hin.
      apply in_map_iff in Hin. destruct Hin as [u [<- _]]. reflexivity. }
    split; [reflexivity|]. split.
    + intros _ _. eexists. reflexivity.
    + intros api0 fin0 wb0 Hfound. injection Hfound as <- <- <-. reflexivity.
Qed.

Lemma missing_key_fails_after_the_fetches_witness :
  let env := sample_env None 250 [story_first] full_page None in
  key_missing env = true /\
  exists e w' l,
    performAnalysis env fresh_world = (inl e, w') /\
    calls w' = calls fresh_world ++ FetchMarketIndex :: l /\
    Forall (fun c => is_chat c = false) l /\
    e = match fst (Promise_all (map (fetchNews env) SEARCH_KEYWORDS)
                               (logged FetchMarketIndex fresh_world)) with
        | inl e' => e'
        | inr _ => Error (js "OpenAI API key not configured")
        end /\
    (opt_truthy (NAVER_CLIENT_ID env) = true ->
     opt_truthy (NAVER_CLIENT_SECRET env) = true ->
     exists l', l = map FetchSearch SEARCH_KEYWORDS ++ FetchFinanceNews :: l') /\
    (forall api fin wb,
       Promise_all2 (Promise_all (map (fetchNews env) SEARCH_KEYWORDS))
                    (fetchNaverFinanceNews env) (logged FetchMarketIndex fresh_world)
         = (inr (api, fin), wb) ->
       l = map FetchSearch SEARCH_KEYWORDS
             ++ FetchFinanceNews
             :: map FetchArticle
                  (filter (includes (js "news.naver.com"))
                     (map NaverNewsItem.link
                        (dedupByLink (List.concat api ++ fin))))).
Proof.
  cbv zeta. split; [reflexivity|].
  apply missing_key_fails_after_the_fetches. reflexivity.
Defined.

(** C9, as the specification states it, fails: with the key unset the
    request does end in the configuration error, but eight outbound calls
    have been made by then. *)
Lemma missing_key_is_found_after_outbound_calls :
  let env := sample_env None 250 [story_first] full_page None in
  key_missing env = true /\
  fst (performAnalysis env fresh_world)
    = inl (Error (js "OpenAI API key not configured")) /\
  calls (snd (performAnalysis env fresh_world))
    = FetchMarketIndex :: map FetchSearch SEARCH_KEYWORDS
        ++ [FetchFinanceNews; FetchArticle (NaverNewsItem.link story_first)] /\
  calls (snd (performAnalysis env fresh_world)) <> calls fresh_world.
Proof.
  cbv zeta. split; [reflexivity|]. split; [vm_compute; reflexivity|].
  split; [vm_compute; reflexivity|]. vm_compute. discriminate.
Qed.

(** ** The cache and the handler *)

Lemma runs_analyzeWithOpenAI (env : Env) (news : list CrawledNewsItem.t)
  (rate : ExchangeRateInfo.t) :
  runs (fun _ => True) (analyzeWithOpenAI env news rate).
Proof.
  intros w. rewrite analyzeWithOpenAI_run. cbv zeta.
  destruct (net_openai env _ _) as [|content]; simpl;
    [apply extends_logged; exact I|].
  destruct (JSON_parse _); simpl; [|apply extends_logged; exact I].
  eapply extends_trans; [apply extends_logged; exact I | apply extends_tick].
Qed.

Lemma runs_performAnalysis (env : Env) : runs (fun _ => True) (performAnalysis env).
Proof.
  unfold performAnalysis.
  apply runs_bind; [apply runs_fetchCurrentExchangeRates; auto|]. intros rate.
  apply runs_bind; [apply runs_search_phase; auto|]. intros found.
  apply runs_bind; [apply runs_crawlAll; auto|]. intros crawledNews.
  destruct (key_missing env); [apply runs_throw|].
  apply runs_bind; [apply runs_analyzeWithOpenAI|]. intros analysis.
  apply runs_ret.
Qed.

(** A forced request: the pipeline runs, whatever the store holds. *)
Lemma GET_forced (env : Env) (w : World) :
  GET env (Some (js "true")) w =
  match performAnalysis env (tick w) with
  | (inr analysis, w1) =>
      (inr (Success analysis false
              (ms (clock env (ticks w1)) - ms (clock env (ticks w)))), tick w1)
  | (inl e, w1) => (inr (Failure e), w1)
  end.
Proof.
  unfold GET. rewrite str_eqb_refl.
  unfold try_catch, bind, Date_now, ret.
  destruct (performAnalysis env (tick w)) as [[e|analysis] w1]; reflexivity.
Qed.

(** A plain request: the cache is asked, and the flag is computed from two
    readings of the clock. *)
Lemma GET_plain (env : Env) (w : World) :
  GET env None w =
  match getCachedAnalysis env (tick w) with
  | (inr analysis, w1) =>
      (inr (Success analysis
              (ms (clock env (ticks w1)) - ms (clock env (ticks w)) <? 1000)%Z
              (ms (clock env (S (ticks w1))) - ms (clock env (ticks w)))),
       tick (tick w1))
  | (inl e, w1) => (inr (Failure e), w1)
  end.
Proof.
  unfold GET, try_catch, bind, Date_now, ret.
  destruct (getCachedAnalysis env (tick w)) as [[e|analysis] w1]; reflexivity.
Qed.

(** An entry that has not expired is served as it is. *)
Lemma getCachedAnalysis_hit (env : Env) (w : World) (e : CacheEntry) :
  Map_get CACHE_TAG (store w) = Some e ->
  (ms (clock env (ticks w)) - createdAt e < 600 * 1000)%Z ->
  getCachedAnalysis env w = (inr (value e), tick w).
Proof.
  intros Hget Hfresh. unfold getCachedAnalysis, unstable_cache, bind, Date_now.
  cbn [store tick]. rewrite Hget.
  apply Z.ltb_lt in Hfresh. rewrite Hfresh. reflexivity.
Qed.

(** C8 (amended). A forced refresh always runs the full pipeline and
    answers with its result, but it goes past the cache in both
    directions: the store is after the request what it was before. A later
    plain request, made while an entry stored before has not expired, is
    answered with that earlier entry and makes no outbound call; it is not
    answered with what the forced refresh produced. *)
Theorem forced_refresh_bypasses_the_cache (env : Env) (w : World) :
  GET env (Some (js "true")) w =
    match performAnalysis env (tick w) with
    | (inr analysis, w1) =>
        (inr (Success analysis false
                (ms (clock env (ticks w1)) - ms (clock env (ticks w)))), tick w1)
    | (inl e, w1) => (inr (Failure e), w1)
    end /\
  store (snd (GET env (Some (js "true")) w)) = store w /\
  (forall e,
     Map_get CACHE_TAG (store w) = Some e ->
     let w1 := snd (GET env (Some (js "true")) w) in
     (ms (clock env (S (ticks w1))) - createdAt e < 600 * 1000)%Z ->
     response_data (GET env None w1) = Some (value e) /\
     calls (snd (GET env None w1)) = calls w1).
Proof.
  split; [apply GET_forced|].
  assert (Hstore : store (snd (GET env (Some (js "true")) w)) = store w).
  { rewrite GET_forced.
    destruct (runs_performAnalysis env (tick w)) as [Hs _].
    destruct (performAnalysis env (tick w)) as [[e|analysis] w1]; exact Hs. }
  split; [exact Hstore|].
  intros e Hget w1 Hfresh. subst w1.
  set (w1 := snd (GET env (Some (js "true")) w)) in *.
  rewrite GET_plain.
  rewrite (@getCachedAnalysis_hit env (tick w1) e);
    [split; reflexivity | cbn [store tick]; rewrite Hstore; exact Hget
    | exact Hfresh].
Qed.

Lemma forced_refresh_bypasses_the_cache_witness :
  let env := sample_env (Some (js "sk-live")) 250 [] full_page (Some answer_fresh) in
  let w1 := snd (GET env (Some (js "true")) warm_world) in
  store w1 = store warm_world /\
  response_data (GET env None w1) = Some earlier_report /\
  calls (snd (GET env None w1)) = calls w1.
Proof.
  cbv zeta.
  pose proof (forced_refresh_bypasses_the_cache
                (sample_env (Some (js "sk-live")) 250 [] full_page (Some answer_fresh))
                warm_world) as [_ [Hstore Hlater]].
  split; [exact Hstore|].
  apply (Hlater {| value := earlier_report; createdAt := 1736207990000 |}).
  - reflexivity.
  - vm_compute. reflexivity.
Defined.

(** C8, as the specification states it, fails: after a forced refresh
    that produced a fresh report, a plain request within the time to live
    is answered with the report stored earlier. *)
Lemma forced_refresh_result_not_served :
  let env := sample_env (Some (js "sk-live")) 250 [] full_page (Some answer_fresh) in
  let refreshed := GET env (Some (js "true")) warm_world in
  let later := GET env None (snd refreshed) in
  option_map (obj_get (js "title")) (response_data refreshed)
    = Some (Some (JStr (js "Fresh briefing"))) /\
  response_data later = Some earlier_report /\
  response_data later <> response_data refreshed /\
  store (snd refreshed) = store warm_world.
Proof.
  cbv zeta. split; [vm_compute; reflexivity|].
  split; [vm_compute; reflexivity|].
  split; [vm_compute; discriminate | vm_compute; reflexivity].
Qed.

(** C10. A forced request that succeeds always answers [cached = false].
    A plain request computes the flag from the clock alone: it is true
    exactly when the reading taken after the cache has answered is less
    than 1000 ms after the reading taken at the start. So the flag does not
    say whether the stored entry was used: a request that found the store
    empty and ran the whole pipeline in 750 ms answers [cached = true], and
    a request that was served from the store in 1200 ms answers
    [cached = false]. *)
Theorem cached_flag_is_a_timing_heuristic (env : Env) (w : World) :
  (forall data cached total w',
     GET env (Some (js "true")) w = (inr (Success data cached total), w') ->
     cached = false) /\
  GET env None w =
    match getCachedAnalysis env (tick w) with
    | (inr analysis, w1) =>
        (inr (Success analysis
                (ms (clock env (ticks w1)) - ms (clock env (ticks w)) <? 1000)%Z
                (ms (clock env (S (ticks w1))) - ms (clock env (ticks w)))),
         tick (tick w1))
    | (inl e, w1) => (inr (Failure e), w1)
    end /\
  (let quick := sample_env (Some (js "sk-live")) 250 [] full_page (Some answer_fresh) in
   store fresh_world = [] /\
   response_cached (GET quick None fresh_world) = Some true /\
   List.length (calls (snd (GET quick None fresh_world))) = 8) /\
  (let slow := sample_env (Some (js "sk-live")) 600 [] full_page (Some answer_fresh) in
   response_data (GET slow None warm_world) = Some earlier_report /\
   response_cached (GET slow None warm_world) = Some false /\
   calls (snd (GET slow None warm_world)) = []).
Proof.
  split; [|split; [apply GET_plain|split]].
  - intros data cached total w'. rewrite GET_forced.
    destruct (performAnalysis env (tick w)) as [[e|analysis] w1]; intros H;
      inversion H; reflexivity.
  - cbv zeta. split; [reflexivity|]. split; vm_compute; reflexivity.
  - cbv zeta. split; [vm_compute; reflexivity|]. split; vm_compute; reflexivity.
Qed.

(* ================================================================== *)
(** * Further properties of the code *)
(* ================================================================== *)

(** ** The text normalizer *)

Lemma trimStart_head (s : jsstring) (c : N) (r : jsstring) :
  trimStart s = c :: r -> is_space c = false.
Proof.
  induction s as [|d s IH]; simpl; [discriminate|].
  destruct (is_space d) eqn:E; [exact IH|].
  intros H. inversion H; subst. exact E.
Qed.

Lemma trimStart_kept (c : N) (r : jsstring) :
  is_space c = false -> trimStart (c :: r) = c :: r.
Proof. intros H. simpl. rewrite H. reflexivity. Qed.

Lemma trimStart_idem (s : jsstring) : trimStart (trimStart s) = trimStart s.
Proof.
  destruct (trimStart s) as [|c r] eqn:E; [reflexivity|].
  apply trimStart_kept. eapply trimStart_head. exact E.
Qed.

(** A text that ends in a code unit that is no white space keeps that end
    when white space is dropped from its start. *)
Lemma trimStart_snoc (l : jsstring) (c : N) :
  is_space c = false -> exists l', trimStart (l ++ [c]) = l' ++ [c].
Proof.
  intros Hc. induction l as [|d l IH]; simpl.
  - rewrite Hc. exists []. reflexivity.
  - destruct (is_space d); [exact IH|]. exists (d :: l). reflexivity.
Qed.

Lemma trimEnd_head (c : N) (r : jsstring) :
  is_space c = false -> exists r', trimEnd (c :: r) = c :: r'.
Proof.
  intros Hc. unfold trimEnd. simpl.
  destruct (trimStart_snoc (rev r) c Hc) as [l' Hl]. rewrite Hl.
  rewrite rev_app_distr. simpl. eauto.
Qed.

Lemma trimEnd_idem (s : jsstring) : trimEnd (trimEnd s) = trimEnd s.
Proof. unfold trimEnd. rewrite rev_involutive, trimStart_idem. reflexivity. Qed.

Lemma trimEnd_last (s r : jsstring) (c : N) :
  trimEnd s = r ++ [c] -> is_space c = false.
Proof.
  unfold trimEnd. intros H. apply (f_equal (@rev N)) in H.
  rewrite rev_involutive, rev_app_distr in H. simpl in H.
  eapply trimStart_head. exact H.
Qed.

Lemma trim_head (s : jsstring) (c : N) (r : jsstring) :
  trim s = c :: r -> is_space c = false.
Proof.
  unfold trim. destruct (trimStart s) as [|d t] eqn:E.
  - discriminate.
  - pose proof (trimStart_head s E) as Hd.
    destruct (trimEnd_head d t Hd) as [r' Hr]. rewrite Hr.
    intros H. inversion H; subst. exact Hd.
Qed.

Lemma trim_last (s r : jsstring) (c : N) :
  trim s = r ++ [c] -> is_space c = false.
Proof. unfold trim. apply trimEnd_last. Qed.

Lemma trim_idem (s : jsstring) : trim (trim s) = trim s.
Proof.
  unfold trim at 1. destruct (trim s) as [|c r] eqn:E; [reflexivity|].
  rewrite (trimStart_kept c r (trim_head s E)). rewrite <- E. unfold trim.
  apply trimEnd_idem.
Qed.

(** X1. Whatever the raw text, what [stripHtml] returns neither starts nor
    ends with white space, and normalizing it again cannot trim anything
    more. *)
Theorem stripHtml_has_no_outer_space (html : jsstring) :
  (forall c r, stripHtml html = c :: r -> is_space c = false) /\
  (forall c r, stripHtml html = r ++ [c] -> is_space c = false) /\
  trim (stripHtml html) = stripHtml html.
Proof.
  unfold stripHtml. split; [|split].
  - intros c r. apply trim_head.
  - intros c r. apply trim_last.
  - apply trim_idem.
Qed.

Lemma strip_tags_plain (s : jsstring) :
  ~ In LT s -> strip_tags false s = s.
Proof.
  induction s as [|c s IH]; simpl; [reflexivity|]. intros Hn.
  destruct (N.eqb c LT) eqn:E; [apply N.eqb_eq in E; tauto|].
  simpl. f_equal. apply IH. tauto.
Qed.

Lemma replaceAll_absent (p : N) (pat rep s : jsstring) :
  ~ In p s -> replaceAll (p :: pat) rep s = s.
Proof.
  unfold replaceAll. induction s as [|c s IH]; simpl; [reflexivity|]. intros Hn.
  destruct (N.eqb p c) eqn:E; [apply N.eqb_eq in E; subst; tauto|].
  simpl. f_equal. apply IH. tauto.
Qed.

(** X2. A text with no ['<'] and no ['&'] is plain already: [stripHtml]
    only trims it. *)
Theorem stripHtml_plain_text (s : jsstring) :
  ~ In LT s -> ~ In 38%N s -> stripHtml s = trim s.
Proof.
  intros Hlt Hamp. unfold stripHtml. rewrite (strip_tags_plain s Hlt).
  change (js "&quot;") with (38%N :: js "quot;").
  change (js "&amp;") with (38%N :: js "amp;").
  change (js "&lt;") with (38%N :: js "lt;").
  change (js "&gt;") with (38%N :: js "gt;").
  change (js "&nbsp;") with (38%N :: js "nbsp;").
  rewrite (@replaceAll_absent 38 (js "quot;") [34%N] s Hamp).
  rewrite (@replaceAll_absent 38 (js "amp;") (js "&") s Hamp).
  rewrite (@replaceAll_absent 38 (js "lt;") (js "<") s Hamp).
  rewrite (@replaceAll_absent 38 (js "gt;") (js ">") s Hamp).
  rewrite (@replaceAll_absent 38 (js "nbsp;") (js " ") s Hamp).
  reflexivity.
Qed.

Lemma stripHtml_plain_text_witness :
  stripHtml (js "  Won steady at 1,470  ") = js "Won steady at 1,470".
Proof.
  rewrite (@stripHtml_plain_text (js "  Won steady at 1,470  ")).
  - vm_compute. reflexivity.
  - vm_compute. intuition discriminate.
  - vm_compute. intuition discriminate.
Defined.

Lemma strip_tags_subset (b : bool) (s : jsstring) (x : N) :
  In x (strip_tags b s) -> In x s.
Proof.
  revert b. induction s as [|c s IH]; intros b; simpl; [tauto|].
  destruct b.
  - intros H. right. eapply IH. exact H.
  - destruct (N.eqb c LT && existsb (N.eqb GT) s).
    + intros H. right. eapply IH. exact H.
    + simpl. intros [H | H]; [left; exact H | right; eapply IH; exact H].
Qed.

Lemma strip_tags_closed (b : bool) (s pre post : jsstring) :
  strip_tags b s = pre ++ LT :: post -> ~ In GT post.
Proof.
  revert b pre. induction s as [|c s IH]; intros b pre; simpl.
  - destruct pre; discriminate.
  - destruct b; [apply IH|].
    destruct (N.eqb c LT && existsb (N.eqb GT) s) eqn:E; [apply IH|].
    destruct pre as [|d pre]; simpl; intros H; inversion H; subst.
    + rewrite N.eqb_refl in E. simpl in E.
      intros Hin. apply strip_tags_subset in Hin.
      assert (Hex : existsb (N.eqb GT) s = true)
        by (apply existsb_exists; exists GT; split; [exact Hin | apply N.eqb_refl]).
      congruence.
    + eapply IH. eassumption.
Qed.

(** X3. After the tags are removed no tag is left: in the result of the
    first replacement of [stripHtml], no ['<'] is ever followed by a
    ['>']. *)
Theorem strip_tags_leaves_no_tag (html pre post : jsstring) :
  strip_tags false html = pre ++ LT :: post -> ~ In GT post.
Proof. apply strip_tags_closed. Qed.

Lemma strip_tags_leaves_no_tag_witness :
  strip_tags false (js "a <b>bold</b> move, 3 < 4") = js "a bold move, 3 " ++ LT :: js " 4"
  /\ ~ In GT (js " 4").
Proof.
  assert (H : strip_tags false (js "a <b>bold</b> move, 3 < 4")
              = js "a bold move, 3 " ++ LT :: js " 4") by (vm_compute; reflexivity).
  split; [exact H|]. exact (strip_tags_leaves_no_tag _ _ _ H).
Defined.

(** ** The secondary listing source *)

Lemma startsWith_split (pat s : jsstring) :
  startsWith pat s = true -> s = pat ++ skipn (List.length pat) s.
Proof.
  revert s. induction pat as [|p pat IH]; intros s; simpl; [reflexivity|].
  destruct s as [|c s]; [discriminate|].
  intros H. apply andb_true_iff in H. destruct H as [Hp Hs].
  apply N.eqb_eq in Hp. subst c. f_equal. apply IH. exact Hs.
Qed.

Lemma startsWith_app (pat s t : jsstring) :
  startsWith pat s = true -> startsWith pat (s ++ t) = true.
Proof.
  revert s. induction pat as [|p pat IH]; intros s; simpl; [reflexivity|].
  destruct s as [|c s]; [discriminate|]. simpl.
  intros H. apply andb_true_iff in H. destruct H as [Hp Hs].
  rewrite Hp. simpl. apply IH. exact Hs.
Qed.

Lemma includes_app (pat s t : jsstring) :
  includes pat s = true -> includes pat (s ++ t) = true.
Proof.
  induction s as [|c s IH]; simpl.
  - rewrite orb_false_r. intros H. destruct pat; [|discriminate].
    destruct t; reflexivity.
  - intros H. apply orb_true_iff in H. apply orb_true_iff. destruct H as [H | H].
    + left. apply (startsWith_app pat (c :: s) t H).
    + right. apply IH. exact H.
Qed.

Lemma span_digits_spec (s ds rest : jsstring) :
  span_digits s = (ds, rest) -> s = ds ++ rest /\ forallb is_digit ds = true.
Proof.
  revert ds rest. induction s as [|c s IH]; intros ds rest; simpl.
  - intros H. inversion H. split; reflexivity.
  - destruct (is_digit c) eqn:E.
    + destruct (span_digits s) as [ds' rest'] eqn:Hs. intros H. inversion H; subst.
      destruct (IH ds' rest eq_refl) as [-> Hd]. simpl. rewrite E. split; [reflexivity | exact Hd].
    + intros H. inversion H. split; reflexivity.
Qed.

Lemma match_article_at_sound (s a o : jsstring) :
  match_article_at s = Some (a, o) ->
  a <> [] /\ o <> [] /\ forallb is_digit a = true /\ forallb is_digit o = true /\
  exists post, s = js "article_id=" ++ a ++ js "&office_id=" ++ o ++ post.
Proof.
  unfold match_article_at.
  destruct (startsWith (js "article_id=") s) eqn:H1; [|discriminate].
  apply startsWith_split in H1. change (List.length (js "article_id=")) with 11 in H1.
  destruct (span_digits (skipn 11 s)) as [a' r1] eqn:Ha.
  destruct a' as [|d a']; [discriminate|].
  destruct (startsWith (js "&office_id=") r1) eqn:H2; [|discriminate].
  apply startsWith_split in H2. change (List.length (js "&office_id=")) with 11 in H2.
  destruct (span_digits (skipn 11 r1)) as [o' r2] eqn:Ho.
  destruct o' as [|e o']; [discriminate|].
  intros H. inversion H; subst a o. clear H.
  apply span_digits_spec in Ha. destruct Ha as [Ha Hda].
  apply span_digits_spec in Ho. destruct Ho as [Ho Hdo].
  split; [discriminate|]. split; [discriminate|].
  split; [exact Hda|]. split; [exact Hdo|].
  exists r2. rewrite H1 at 1. rewrite Ha. rewrite H2 at 1. rewrite Ho.
  rewrite <- ?app_assoc. reflexivity.
Qed.

(** X4. When the link of a listing entry matches
    [article_id=(\d+)&office_id=(\d+)], the two groups are runs of decimal
    digits, neither empty, and the link does hold
    [article_id=<first>&office_id=<second>] somewhere. *)
Theorem match_article_sound (href article_id office_id : jsstring) :
  match_article href = Some (article_id, office_id) ->
  article_id <> [] /\ office_id <> [] /\
  forallb is_digit article_id = true /\ forallb is_digit office_id = true /\
  exists pre post,
    href = pre ++ js "article_id=" ++ article_id ++ js "&office_id=" ++ office_id ++ post.
Proof.
  induction href as [|c s IH]; cbn [match_article].
  - vm_compute. discriminate.
  - destruct (match_article_at (c :: s)) as [[a o]|] eqn:E.
    + intros H. inversion H; subst.
      destruct (match_article_at_sound _ E) as [Ha [Ho [Hda [Hdo [post Hs]]]]].
      repeat (split; [assumption|]). exists [], post. exact Hs.
    + intros H. destruct (IH H) as [Ha [Ho [Hda [Hdo [pre [post Hs]]]]]].
      repeat (split; [assumption|]). exists (c :: pre), post. simpl. f_equal. exact Hs.
Qed.

Lemma match_article_sound_witness :
  match_article (js "/news/news_read.naver?article_id=0005123456&office_id=015&page=1")
    = Some (js "0005123456", js "015") /\
  js "0005123456" <> [] /\ js "015" <> [].
Proof.
  assert (H : match_article
                (js "/news/news_read.naver?article_id=0005123456&office_id=015&page=1")
              = Some (js "0005123456", js "015")) by (vm_compute; reflexivity).
  split; [exact H|].
  destruct (match_article_sound _ H) as [Ha [Ho _]]. split; assumption.
Defined.

Lemma str_or_nil (s : jsstring) : str_or s [] = s.
Proof. destruct s; reflexivity. Qed.

Lemma includes_article_host (rest : jsstring) :
  includes (js "news.naver.com")
           (js "https://n.news.naver.com/mnews/article/" ++ rest) = true.
Proof. apply includes_app. vm_compute. reflexivity. Qed.

(** X5. Every item taken from the listing page has an absolute original
    link (the link of the page itself, or that link behind the site's
    origin). A link that carries an article id and an office id is
    rewritten to the article host, where the content fetcher accepts it;
    any other link is kept. The publication date of the item is the time
    it was read. *)
Theorem finance_item_shape (env : Env) (dl : FinanceDl.t) (w : World)
  (item : NaverNewsItem.t) (w' : World) :
  financeItem env dl w = (inr (Some item), w') ->
  exists href,
    FinanceDl.href dl = Some href /\ href <> [] /\
    NaverNewsItem.originallink item
      = (if startsWith (js "http") href then href
         else js "https://finance.naver.com" ++ href) /\
    startsWith (js "http") (NaverNewsItem.originallink item) = true /\
    NaverNewsItem.pubDate item = iso (clock env (ticks w)) /\
    match match_article href with
    | Some (article_id, office_id) =>
        NaverNewsItem.link item
          = js "https://n.news.naver.com/mnews/article/" ++ office_id
              ++ js "/" ++ article_id /\
        includes (js "news.naver.com") (NaverNewsItem.link item) = true
    | None => NaverNewsItem.link item = NaverNewsItem.originallink item
    end.
Proof.
  unfold financeItem.
  set (title := opt_or (FinanceDl.titleAttr dl) (trim (FinanceDl.linkText dl))).
  destruct (FinanceDl.href dl) as [href|] eqn:Hh;
    cbn [opt_truthy opt_or negb orb]; [|discriminate].
  destruct (truthy href) eqn:Ht; cbn [negb orb]; [|discriminate].
  destruct (truthy title); cbn [negb]; [|discriminate].
  rewrite (str_or_nil href).
  remember (startsWith (js "http") href) as absolute eqn:E.
  remember (match_article href) as found eqn:Em.
  unfold bind, Date_toISOString, ret. intros H.
  injection H as Hitem Hw. subst item.
  cbn [NaverNewsItem.originallink NaverNewsItem.pubDate NaverNewsItem.link].
  exists href. rewrite <- E, <- Em.
  split; [reflexivity|]. split; [apply truthy_nonempty; exact Ht|].
  split; [reflexivity|]. split.
  - destruct absolute; [symmetry; exact E | reflexivity].
  - split; [reflexivity|]. destruct found as [[a o]|]; [|reflexivity].
    split; [reflexivity | apply includes_article_host].
Qed.

Lemma finance_item_shape_witness :
  let env := sample_env None 250 [] blank_page None in
  let dl := FinanceDl.mk
              (Some (js "/news/news_read.naver?article_id=0005123456&office_id=015"))
              (Some (js "Dollar eases")) [] (js " summary ") in
  let item := NaverNewsItem.mk (js "Dollar eases")
                (js "https://finance.naver.com/news/news_read.naver?article_id=0005123456&office_id=015")
                (js "https://n.news.naver.com/mnews/article/015/0005123456")
                (js "summary") (js "2025-01-07T00:00:00.000Z") in
  financeItem env dl fresh_world = (inr (Some item), tick fresh_world) /\
  startsWith (js "http") (NaverNewsItem.originallink item) = true /\
  NaverNewsItem.pubDate item = iso (clock env 0).
Proof.
  cbv zeta.
  match goal with |- ?run = ?res /\ _ =>
    assert (H : run = res) by (vm_compute; reflexivity) end.
  split; [exact H|].
  destruct (finance_item_shape _ _ _ H) as [href [_ [_ [_ [Hs [Hd _]]]]]].
  split; [exact Hs | exact Hd].
Defined.

Lemma financeItem_never_throws (env : Env) (dl : FinanceDl.t) :
  never_throws (financeItem env dl).
Proof.
  intros w. unfold financeItem. destruct (_ || _); [unfold ret; eauto|].
  unfold bind, Date_toISOString, ret. eauto.
Qed.

Lemma somes_length (A : Type) (l : list (option A)) :
  List.length (somes l) <= List.length l.
Proof. induction l as [|[a|] l IH]; simpl; lia. Qed.

Lemma mapM_length (A B : Type) (f : A -> M B) (l : list A) (w : World)
  (bs : list B) (w' : World) :
  mapM f l w = (inr bs, w') -> List.length bs = List.length l.
Proof.
  intros H. symmetry. eapply Forall2_length.
  eapply (@mapM_Forall2 _ _ f (fun _ _ => True)); [tauto | exact H].
Qed.

(** X6. The secondary listing source never aborts the pipeline: the
    listing page is fetched once, and a transport error, a response that
    is not a success or a page that cannot be read all give the empty
    list. A page that is read gives at most one item per listed entry. *)
Theorem fetchNaverFinanceNews_absorbs_failures (env : Env) (w : World) :
  match net_finance env (List.length (calls w)) with
  | Rejected
  | Responded false _ _
  | Responded true _ None =>
      fetchNaverFinanceNews env w = (inr [], logged FetchFinanceNews w)
  | Responded true _ (Some dls) =>
      exists items w',
        fetchNaverFinanceNews env w = (inr items, w') /\
        List.length items <= List.length dls /\
        calls w' = calls w ++ [FetchFinanceNews]
  end.
Proof.
  pose proof (fetchNaverFinanceNews_calls env w) as Hcalls. revert Hcalls.
  unfold fetchNaverFinanceNews. cbn [ENABLE_FINANCE_NEWS_CRAWLING negb].
  unfold try_catch, bind, fetch, read_body, ret, throw.
  destruct (net_finance env _) as [|[|] st [dls|]]; simpl; try reflexivity.
  destruct (mapM_never_throws (financeItem env) dls (financeItem_never_throws env)
              (logged FetchFinanceNews w)) as [pushed [w1 Hrun]].
  rewrite Hrun. simpl. intros Hcalls.
  exists (somes pushed), w1. split; [reflexivity|]. split; [|exact Hcalls].
  rewrite <- (mapM_length _ _ _ Hrun). apply somes_length.
Qed.

(** ** The reference snapshot *)

Lemma rates_fold_get (key : jsstring) (rows : list RateRow.t)
  (acc : JsMap RateEntry * jsstring) :
  Map_get key (fst (fold_left rates_step rows acc)) =
  match last_row key rows with
  | Some row => Some (rate_entry row)
  | None => Map_get key (fst acc)
  end.
Proof.
  unfold last_row. revert acc. induction rows as [|row rows IH]; intros acc; simpl;
    [reflexivity|].
  rewrite IH, find_app. simpl.
  destruct (find _ (rev rows)); [reflexivity|].
  unfold rates_step. destruct (RateRow.currencyKey row) as [k|]; [|reflexivity].
  cbn [fst]. destruct (str_eqb k key) eqn:E.
  - apply str_eqb_eq in E. subst k. apply Map_get_set_same.
  - apply Map_get_set_other. exact E.
Qed.

(** X7. The reference snapshot never fails. The market index is fetched
    once; a transport error, a response that is not a success or a page
    that cannot be read give the snapshot of zeros. From a page that is
    read, each rate is the one of the last row that names the currency, or
    zero when no row does; the change of the dollar takes its sign from the
    falling mark of that row, not from the number, and the trend is rising
    when the row is marked rising, even if it is marked falling too. *)
Theorem snapshot_outcomes (env : Env) (w : World) :
  match net_marketindex env (List.length (calls w)) with
  | Rejected
  | Responded false _ _
  | Responded true _ None =>
      fetchCurrentExchangeRates env w = (inr unavailable, logged FetchMarketIndex w)
  | Responded true _ (Some rows) =>
      exists snap,
        fetchCurrentExchangeRates env w = (inr snap, logged FetchMarketIndex w) /\
        match last_row (js "usd") rows with
        | Some row =>
            ExchangeRateInfo.usd snap = RateRow.rate row /\
            ExchangeRateInfo.usdChange snap
              = (if RateRow.isDown row then Qopp (RateRow.change row)
                 else RateRow.change row) /\
            ExchangeRateInfo.usdTrend snap
              = (if RateRow.isUp row then up
                 else if RateRow.isDown row then down else stable)
        | None =>
            ExchangeRateInfo.usd snap = 0%Q /\
            ExchangeRateInfo.usdChange snap = 0%Q /\
            ExchangeRateInfo.usdTrend snap = stable
        end /\
        ExchangeRateInfo.jpy snap
          = match last_row (js "jpy") rows with
            | Some row => RateRow.rate row | None => 0%Q end /\
        ExchangeRateInfo.eur snap
          = match last_row (js "eur") rows with
            | Some row => RateRow.rate row | None => 0%Q end /\
        ExchangeRateInfo.cny snap
          = match last_row (js "cny") rows with
            | Some row => RateRow.rate row | None => 0%Q end
  end.
Proof.
  unfold fetchCurrentExchangeRates, try_catch, bind, fetch, read_body, ret, throw.
  destruct (net_marketindex env _) as [|[|] st [rows|]]; simpl; try reflexivity.
  pose proof (fun key => rates_fold_get key rows ([], [])) as Hget.
  destruct (fold_left rates_step rows ([], [])) as [rates time]. cbn [fst] in Hget.
  eexists. split; [reflexivity|].
  cbn [ExchangeRateInfo.usd ExchangeRateInfo.usdChange ExchangeRateInfo.usdTrend
       ExchangeRateInfo.jpy ExchangeRateInfo.eur ExchangeRateInfo.cny].
  unfold rate_of. rewrite !Hget.
  destruct (last_row (js "usd") rows), (last_row (js "jpy") rows),
    (last_row (js "eur") rows), (last_row (js "cny") rows); simpl; auto.
Qed.

(** ** Bounds on what the content fetcher returns *)

Lemma firstn_head (A : Type) (n : nat) (l : list A) (c : A) (r : list A) :
  firstn n l = c :: r -> exists r', l = c :: r'.
Proof. destruct n, l; simpl; try discriminate. intros H. inversion H. eauto. Qed.

Lemma crawlNaverNews_some (env : Env) (url : jsstring) (w : World)
  (r : CrawlResult.t) (w' : World) :
  crawlNaverNews env url w = (inr (Some r), w') ->
  includes (js "news.naver.com") url = true /\
  exists doc, r = CrawlResult.mk
                    (substring0 3000 (trim (body_text doc)))
                    (trim (opt_or (undef_or (ArticleDoc.logo_alt doc)
                                            (ArticleDoc.og_author doc)) []))
                    (trim (opt_or (ArticleDoc.og_image doc) [])).
Proof.
  unfold crawlNaverNews, try_catch, bind, fetch, read_body, ret, throw.
  destruct (includes (js "news.naver.com") url); cbn [negb]; [|discriminate].
  destruct (net_article env (List.length (calls w)) url) as [|[|] st [doc|]];
    cbn [ok body negb]; try discriminate.
  match goal with |- context [substring0 ?n ?x] =>
    remember (substring0 n x) as text eqn:Etext end.
  intros H. injection H as Hr Hw. subst r.
  split; [reflexivity|]. exists doc. subst text. reflexivity.
Qed.

(** X8. A result of the content fetcher that is not null comes from a URL
    on the article host; its text holds at most 3000 code units and does
    not start with white space; its source name and its thumbnail are
    trimmed on both sides. *)
Theorem crawlNaverNews_bounds (env : Env) (url : jsstring) (w : World)
  (r : CrawlResult.t) (w' : World) :
  crawlNaverNews env url w = (inr (Some r), w') ->
  includes (js "news.naver.com") url = true /\
  List.length (CrawlResult.content r) <= 3000 /\
  (forall c rest, CrawlResult.content r = c :: rest -> is_space c = false) /\
  trim (CrawlResult.source r) = CrawlResult.source r /\
  trim (CrawlResult.thumbnail r) = CrawlResult.thumbnail r.
Proof.
  intros H. destruct (crawlNaverNews_some _ _ _ H) as [Hhost [doc ->]].
  cbn [CrawlResult.content CrawlResult.source CrawlResult.thumbnail].
  split; [exact Hhost|]. split; [apply firstn_le_length|].
  split; [|split; apply trim_idem].
  intros c rest Hc. unfold substring0 in Hc.
  apply firstn_head in Hc. destruct Hc as [r' Hr]. eapply trim_head. exact Hr.
Qed.

Lemma crawlNaverNews_bounds_witness :
  let env := sample_env None 250 [] full_page None in
  let url := js "https://n.news.naver.com/mnews/article/001/0000001" in
  let r := CrawlResult.mk (js "The won weakened past 1,470 per dollar.")
             (js "Yonhap") (js "https://img.example/1.jpg") in
  crawlNaverNews env url fresh_world
    = (inr (Some r), logged (FetchArticle url) fresh_world) /\
  List.length (CrawlResult.content r) <= 3000.
Proof.
  cbv zeta.
  match goal with |- ?run = ?res /\ _ =>
    assert (H : run = res) by (vm_compute; reflexivity) end.
  split; [exact H|].
  exact (proj1 (proj2 (crawlNaverNews_bounds _ _ _ H))).
Defined.

(** ** How the deduplication builds its result *)

Lemma Map_fill_app (V : Type) (es1 es2 : list (jsstring * V)) (m : JsMap V) :
  Map_fill (es1 ++ es2) m = Map_fill es2 (Map_fill es1 m).
Proof. unfold Map_fill. apply fold_left_app. Qed.

(** In the map the deduplication fills, every entry is filed under the
    link of its item. *)
Lemma dedup_entries_keyed (allNews : list NaverNewsItem.t) (e : jsstring * NaverNewsItem.t) :
  In e (Map_fill (map (fun item => (NaverNewsItem.link item, item)) allNews) []) ->
  fst e = NaverNewsItem.link (snd e).
Proof.
  destruct e as [k v]. intros Hin. simpl.
  pose proof (Map_fill_NoDup
                (map (fun item => (NaverNewsItem.link item, item)) allNews) []
                (NoDup_nil _)) as Hnd.
  pose proof (Map_get_In _ _ _ Hnd Hin) as Hget.
  rewrite Map_fill_get in Hget. rewrite <- map_rev, find_map in Hget. simpl in Hget.
  destruct (find _ (rev allNews)) as [x|] eqn:F; simpl in Hget; [|discriminate].
  apply find_some in F. destruct F as [_ F]. apply str_eqb_eq in F.
  inversion Hget; subst. reflexivity.
Qed.

Lemma replace_absent (x : NaverNewsItem.t) (m : JsMap NaverNewsItem.t) :
  (forall e, In e m -> fst e = NaverNewsItem.link (snd e)) ->
  ~ In (NaverNewsItem.link x) (Map_keys m) ->
  map (fun y => if str_eqb (NaverNewsItem.link y) (NaverNewsItem.link x)
                then x else y) (map snd m) = map snd m.
Proof.
  induction m as [|[k v] m IH]; intros Hkey Hnotin; [reflexivity|].
  cbn [map snd].
  assert (Hk : k = NaverNewsItem.link v) by (apply (Hkey (k, v)); left; reflexivity).
  destruct (str_eqb (NaverNewsItem.link v) (NaverNewsItem.link x)) eqn:E.
  - exfalso. apply Hnotin. apply str_eqb_eq in E. left. simpl. congruence.
  - f_equal. apply IH.
    + intros e He. apply Hkey. right. exact He.
    + intros Hin. apply Hnotin. right. exact Hin.
Qed.

Lemma Map_set_values (x : NaverNewsItem.t) (m : JsMap NaverNewsItem.t) :
  NoDup (Map_keys m) ->
  (forall e, In e m -> fst e = NaverNewsItem.link (snd e)) ->
  Map_values (Map_set (NaverNewsItem.link x) x m) =
  if existsb (fun y => str_eqb (NaverNewsItem.link y) (NaverNewsItem.link x))
             (Map_values m)
  then map (fun y => if str_eqb (NaverNewsItem.link y) (NaverNewsItem.link x)
                     then x else y) (Map_values m)
  else Map_values m ++ [x].
Proof.
  induction m as [|[k v] m IH]; intros Hnd Hkey; [reflexivity|].
  assert (Hk : k = NaverNewsItem.link v) by (apply (Hkey (k, v)); left; reflexivity).
  subst k. inversion Hnd as [|? ? Hnotin Hnd']; subst.
  cbn [Map_set Map_values map existsb snd].
  destruct (str_eqb (NaverNewsItem.link v) (NaverNewsItem.link x)) eqn:E;
    cbn [orb map snd].
  - f_equal. apply str_eqb_eq in E. symmetry. apply replace_absent.
    + intros e He. apply Hkey. right. exact He.
    + rewrite <- E. exact Hnotin.
  - specialize (IH Hnd' (fun e He => Hkey e (or_intror He))).
    unfold Map_values in IH. rewrite IH.
    destruct (existsb _ (map snd m)); reflexivity.
Qed.

(** X9. The deduplication can be read one result at a time: a result whose
    link is new is appended; a result whose link is already there takes the
    place of the entry with that link, and nothing else moves. So the links
    come out in the order of their first occurrence, each with the item of
    its last occurrence. *)
Theorem dedup_step (allNews : list NaverNewsItem.t) (x : NaverNewsItem.t) :
  dedupByLink (allNews ++ [x]) =
  if existsb (fun y => str_eqb (NaverNewsItem.link y) (NaverNewsItem.link x))
             (dedupByLink allNews)
  then map (fun y => if str_eqb (NaverNewsItem.link y) (NaverNewsItem.link x)
                     then x else y) (dedupByLink allNews)
  else dedupByLink allNews ++ [x].
Proof.
  rewrite !dedupByLink_fill. rewrite map_app, Map_fill_app. simpl.
  apply Map_set_values.
  - apply Map_fill_NoDup. constructor.
  - apply dedup_entries_keyed.
Qed.

Lemma dedupByLink_length (l : list NaverNewsItem.t) :
  List.length (dedupByLink l) <= List.length l.
Proof.
  apply NoDup_incl_length.
  - apply (NoDup_map_inv NaverNewsItem.link). rewrite dedupByLink_links.
    apply Map_fill_NoDup. constructor.
  - intros item. apply dedupByLink_subset.
Qed.

(** X10. Deduplicating twice changes nothing, the result is never longer
    than the input, and it holds only items of the input. *)
Theorem dedup_idempotent (allNews : list NaverNewsItem.t) :
  dedupByLink (dedupByLink allNews) = dedupByLink allNews /\
  List.length (dedupByLink allNews) <= List.length allNews /\
  (forall item, In item (dedupByLink allNews) -> In item allNews).
Proof.
  split; [|split].
  - apply dedupByLink_distinct. rewrite dedupByLink_links.
    apply Map_fill_NoDup. constructor.
  - apply dedupByLink_length.
  - intros item. apply dedupByLink_subset.
Qed.

(** ** The sort of the listing route *)

Lemma sort_insert_perm (A : Type) (cmp : A -> A -> Z) (x : A) (l : list A) :
  Permutation (sort_insert cmp x l) (x :: l).
Proof.
  induction l as [|y l IH]; simpl; [apply Permutation_refl|].
  destruct (cmp x y <=? 0)%Z; [apply Permutation_refl|].
  eapply Permutation_trans; [apply perm_skip; exact IH | apply perm_swap].
Qed.

Lemma Array_sort_perm (A : Type) (cmp : A -> A -> Z) (l : list A) :
  Permutation (Array_sort cmp l) l.
Proof.
  induction l as [|x l IH]; simpl; [constructor|].
  eapply Permutation_trans; [apply sort_insert_perm | apply perm_skip; exact IH].
Qed.

(** X11. Whatever the dates are, readable or not, the sort of the listing
    route only reorders: the list it hands on is a permutation of the
    deduplicated results, so it still carries each link once. *)
Theorem listing_sort_permutes (getTime : jsstring -> option Z)
  (newsResults : list (list NaverNewsItem.t)) :
  Permutation (listing_uniqueNews getTime newsResults)
              (dedupByLink (List.concat newsResults)) /\
  NoDup (map NaverNewsItem.link (listing_uniqueNews getTime newsResults)).
Proof.
  assert (Hp : Permutation (listing_uniqueNews getTime newsResults)
                           (dedupByLink (List.concat newsResults)))
    by apply Array_sort_perm.
  split; [exact Hp|].
  eapply Permutation_NoDup; [apply Permutation_map, Permutation_sym; exact Hp|].
  rewrite dedupByLink_links. apply Map_fill_NoDup. constructor.
Qed.

Lemma listing_route_sorted_witness :
  non_increasingb sample_getTime
    (listing_uniqueNews sample_getTime [[story_first; story_recent]; [story_again]])
  = true.
Proof.
  apply listing_route_sorted.
  repeat constructor; vm_compute; discriminate.
Defined.

(** ** What the enrichment fetches, and what its flag means *)

(** X12. The enrichment makes exactly one article fetch for each item
    whose link is on the article host, in the order of the items, and no
    call at all for the other items. *)
Theorem crawlAll_fetches (env : Env) (uniqueNews : list NaverNewsItem.t) (w : World) :
  calls (snd (crawlAll env uniqueNews w)) =
  calls w ++ map FetchArticle
               (filter (includes (js "news.naver.com"))
                       (map NaverNewsItem.link uniqueNews)).
Proof.
  destruct (crawlAll_returns env uniqueNews w) as [out [w' [Hall Hrun]]].
  rewrite Hall. rewrite <- (crawl_items_calls env uniqueNews w), Hrun. reflexivity.
Qed.

Lemma Forall2_right (A B : Type) (P : B -> Prop) (l : list A) (bs : list B) :
  Forall2 (fun _ b => P b) l bs -> Forall P bs.
Proof. induction 1; constructor; assumption. Qed.

(** What the flag of an article says, whatever the fetch gave. *)
Lemma crawledItem_flag (news : NaverNewsItem.t) (crawled : option CrawlResult.t) :
  CrawledNewsItem.isCrawled (crawledItem news crawled)
    = truthy (CrawledNewsItem.content (crawledItem news crawled)).
Proof. destruct crawled as [[[|c content] source thumbnail]|]; reflexivity. Qed.

Lemma crawl_items_flagged (env : Env) (uniqueNews : list NaverNewsItem.t)
  (w : World) (out : list CrawledNewsItem.t) (w' : World) :
  mapM (crawl_item env) uniqueNews w = (inr out, w') ->
  Forall (fun article =>
            CrawledNewsItem.isCrawled article
              = truthy (CrawledNewsItem.content article) /\
            (CrawledNewsItem.isCrawled article = true ->
             includes (js "news.naver.com") (CrawledNewsItem.url article) = true /\
             List.length (CrawledNewsItem.content article) <= 3000)) out.
Proof.
  intros Hrun. eapply Forall2_right. eapply mapM_Forall2; [|exact Hrun].
  intros news w1 article w2 Hitem. cbv beta.
  destruct (crawl_item_run env news w1) as [crawled [w2' [Hc Hi]]].
  rewrite Hi in Hitem. injection Hitem as <- <-.
  split; [apply crawledItem_flag|].
  destruct crawled as [r|]; [|discriminate].
  destruct (crawlNaverNews_some _ _ _ Hc) as [Hhost [doc ->]].
  intros Hflag. split; [exact Hhost|].
  cbn [crawledItem CrawledNewsItem.content option_map CrawlResult.content opt_or].
  rewrite str_or_nil. apply firstn_le_length.
Qed.

(** X13. In every article the enrichment produces, the flag is set exactly
    when the text is not empty; a flagged article has a link on the article
    host and a text of at most 3000 code units. So the double test of the
    synthesizer, flag and text, selects the flagged articles and no fewer. *)
Theorem enriched_articles_invariant (env : Env) (uniqueNews : list NaverNewsItem.t)
  (w : World) (out : list CrawledNewsItem.t) (w' : World) :
  crawlAll env uniqueNews w = (inr out, w') ->
  Forall (fun article =>
            CrawledNewsItem.isCrawled article
              = truthy (CrawledNewsItem.content article) /\
            (CrawledNewsItem.isCrawled article = true ->
             includes (js "news.naver.com") (CrawledNewsItem.url article) = true /\
             List.length (CrawledNewsItem.content article) <= 3000)) out /\
  crawledOnly out = filter CrawledNewsItem.isCrawled out.
Proof.
  intros Hall.
  destruct (crawlAll_returns env uniqueNews w) as [out' [w'' [Hall' Hrun]]].
  rewrite Hall in Hall'. injection Hall' as <- <-.
  pose proof (crawl_items_flagged _ _ _ Hrun) as HF.
  split; [exact HF|].
  unfold crawledOnly. clear Hall Hrun.
  induction HF as [|a l [Ha _] _ IH]; [reflexivity|].
  cbn [filter]. rewrite IH, <- Ha. destruct (CrawledNewsItem.isCrawled a); reflexivity.
Qed.

Lemma enriched_articles_invariant_witness :
  let env := sample_env None 250 [] full_page None in
  let blog := NaverNewsItem.mk (js "Dollar index") (js "https://blog.example.com/d")
                (js "https://blog.example.com/d") (js "s") (js "d") in
  exists out w',
    crawlAll env [story_first; blog] fresh_world = (inr out, w') /\
    map CrawledNewsItem.isCrawled out = [true; false] /\
    crawledOnly out = filter CrawledNewsItem.isCrawled out.
Proof.
  cbv zeta.
  destruct (crawlAll_returns (sample_env None 250 [] full_page None)
              [story_first;
               NaverNewsItem.mk (js "Dollar index") (js "https://blog.example.com/d")
                 (js "https://blog.example.com/d") (js "s") (js "d")]
              fresh_world) as [out [w' [Hall Hrun]]].
  exists out, w'. split; [exact Hall|].
  split; [|exact (proj2 (enriched_articles_invariant _ _ _ Hall))].
  vm_compute in Hrun. injection Hrun as <- _. reflexivity.
Defined.

(** ** The report as the synthesizer and the pipeline build it *)



(** The steps a successful run of the pipeline went through. *)
Lemma performAnalysis_success (env : Env) (w : World) (report : obj) (w' : World) :
  performAnalysis env w = (inr report, w') ->
  exists snap api fin w2 crawled w3 analysis,
    fetchCurrentExchangeRates env w = (inr snap, logged FetchMarketIndex w) /\
    Promise_all2 (Promise_all (map (fetchNews env) SEARCH_KEYWORDS))
                 (fetchNaverFinanceNews env) (logged FetchMarketIndex w)
      = (inr (api, fin), w2) /\
    crawlAll env (uniqueNewsOf api fin) w2 = (inr crawled, w3) /\
    key_missing env = false /\
    analyzeWithOpenAI env crawled snap w3 = (inr analysis, w') /\
    report = obj_set (js "currentRate") (rate_json snap) analysis.
Proof.
  destruct (fetchCurrentExchangeRates_logs env w) as [snap Hsnap].
  unfold performAnalysis, bind. rewrite Hsnap.
  destruct (Promise_all2 _ _ (logged FetchMarketIndex w)) as [[e|[api fin]] w2] eqn:Hfound;
    [discriminate|]. cbn [fst snd].
  destruct (crawlAll env (uniqueNewsOf api fin) w2) as [[e|crawled] w3] eqn:Hcrawl;
    [discriminate|].
  destruct (key_missing env) eqn:Hkey; [discriminate|].
  destruct (analyzeWithOpenAI env crawled snap w3) as [[e|analysis] w4] eqn:Han;
    [discriminate|].
  unfold ret. intros H. injection H as <- <-.
  exists snap, api, fin, w2, crawled, w3, analysis.
  repeat split; first [assumption | reflexivity].
Qed.

Lemma crawl_items_urls (env : Env) (uniqueNews : list NaverNewsItem.t) (w : World)
  (out : list CrawledNewsItem.t) (w' : World) :
  mapM (crawl_item env) uniqueNews w = (inr out, w') ->
  map CrawledNewsItem.url out = map NaverNewsItem.link uniqueNews.
Proof.
  intros Hrun.
  assert (HF : Forall2 (fun news a => CrawledNewsItem.url a = NaverNewsItem.link news)
                       uniqueNews out).
  { eapply mapM_Forall2; [|exact Hrun]. intros news w1 a w2 Hitem.
    destruct (crawl_item_run env news w1) as [crawled [w2' [_ Hi]]].
    rewrite Hi in Hitem. injection Hitem as <- _. reflexivity. }
  clear Hrun. induction HF as [|news a l l' H _ IH]; simpl; [reflexivity|].
  rewrite H, IH. reflexivity.
Qed.

Lemma NoDup_map_filter (A B : Type) (key : A -> B) (keep : A -> bool)
  (items : list A) :
  NoDup (map key items) -> NoDup (map key (filter keep items)).
Proof.
  intros Hkeys. induction items as [|x items IH]; simpl; [constructor|].
  inversion Hkeys as [|? ? Hn Hnd]; subst.
  destruct (keep x); simpl; [|apply IH; exact Hnd].
  constructor; [|apply IH; exact Hnd].
  intros Hin. apply Hn. apply in_map_iff in Hin. destruct Hin as [y [Hy Hin]].
  apply filter_In in Hin. rewrite <- Hy. apply in_map. tauto.
Qed.

Lemma NoDup_map_firstn (A B : Type) (f : A -> B) (n : nat) (l : list A) :
  NoDup (map f l) -> NoDup (map f (firstn n l)).
Proof.
  revert l. induction n as [|n IH]; intros [|x l]; simpl; try constructor.
  - inversion H as [|? ? Hn Hnd]; subst. intros Hin. apply Hn.
    apply in_map_iff in Hin. destruct Hin as [y [Hy Hin]].
    rewrite <- Hy. apply in_map. eapply In_firstn. exact Hin.
  - apply IH. inversion H. assumption.
Qed.

(** X15. A report the pipeline returns, end to end: the generation key
    was set; [currentRate] holds the fields of the snapshot that was
    fetched first, which the model cannot replace; the [sources] are the
    title, source name, URL and thumbnail of the first 50 flagged articles
    that the enrichment of this very request produced from the merged
    search results, in their order; these articles lie on the article
    host, have a text and have pairwise different URLs; and the one call to
    the generation capability is the last call of the run, right after the
    enrichment, with a prompt that announces as many articles as there are
    sources and that carries the snapshot only when its dollar rate is
    positive. *)
Theorem pipeline_report (env : Env) (w : World) (report : obj) (w' : World) :
  performAnalysis env w = (inr report, w') ->
  key_missing env = false /\
  exists snap api fin w2 crawled w3,
    fetchCurrentExchangeRates env w = (inr snap, logged FetchMarketIndex w) /\
    Promise_all2 (Promise_all (map (fetchNews env) SEARCH_KEYWORDS))
                 (fetchNaverFinanceNews env) (logged FetchMarketIndex w)
      = (inr (api, fin), w2) /\
    crawlAll env (dedupByLink (List.concat api ++ fin)) w2 = (inr crawled, w3) /\
    let articles := firstn 50 (filter CrawledNewsItem.isCrawled crawled) in
    obj_get (js "currentRate") report
      = Some (JObj [(js "usd", JNum (ExchangeRateInfo.usd snap));
                    (js "usdChange", JNum (ExchangeRateInfo.usdChange snap));
                    (js "usdTrend",
                     JStr (match ExchangeRateInfo.usdTrend snap with
                           | up => js "up" | down => js "down"
                           | stable => js "stable" end));
                    (js "jpy", JNum (ExchangeRateInfo.jpy snap));
                    (js "eur", JNum (ExchangeRateInfo.eur snap));
                    (js "cny", JNum (ExchangeRateInfo.cny snap));
                    (js "time", JStr (ExchangeRateInfo.time snap))]) /\
    obj_get (js "sources") report
      = Some (JArr (map (fun a =>
                           JObj [(js "title", JStr (CrawledNewsItem.title a));
                                 (js "source", JStr (CrawledNewsItem.source a));
                                 (js "url", JStr (CrawledNewsItem.url a));
                                 (js "thumbnail", JStr (CrawledNewsItem.thumbnail a))])
                        articles)) /\
    NoDup (map CrawledNewsItem.url articles) /\
    (forall a, In a articles ->
       In a crawled /\
       CrawledNewsItem.content a <> [] /\
       includes (js "news.naver.com") (CrawledNewsItem.url a) = true /\
       In (CrawledNewsItem.url a)
          (map NaverNewsItem.link (List.concat api ++ fin))) /\
    exists prompt,
      calls w' = calls w3 ++ [OpenAIChat prompt] /\
      (exists l, calls w3 = calls w ++ l /\ Forall (fun c => is_chat c = false) l) /\
      Prompt.count prompt = List.length articles /\
      Prompt.rateInfo prompt
        = (if Qle_bool (ExchangeRateInfo.usd snap) 0 then None else Some snap).
Proof.
  intros Hrun.
  destruct (performAnalysis_success _ _ Hrun)
    as [snap [api [fin [w2 [crawled [w3 [analysis
         [Hsnap [Hfound [Hcrawl [Hkey [Han Hreport]]]]]]]]]]]].
  split; [exact Hkey|].
  exists snap, api, fin, w2, crawled, w3.
  split; [exact Hsnap|]. split; [exact Hfound|]. split; [exact Hcrawl|].
  destruct (crawlAll_returns env (uniqueNewsOf api fin) w2) as [out [w3' [Hall Hitems]]].
  rewrite Hcrawl in Hall. injection Hall as <- <-.
  pose proof (crawl_items_flagged _ _ _ Hitems) as Hflagged.
  assert (Honly : crawledOnly crawled = filter CrawledNewsItem.isCrawled crawled).
  { unfold crawledOnly. apply filter_ext_in. intros a Ha.
    rewrite Forall_forall in Hflagged. destruct (Hflagged a Ha) as [Hflag _].
    rewrite <- Hflag. apply andb_diag. }
  assert (Harticles : newsForAnalysis crawled
                      = firstn 50 (filter CrawledNewsItem.isCrawled crawled)).
  { unfold newsForAnalysis, slice. rewrite skipn_O, Honly. reflexivity. }
  cbv zeta. rewrite <- Harticles.
  subst report. split; [apply Map_get_set_same|].
  pose proof Han as Han'. rewrite analyzeWithOpenAI_run in Han'. cbv zeta in Han'.
  destruct (net_openai env _ _) as [|content]; [discriminate|].
  destruct (JSON_parse _) as [result|]; [|discriminate].
  injection Han' as Hanalysis Hw'.
  split.
  { unfold obj_get, obj_set at 1. rewrite Map_get_set_other by reflexivity.
    rewrite <- Hanalysis. unfold obj_get, obj_set.
    rewrite Map_get_set_other by reflexivity.
    rewrite Map_get_set_other by reflexivity.
    apply Map_get_set_same. }
  split.
  { unfold newsForAnalysis, slice, crawledOnly. rewrite skipn_O.
    apply NoDup_map_firstn, NoDup_map_filter.
    rewrite (crawl_items_urls _ _ _ Hitems). unfold uniqueNewsOf.
    rewrite dedupByLink_links. apply Map_fill_NoDup. constructor. }
  split.
  { intros a Ha. apply newsForAnalysis_enriched in Ha.
    destruct Ha as [Hin [Hflag Htext]].
    split; [exact Hin|]. split; [exact Htext|].
    rewrite Forall_forall in Hflagged. split; [apply (Hflagged a Hin); exact Hflag|].
    assert (Hurl : In (CrawledNewsItem.url a) (map CrawledNewsItem.url crawled))
      by (apply in_map; exact Hin).
    rewrite (crawl_items_urls _ _ _ Hitems) in Hurl.
    apply in_map_iff in Hurl. destruct Hurl as [item [Hlink Hitem]].
    apply dedupByLink_subset in Hitem. rewrite <- Hlink. apply in_map. exact Hitem. }
  pose proof (@runs_search_phase (fun c => is_chat c = false) (fun c H => H) env
                (logged FetchMarketIndex w)) as H2.
  rewrite Hfound in H2. cbn [snd] in H2.
  pose proof (@runs_crawlAll (fun c => is_chat c = false) (fun c H => H) env
                (uniqueNewsOf api fin) w2) as H3.
  rewrite Hcrawl in H3. cbn [snd] in H3.
  destruct H2 as [_ [_ [l2 [Hl2 Hf2]]]]. destruct H3 as [_ [_ [l3 [Hl3 Hf3]]]].
  exists (buildPrompt (newsForAnalysis crawled) snap).
  split; [rewrite <- Hw'; reflexivity|]. split.
  { exists (FetchMarketIndex :: l2 ++ l3). split.
    - rewrite Hl3, Hl2. cbn [logged calls].
      rewrite <- !app_assoc. reflexivity.
    - constructor; [reflexivity|]. apply Forall_app. split; assumption. }
  split; reflexivity.
Qed.

Lemma pipeline_report_witness :
  let env := sample_env (Some (js "sk-live")) 250 [story_first; story_again]
               full_page (Some answer_out_of_range) in
  exists report w',
    performAnalysis env fresh_world = (inr report, w') /\
    key_missing env = false /\
    exists a,
      obj_get (js "sources") report
        = Some (JArr [JObj [(js "title", JStr (CrawledNewsItem.title a));
                            (js "source", JStr (CrawledNewsItem.source a));
                            (js "url", JStr (NaverNewsItem.link story_again));
                            (js "thumbnail", JStr (CrawledNewsItem.thumbnail a))]]) /\
      CrawledNewsItem.isCrawled a = true.
Proof.
  cbv zeta.
  destruct (performAnalysis
              (sample_env (Some (js "sk-live")) 250 [story_first; story_again]
                 full_page (Some answer_out_of_range)) fresh_world)
    as [[e|report] w'] eqn:H; [vm_compute in H; discriminate H|].
  exists report, w'. split; [reflexivity|].
  destruct (pipeline_report _ _ H)
    as [Hkey [snap [api [fin [w2 [crawled [w3
         [_ [Hfound [Hcrawl [_ [Hsources _]]]]]]]]]]]].
  split; [exact Hkey|].
  vm_compute in Hfound. injection Hfound as <- <- <-.
  vm_compute in Hcrawl. injection Hcrawl as <- <-.
  eexists. split; [exact Hsources|]. reflexivity.
Defined.

(** ** Failures of the primary search *)

Lemma fetchNews_early (env : Env) (query : jsstring) :
  runs (fun c => is_late_call c = false) (fetchNews env query).
Proof.
  unfold fetchNews. destruct (_ || _); [apply runs_throw|].
  apply runs_bind; [apply runs_fetch; reflexivity|]. intros r.
  destruct (negb (ok r)); [apply runs_throw | apply runs_read_body].
Qed.

Lemma fetchNaverFinanceNews_early (env : Env) :
  runs (fun c => is_late_call c = false) (fetchNaverFinanceNews env).
Proof.
  intros w. split; [|split].
  - destruct (@runs_fetchNaverFinanceNews (fun c => is_chat c = false)
                (fun c H => H) env w) as [Hs _]. exact Hs.
  - destruct (@runs_fetchNaverFinanceNews (fun c => is_chat c = false)
                (fun c H => H) env w) as [_ [Ht _]]. exact Ht.
  - exists [FetchFinanceNews]. split; [apply fetchNaverFinanceNews_calls|].
    constructor; [reflexivity | constructor].
Qed.

(** X16. A failure of the primary search, for any keyword, is fatal for
    the request: the pipeline ends in the error of the search, and neither
    an article nor the generation capability has been called. *)
Theorem search_failure_aborts (env : Env) (w : World) (e : exn) :
  fst (Promise_all (map (fetchNews env) SEARCH_KEYWORDS) (logged FetchMarketIndex w))
    = inl e ->
  exists w' l,
    performAnalysis env w = (inl e, w') /\
    calls w' = calls w ++ l /\
    Forall (fun c => is_late_call c = false) l.
Proof.
  intros Hfail.
  destruct (fetchCurrentExchangeRates_logs env w) as [snap Hsnap].
  unfold performAnalysis, bind. rewrite Hsnap. unfold Promise_all2.
  pose proof (@runs_Promise_all (fun c => is_late_call c = false) _
                (map (fetchNews env) SEARCH_KEYWORDS)) as Hsearch.
  destruct (Promise_all (map (fetchNews env) SEARCH_KEYWORDS)
              (logged FetchMarketIndex w)) as [r wa] eqn:Ha.
  cbn [fst] in Hfail. subst r.
  assert (Hwa : extends (fun c => is_late_call c = false) (logged FetchMarketIndex w) wa).
  { change wa with (snd (@inl exn (list (list NaverNewsItem.t)) e, wa)).
    rewrite <- Ha. apply Hsearch.
    apply Forall_forall. intros p Hp. apply in_map_iff in Hp.
    destruct Hp as [q [<- _]]. apply fetchNews_early. }
  pose proof (fetchNaverFinanceNews_early env wa) as Hwb.
  destruct (fetchNaverFinanceNews env wa) as [s wb]. cbn [snd] in Hwb.
  destruct (extends_trans Hwa Hwb) as [_ [_ [l [Hl Hf]]]].
  exists wb, (FetchMarketIndex :: l). split; [reflexivity|]. split.
  - rewrite Hl. cbn [logged calls]. rewrite <- app_assoc. reflexivity.
  - constructor; [reflexivity | exact Hf].
Qed.

Lemma search_failure_aborts_witness :
  exists w' l,
    performAnalysis throttled_env fresh_world
      = (inl (Error (js "Naver API error: 429")), w') /\
    calls w' = calls fresh_world ++ l /\
    Forall (fun c => is_late_call c = false) l.
Proof.
  apply search_failure_aborts. vm_compute. reflexivity.
Defined.

(** X17. When a credential of the search is unset or empty, the request
    fails with the configuration error of the search and no keyword search
    goes out; the market index and the listing page have been fetched all
    the same, and nothing else. *)
Theorem search_credentials_checked_first (env : Env) (w : World) :
  opt_truthy (NAVER_CLIENT_ID env) = false \/
  opt_truthy (NAVER_CLIENT_SECRET env) = false ->
  exists w',
    performAnalysis env w
      = (inl (Error (js "Naver API credentials not configured")), w') /\
    calls w' = calls w ++ [FetchMarketIndex; FetchFinanceNews].
Proof.
  intros Hcred.
  destruct (fetchCurrentExchangeRates_logs env w) as [snap Hsnap].
  unfold performAnalysis, bind. rewrite Hsnap. unfold Promise_all2.
  cbn [SEARCH_KEYWORDS map Promise_all].
  rewrite !(fetchNews_unconfigured env _ _ Hcred).
  pose proof (fetchNaverFinanceNews_calls env (logged FetchMarketIndex w)) as Hc.
  destruct (fetchNaverFinanceNews env (logged FetchMarketIndex w)) as [s wb].
  cbn [snd] in Hc. exists wb. split; [reflexivity|].
  rewrite Hc. cbn [logged calls]. rewrite <- app_assoc. reflexivity.
Qed.

Lemma search_credentials_checked_first_witness :
  exists w',
    performAnalysis unconfigured_env fresh_world
      = (inl (Error (js "Naver API credentials not configured")), w') /\
    calls w' = calls fresh_world ++ [FetchMarketIndex; FetchFinanceNews].
Proof.
  apply search_credentials_checked_first. left. reflexivity.
Defined.

(** ** The handler *)

(** X18. The handler always answers, with a success or with the failure
    the pipeline ended in, and only the exact value [true] of the
    [refresh] parameter forces a refresh: any other value, or none, is
    served through the cache. *)
Theorem GET_always_answers (env : Env) (refresh : option jsstring) (w : World) :
  (exists response w', GET env refresh w = (inr response, w')) /\
  (refresh <> Some (js "true") -> GET env refresh w = GET env None w).
Proof.
  split.
  - unfold GET, try_catch. destruct (bind _ _ w) as [[e|response] w']; unfold ret; eauto.
  - intros Hne. unfold GET. destruct refresh as [v|]; [|reflexivity].
    destruct (str_eqb v (js "true")) eqn:E; [|reflexivity].
    apply str_eqb_eq in E. congruence.
Qed.

(** ** The listing route *)

Section ListingRouteFacts.

Variable env : Env.
Variable getTime : jsstring -> option Z.
Variable pages : nat -> jsstring -> Fetched ListingDoc.t.

Lemma listing_crawlNaverNews_never_throws (url : jsstring) :
  never_throws (listing_crawlNaverNews pages url).
Proof.
  intros w. unfold listing_crawlNaverNews, try_catch, bind, fetch, read_body, ret, throw.
  destruct (includes (js "news.naver.com") url); cbn [negb]; [|eauto].
  destruct (pages (List.length (calls w)) url) as [|[|] st [doc|]];
    cbn [ok body negb]; eauto.
Qed.

(** X19. A result of the listing route's content fetcher that is not null
    comes from a URL on the article host; its text holds at most 5000 code
    units and does not start with white space; its source name and its
    byline are trimmed on both sides. *)
Theorem listing_crawlNaverNews_bounds (url : jsstring) (w : World)
  (r : ListingCrawl.t) (w' : World) :
  listing_crawlNaverNews pages url w = (inr (Some r), w') ->
  includes (js "news.naver.com") url = true /\
  List.length (ListingCrawl.content r) <= 5000 /\
  (forall c rest, ListingCrawl.content r = c :: rest -> is_space c = false) /\
  trim (ListingCrawl.source r) = ListingCrawl.source r /\
  trim (ListingCrawl.journalist r) = ListingCrawl.journalist r /\
  calls w' = calls w ++ [FetchArticle url].
Proof.
  unfold listing_crawlNaverNews, try_catch, bind, fetch, read_body, ret, throw.
  destruct (includes (js "news.naver.com") url); cbn [negb]; [|discriminate].
  destruct (pages (List.length (calls w)) url) as [|[|] st [doc|]];
    cbn [ok body negb]; try discriminate.
  match goal with |- context [substring0 ?n ?x] =>
    remember x as text eqn:Etext; remember (substring0 n text) as cut eqn:Ecut end.
  intros H. injection H as Hr Hw. subst r w'.
  cbn [ListingCrawl.content ListingCrawl.source ListingCrawl.journalist].
  split; [reflexivity|]. split; [subst cut; apply firstn_le_length|].
  split; [|split; [apply trim_idem | split; [apply trim_idem | reflexivity]]].
  intros c rest Hc. subst cut. unfold substring0 in Hc.
  apply firstn_head in Hc. destruct Hc as [r' Hr]. subst text.
  destruct (truthy _); [eapply trim_head; exact Hr | discriminate].
Qed.

Lemma listing_crawl_item_run (news : NaverNewsItem.t) (w : World) :
  exists crawled w1,
    listing_crawlNaverNews pages (NaverNewsItem.link news) w = (inr crawled, w1) /\
    listing_crawl_item env pages news w
      = (inr (listedItem news crawled (iso (clock env (ticks w1)))), tick w1).
Proof.
  destruct (listing_crawlNaverNews_never_throws (NaverNewsItem.link news) w)
    as [crawled [w1 H]].
  exists crawled, w1. split; [exact H|].
  unfold listing_crawl_item, bind, Date_toISOString, ret. rewrite H. reflexivity.
Qed.

Lemma listing_crawl_item_never_throws (news : NaverNewsItem.t) :
  never_throws (listing_crawl_item env pages news).
Proof.
  intros w. destruct (listing_crawl_item_run news w) as [crawled [w1 [_ H]]]. eauto.
Qed.

Lemma listingLoop_mapM (uniqueNews : list NaverNewsItem.t) (i : nat)
  (crawledNews : list ListedNews.t) (w : World) :
  listingLoop env pages uniqueNews i crawledNews w =
  match mapM (listing_crawl_item env pages) (skipn i uniqueNews) w with
  | (inr results, w') => (inr (crawledNews ++ results), w')
  | (inl e, w') => (inl e, w')
  end.
Proof.
  apply (listingLoop_elim env pages
    (fun uniqueNews i crawledNews w res =>
       res = match mapM (listing_crawl_item env pages) (skipn i uniqueNews) w with
             | (inr results, w') => (inr (crawledNews ++ results), w')
             | (inl e, w') => (inl e, w')
             end)); clear uniqueNews i crawledNews w.
  - intros uniqueNews i Hge crawledNews w _.
    rewrite skipn_all2 by lia. simpl. unfold ret. rewrite app_nil_r. reflexivity.
  - intros uniqueNews i Hlt crawledNews w e w' Hbatch _.
    rewrite Promise_all_mapM in Hbatch by apply listing_crawl_item_never_throws.
    rewrite skipn_slice, mapM_app, Hbatch. reflexivity.
  - intros uniqueNews i Hlt crawledNews w results w' IH Hbatch _.
    rewrite Promise_all_mapM in Hbatch by apply listing_crawl_item_never_throws.
    rewrite IH. rewrite (skipn_slice i), mapM_app, Hbatch.
    destruct (mapM (listing_crawl_item env pages) (skipn (i + batchSize) uniqueNews) w')
      as [[e|rest] w2]; [reflexivity|].
    rewrite app_assoc. reflexivity.
Qed.

Lemma listing_items_run (uniqueNews : list NaverNewsItem.t) (w : World) :
  exists out w',
    listingLoop env pages uniqueNews 0 [] w = (inr out, w') /\
    mapM (listing_crawl_item env pages) uniqueNews w = (inr out, w').
Proof.
  destruct (mapM_never_throws (listing_crawl_item env pages) uniqueNews
              listing_crawl_item_never_throws w) as [out [w' Hrun]].
  exists out, w'. split; [|exact Hrun].
  rewrite listingLoop_mapM. simpl. rewrite Hrun. reflexivity.
Qed.

End ListingRouteFacts.

Lemma listing_crawlNaverNews_bounds_witness :
  let url := js "https://n.news.naver.com/mnews/article/001/0000001" in
  let r := ListingCrawl.mk (js "Exporters sold dollars into the rally.")
             (js "Maeil") (js "Kim Reporter") in
  listing_crawlNaverNews sample_listing_pages url fresh_world
    = (inr (Some r), logged (FetchArticle url) fresh_world) /\
  List.length (ListingCrawl.content r) <= 5000.
Proof.
  cbv zeta.
  match goal with |- ?run = ?res /\ _ =>
    assert (H : run = res) by (vm_compute; reflexivity) end.
  split; [exact H|].
  exact (proj1 (proj2 (listing_crawlNaverNews_bounds _ _ _ H))).
Defined.

Lemma listing_crawlNaverNews_short (pages : nat -> jsstring -> Fetched ListingDoc.t)
  (url : jsstring) (w : World) (r : ListingCrawl.t) (w' : World) :
  listing_crawlNaverNews pages url w = (inr (Some r), w') ->
  includes (js "news.naver.com") url = true /\
  List.length (ListingCrawl.content r) <= 5000.
Proof.
  unfold listing_crawlNaverNews, try_catch, bind, fetch, read_body, ret, throw.
  destruct (includes (js "news.naver.com") url); cbn [negb]; [|discriminate].
  destruct (pages (List.length (calls w)) url) as [|[|] st [doc|]];
    cbn [ok body negb]; try discriminate.
  match goal with |- context [substring0 ?n ?x] =>
    remember (substring0 n x) as cut eqn:Ecut end.
  intros H. injection H as Hr Hw. subst r.
  split; [reflexivity|]. subst cut. apply firstn_le_length.
Qed.

Section ListingHandlerFacts.

Variable env : Env.
Variable getTime : jsstring -> option Z.
Variable pages : nat -> jsstring -> Fetched ListingDoc.t.

(** The steps a successful answer of the listing route went through. *)
Lemma listing_GET_success (w : World) (data : ListingData.t) (w' : World) :
  listing_GET env getTime pages w = (inr (ListingSuccess data), w') ->
  exists newsResults w1 out w2,
    Promise_all (map (fetchNews env) LISTING_KEYWORDS) (tick (tick w))
      = (inr newsResults, w1) /\
    mapM (listing_crawl_item env pages) (listing_uniqueNews getTime newsResults)
         (tick (tick w1)) = (inr out, w2) /\
    ListingData.news data = out /\
    ListingData.total data = List.length out /\
    ListingData.crawledCount data = List.length (filter ListedNews.isCrawled out) /\
    ListingData.keywords data = LISTING_KEYWORDS /\
    w' = tick (tick w2).
Proof.
  unfold listing_GET, try_catch, bind, Date_now, Date_toISOString, ret.
  destruct (Promise_all (map (fetchNews env) LISTING_KEYWORDS) (tick (tick w)))
    as [[e|newsResults] w1] eqn:Hsearch; [discriminate|].
  destruct (listing_items_run env pages (listing_uniqueNews getTime newsResults)
              (tick (tick w1))) as [out [w2 [Hloop Hrun]]].
  rewrite Hloop. intros H. injection H as <- <-.
  exists newsResults, w1, out, w2. repeat split; first [assumption | reflexivity].
Qed.

Lemma listing_items_shape (uniqueNews : list NaverNewsItem.t) (w : World)
  (out : list ListedNews.t) (w' : World) :
  mapM (listing_crawl_item env pages) uniqueNews w = (inr out, w') ->
  map ListedNews.url out = map NaverNewsItem.link uniqueNews /\
  map ListedNews.publishedAt out = map NaverNewsItem.pubDate uniqueNews /\
  Forall (fun a =>
            ListedNews.isCrawled a = truthy (ListedNews.content a) /\
            (ListedNews.isCrawled a = true ->
             includes (js "news.naver.com") (ListedNews.url a) = true /\
             List.length (ListedNews.content a) <= 5000)) out.
Proof.
  intros Hrun.
  assert (HF : Forall2
            (fun news a =>
               ListedNews.url a = NaverNewsItem.link news /\
               ListedNews.publishedAt a = NaverNewsItem.pubDate news /\
               ListedNews.isCrawled a = truthy (ListedNews.content a) /\
               (ListedNews.isCrawled a = true ->
                includes (js "news.naver.com") (ListedNews.url a) = true /\
                List.length (ListedNews.content a) <= 5000)) uniqueNews out).
  { eapply mapM_Forall2; [|exact Hrun]. intros news w1 a w2 Hitem.
    destruct (listing_crawl_item_run env pages news w1) as [crawled [w2' [Hc Hi]]].
    rewrite Hi in Hitem. injection Hitem as <- _.
    split; [reflexivity|]. split; [reflexivity|]. split.
    - destruct crawled as [[[|c content] source journalist]|]; reflexivity.
    - destruct crawled as [r|]; [|discriminate].
      destruct (listing_crawlNaverNews_short _ _ _ Hc) as [Hhost Hlen].
      intros _. split; [exact Hhost|].
      cbn [listedItem ListedNews.content option_map opt_or]. rewrite str_or_nil.
      exact Hlen. }
  clear Hrun. induction HF as [|news a l l' [Hu [Hp [Hf Hb]]] _ [IHu [IHp IHf]]].
  - repeat split; constructor.
  - split; [simpl; rewrite Hu, IHu; reflexivity|].
    split; [simpl; rewrite Hp, IHp; reflexivity|].
    constructor; [split; assumption | exact IHf].
Qed.

End ListingHandlerFacts.

Lemma Array_sort_sorted (getTime : jsstring -> option Z) (l : list NaverNewsItem.t) :
  Forall (dated getTime) l ->
  non_increasingb getTime (Array_sort (byDateDesc getTime) l) = true.
Proof.
  induction 1 as [|x l Hx Hl IH]; [reflexivity|].
  change (Array_sort (byDateDesc getTime) (x :: l))
    with (sort_insert (byDateDesc getTime) x (Array_sort (byDateDesc getTime) l)).
  apply sort_insert_non_increasing; [exact Hx | | exact IH].
  apply Forall_forall. intros y Hy. rewrite Array_sort_In in Hy.
  rewrite Forall_forall in Hl. apply Hl. exact Hy.
Qed.

Lemma listed_non_increasingb_cons (getTime : jsstring -> option Z)
  (a b : ListedNews.t) (l : list ListedNews.t) :
  listed_non_increasingb getTime (a :: b :: l) =
  match getTime (ListedNews.publishedAt a), getTime (ListedNews.publishedAt b) with
  | Some ta, Some tb => (tb <=? ta)%Z && listed_non_increasingb getTime (b :: l)
  | _, _ => false
  end.
Proof. reflexivity. Qed.

(** The order of a list of listed items is the order of their dates. *)
Lemma listed_order (getTime : jsstring -> option Z) (out : list ListedNews.t) :
  forall l : list NaverNewsItem.t,
  map ListedNews.publishedAt out = map NaverNewsItem.pubDate l ->
  listed_non_increasingb getTime out = non_increasingb getTime l.
Proof.
  induction out as [|a out IH]; intros [|x l] H; try discriminate; [reflexivity|].
  injection H as Ha Hrest.
  destruct out as [|b out], l as [|y l]; try discriminate; [reflexivity|].
  rewrite listed_non_increasingb_cons, non_increasingb_cons.
  rewrite (IH (y :: l) Hrest). injection Hrest as Hb _. rewrite Ha, Hb. reflexivity.
Qed.

Lemma runs_fetchNews_search (P : NetCall -> Prop) (env : Env) (query : jsstring) :
  (forall q, P (FetchSearch q)) -> runs P (fetchNews env query).
Proof.
  intros HP. unfold fetchNews. destruct (_ || _); [apply runs_throw|].
  apply runs_bind; [apply runs_fetch, HP|]. intros r.
  destruct (negb (ok r)); [apply runs_throw | apply runs_read_body].
Qed.

Lemma runs_listing_crawl_item (P : NetCall -> Prop) (env : Env)
  (pages : nat -> jsstring -> Fetched ListingDoc.t) (news : NaverNewsItem.t) :
  (forall u, P (FetchArticle u)) -> runs P (listing_crawl_item env pages news).
Proof.
  intros HP. unfold listing_crawl_item.
  apply runs_bind.
  - unfold listing_crawlNaverNews.
    destruct (negb (includes _ _)); [apply runs_ret|].
    apply runs_try_catch; [|intros e; apply runs_ret].
    apply runs_bind; [apply runs_fetch, HP|]. intros r.
    destruct (negb (ok r)); [apply runs_ret|].
    apply runs_bind; [apply runs_read_body|]. intros doc. apply runs_ret.
  - intros crawled. apply runs_bind; [apply runs_Date_toISOString|].
    intros t. apply runs_ret.
Qed.

Section ListingAnswers.

Variable env : Env.
Variable getTime : jsstring -> option Z.
Variable pages : nat -> jsstring -> Fetched ListingDoc.t.

(** X20. In every successful answer of the listing route, [total] is the
    number of items, [crawledCount] is the number of flagged items and
    never exceeds [total], no URL occurs twice, an item is flagged exactly
    when it has a text (then its URL is on the article host and the text
    holds at most 5000 code units), and, when the dates of the items can
    be read, the items come most recent first. *)
Theorem listing_answer (w : World) (data : ListingData.t) (w' : World) :
  listing_GET env getTime pages w = (inr (ListingSuccess data), w') ->
  ListingData.total data = List.length (ListingData.news data) /\
  ListingData.crawledCount data
    = List.length (filter ListedNews.isCrawled (ListingData.news data)) /\
  ListingData.crawledCount data <= ListingData.total data /\
  ListingData.keywords data = LISTING_KEYWORDS /\
  NoDup (map ListedNews.url (ListingData.news data)) /\
  Forall (fun a =>
            ListedNews.isCrawled a = truthy (ListedNews.content a) /\
            (ListedNews.isCrawled a = true ->
             includes (js "news.naver.com") (ListedNews.url a) = true /\
             List.length (ListedNews.content a) <= 5000))
         (ListingData.news data) /\
  (Forall (fun a => getTime (ListedNews.publishedAt a) <> None)
          (ListingData.news data) ->
   listed_non_increasingb getTime (ListingData.news data) = true).
Proof.
  intros Hget.
  destruct (listing_GET_success _ _ _ _ Hget)
    as [newsResults [w1 [out [w2 [Hsearch [Hrun [Hnews [Htotal [Hcount [Hkw _]]]]]]]]]].
  destruct (listing_items_shape _ _ _ _ Hrun) as [Hurl [Hdate Hflag]].
  rewrite Hnews, Htotal, Hcount.
  split; [reflexivity|]. split; [reflexivity|].
  split; [apply filter_length_le|]. split; [exact Hkw|].
  assert (Hperm : Permutation (listing_uniqueNews getTime newsResults)
                              (dedupByLink (List.concat newsResults)))
    by apply Array_sort_perm.
  split.
  { rewrite Hurl.
    eapply Permutation_NoDup; [apply Permutation_map, Permutation_sym; exact Hperm|].
    rewrite dedupByLink_links. apply Map_fill_NoDup. constructor. }
  split; [exact Hflag|].
  intros Hdated. rewrite (listed_order getTime out _ Hdate).
  apply Array_sort_sorted.
  assert (Hsorted : Forall (dated getTime) (listing_uniqueNews getTime newsResults)).
  { clear - Hdate Hdated. revert Hdate Hdated.
    generalize (listing_uniqueNews getTime newsResults) as l.
    induction out as [|a out IH]; intros [|x l] H Hd; try discriminate; constructor.
    - injection H as Ha _. inversion Hd; subst. unfold dated. rewrite <- Ha. assumption.
    - injection H as _ Hrest. inversion Hd; subst. apply IH; assumption. }
  apply Forall_forall. intros x Hx.
  rewrite Forall_forall in Hsorted. apply Hsorted.
  eapply Permutation_in; [apply Permutation_sym; exact Hperm | exact Hx].
Qed.

(** X21. The listing route calls the search and the article host and
    nothing else: whatever happens, it always answers, every call it makes
    is a keyword search or an article fetch, and the cache store is left
    as it was. *)
Theorem listing_GET_calls (w : World) :
  (exists response w', listing_GET env getTime pages w = (inr response, w')) /\
  store (snd (listing_GET env getTime pages w)) = store w /\
  exists l,
    calls (snd (listing_GET env getTime pages w)) = calls w ++ l /\
    Forall (fun c => is_listing_call c = true) l.
Proof.
  split.
  - unfold listing_GET, try_catch, bind at 1, Date_toISOString.
    destruct (bind _ _ (tick w)) as [[e|response] w']; unfold ret; eauto.
  - assert (Hruns : runs (fun c => is_listing_call c = true)
                         (listing_GET env getTime pages)).
    { unfold listing_GET.
      apply runs_bind; [intros w0; apply extends_tick|]. intros requestTime.
      apply runs_try_catch; [|intros e; apply runs_ret].
      apply runs_bind; [apply runs_Date_now|]. intros t0.
      apply runs_bind.
      { apply runs_Promise_all. apply Forall_forall. intros p Hp.
        apply in_map_iff in Hp. destruct Hp as [q [<- _]].
        apply runs_fetchNews_search. reflexivity. }
      intros newsResults. apply runs_bind; [apply runs_Date_now|]. intros t1.
      apply runs_bind; [apply runs_Date_now|]. intros t2.
      apply runs_bind.
      { intros w0. rewrite listingLoop_mapM. simpl skipn.
        pose proof (@runs_mapM (fun c => is_listing_call c = true) _ _
                      (listing_crawl_item env pages)
                      (listing_uniqueNews getTime newsResults)
                      (fun news => @runs_listing_crawl_item _ env pages news
                                     (fun u => eq_refl)) w0) as H.
        destruct (mapM _ _ w0) as [[e|out] w1]; exact H. }
      intros crawledNews. apply runs_bind; [apply runs_Date_now|]. intros t3.
      apply runs_bind; [apply runs_Date_now|]. intros t4. apply runs_ret. }
    destruct (Hruns w) as [Hs [_ Hl]]. split; assumption.
Qed.

(** X22. With a credential of the search unset or empty, the listing route
    answers with the configuration error at once: the clock has been read
    twice, for the time of the request and for the start time, and no call
    at all has gone out. *)
Theorem listing_unconfigured (w : World) :
  opt_truthy (NAVER_CLIENT_ID env) = false \/
  opt_truthy (NAVER_CLIENT_SECRET env) = false ->
  listing_GET env getTime pages w
    = (inr (ListingFailure (Error (js "Naver API credentials not configured"))),
       tick (tick w)).
Proof.
  intros Hcred. unfold listing_GET, try_catch, bind, Date_now, Date_toISOString.
  cbn [LISTING_KEYWORDS map Promise_all].
  rewrite !(fetchNews_unconfigured env _ _ Hcred). reflexivity.
Qed.

End ListingAnswers.

Lemma listing_answer_witness :
  exists data w',
    listing_GET sample_listing_env sample_getTime sample_listing_pages fresh_world
      = (inr (ListingSuccess data), w') /\
    map ListedNews.title (ListingData.news data)
      = [js "Bank of Korea holds its rate";
         js "Won slides against the dollar (updated)"] /\
    ListingData.total data = 2 /\
    ListingData.crawledCount data = 2 /\
    listed_non_increasingb sample_getTime (ListingData.news data) = true.
Proof.
  destruct (listing_GET sample_listing_env sample_getTime sample_listing_pages
              fresh_world) as [[e|[data|e]] w'] eqn:H;
    try (vm_compute in H; discriminate H).
  exists data, w'. split; [reflexivity|].
  destruct (listing_answer _ _ _ _ H) as [Ht [Hc [_ [_ [_ [_ Hsorted]]]]]].
  assert (Hd : data = match fst (listing_GET sample_listing_env sample_getTime
                                   sample_listing_pages fresh_world) with
                      | inr (ListingSuccess d) => d
                      | _ => data
                      end) by (rewrite H; reflexivity).
  assert (Htitles : map ListedNews.title (ListingData.news data)
                    = [js "Bank of Korea holds its rate";
                       js "Won slides against the dollar (updated)"]).
  { rewrite Hd. vm_compute. reflexivity. }
  split; [exact Htitles|].
  assert (Hlen : List.length (ListingData.news data) = 2)
    by (rewrite <- (length_map ListedNews.title), Htitles; reflexivity).
  split; [rewrite Ht; exact Hlen|]. split.
  - rewrite Hc, Hd. vm_compute. reflexivity.
  - apply Hsorted. rewrite Hd. vm_compute.
    repeat constructor; discriminate.
Defined.

Lemma listing_unconfigured_witness :
  listing_GET unconfigured_env sample_getTime sample_listing_pages fresh_world
    = (inr (ListingFailure (Error (js "Naver API credentials not configured"))),
       tick (tick fresh_world)).
Proof. apply listing_unconfigured. left. reflexivity. Defined.

(** ** Who may clear the cache *)

Lemma is_string_eq (a : option jsstring) (b : jsstring) :
  is_string a b = true <-> a = Some b.
Proof.
  destruct a as [s|]; simpl; [|split; discriminate].
  rewrite str_eqb_eq. split; congruence.
Qed.

(** X23. In production with [CRON_SECRET] left unset, the three guarded
    routes part ways: the route that clears by tag lets every request in;
    the route that clears the analysis, and the scheduled digest, refuse
    every request but the one whose header is the text [Bearer undefined]. *)
Theorem guards_without_secret (env : Env) (senv : ServerEnv)
  (authHeader tag : option jsstring) (w : World) :
  NODE_ENV senv = Some (js "production") ->
  CRON_SECRET senv = None ->
  fst (clear_by_tag_POST env senv authHeader tag w) <> inr Unauthorized /\
  (fst (clear_POST env senv authHeader w) = inr Unauthorized
   <-> authHeader <> Some (js "Bearer undefined")) /\
  (cron_admitted senv authHeader = true
   <-> authHeader = Some (js "Bearer undefined")).
Proof.
  intros Hprod Hsecret.
  assert (Hb : bearer senv = js "Bearer undefined")
    by (unfold bearer; rewrite Hsecret; reflexivity).
  split; [|split].
  - unfold clear_by_tag_POST. rewrite Hsecret. cbn [opt_truthy andb].
    rewrite andb_false_r. cbn [andb].
    unfold try_catch, bind, revalidateTag, Date_toISOString, ret.
    destruct (opt_truthy tag); simpl; discriminate.
  - unfold clear_POST. rewrite Hprod, Hb.
    replace (is_string (Some (js "production")) (js "production")) with true
      by (symmetry; apply is_string_eq; reflexivity).
    cbn [andb].
    destruct (is_string authHeader (js "Bearer undefined")) eqn:E; cbn [negb].
    + apply is_string_eq in E. split; [|congruence].
      unfold try_catch, bind, revalidateTag, Date_toISOString, ret. simpl. discriminate.
    + split; [|reflexivity]. intros _ Heq. apply is_string_eq in Heq. congruence.
  - unfold cron_admitted. rewrite Hprod, Hb.
    replace (is_string (Some (js "production")) (js "production")) with true
      by (symmetry; apply is_string_eq; reflexivity).
    destruct (is_string authHeader (js "Bearer undefined")) eqn:E; cbn [negb].
    + apply is_string_eq in E. split; [intros _; exact E | reflexivity].
    + split; [discriminate|]. intros Heq. apply is_string_eq in Heq. congruence.
Qed.

Lemma guards_without_secret_witness :
  fst (clear_by_tag_POST unconfigured_env unguarded_server None None fresh_world)
    <> inr Unauthorized /\
  (fst (clear_POST unconfigured_env unguarded_server None fresh_world)
     = inr Unauthorized <-> None <> Some (js "Bearer undefined")) /\
  (cron_admitted unguarded_server None = true
   <-> None = Some (js "Bearer undefined")).
Proof.
  apply (@guards_without_secret unconfigured_env unguarded_server None None fresh_world);
    reflexivity.
Defined.

(** X24. With the secret set in production, the two clearing routes and
    the scheduled digest admit a request exactly when its header is
    [Bearer] followed by the secret; outside production they admit every
    request. A request that is refused leaves the world as it was: nothing
    is cleared. *)
Theorem guards_with_secret (env : Env) (senv : ServerEnv)
  (authHeader tag : option jsstring) (w : World) :
  opt_truthy (CRON_SECRET senv) = true ->
  let refused := is_string (NODE_ENV senv) (js "production")
                 && negb (is_string authHeader (bearer senv)) in
  (fst (clear_POST env senv authHeader w) = inr Unauthorized <-> refused = true) /\
  (fst (clear_by_tag_POST env senv authHeader tag w) = inr Unauthorized
   <-> refused = true) /\
  cron_admitted senv authHeader = negb refused /\
  (refused = true ->
   clear_POST env senv authHeader w = (inr Unauthorized, w) /\
   clear_by_tag_POST env senv authHeader tag w = (inr Unauthorized, w)).
Proof.
  intros Hsecret. cbv zeta.
  unfold clear_POST, clear_by_tag_POST, cron_admitted. rewrite Hsecret, andb_true_r.
  destruct (is_string (NODE_ENV senv) (js "production"));
    destruct (is_string authHeader (bearer senv)); cbn [andb negb];
    unfold try_catch, bind, revalidateTag, Date_toISOString, ret;
    (split; [split; [|reflexivity || discriminate]|]);
    try (split; [split; [|reflexivity || discriminate]|]);
    try (split; [reflexivity|]); try (intros _; split; reflexivity);
    try discriminate; try reflexivity;
    try (simpl; discriminate);
    try (destruct (opt_truthy tag); simpl; discriminate).
Qed.

Lemma guards_with_secret_witness :
  (fst (clear_POST unconfigured_env guarded_server (Some (js "Bearer guess")) fresh_world)
     = inr Unauthorized <-> true = true) /\
  clear_by_tag_POST unconfigured_env guarded_server (Some (js "Bearer guess"))
      (Some CACHE_TAG) warm_world
    = (inr Unauthorized, warm_world).
Proof.
  destruct (@guards_with_secret unconfigured_env guarded_server
              (Some (js "Bearer guess")) (Some CACHE_TAG) fresh_world eq_refl)
    as [H1 _].
  destruct (@guards_with_secret unconfigured_env guarded_server
              (Some (js "Bearer guess")) (Some CACHE_TAG) warm_world eq_refl)
    as [_ [_ [_ H4]]].
  split; [exact H1|]. exact (proj2 (H4 eq_refl)).
Defined.

Lemma str_eqb_sym (a b : jsstring) : str_eqb a b = str_eqb b a.
Proof.
  destruct (str_eqb a b) eqn:E1, (str_eqb b a) eqn:E2; try reflexivity.
  - apply str_eqb_eq in E1. apply str_eqb_neq in E2. congruence.
  - apply str_eqb_eq in E2. apply str_eqb_neq in E1. congruence.
Qed.

Lemma Map_get_delete (V : Type) (t k : jsstring) (m : JsMap V) :
  Map_get k (Map_delete t m) = if str_eqb t k then None else Map_get k m.
Proof.
  induction m as [|[k' v'] m IH]; simpl; [destruct (str_eqb t k); reflexivity|].
  destruct (str_eqb k' t) eqn:Et; cbn [negb].
  - apply str_eqb_eq in Et. subst k'. rewrite IH.
    destruct (str_eqb t k); reflexivity.
  - simpl. rewrite IH. destruct (str_eqb k' k) eqn:Ek; [|reflexivity].
    apply str_eqb_eq in Ek. subst k'. rewrite (str_eqb_sym t k), Et. reflexivity.
Qed.

(** X25. A request the route that clears by tag admits is answered with
    the tags it cleared: the one tag of the request, or, when the request
    names none or names the empty tag, both tags of the site. No outbound
    call is made, the entries under the cleared tags are gone, and every
    other entry of the store stays. *)
Theorem clear_by_tag_clears (env : Env) (senv : ServerEnv)
  (authHeader tag : option jsstring) (w : World) :
  is_string (NODE_ENV senv) (js "production") && opt_truthy (CRON_SECRET senv)
    && negb (is_string authHeader (bearer senv)) = false ->
  let cleared := if opt_truthy tag then [opt_or tag []] else CACHE_TAGS in
  exists w',
    clear_by_tag_POST env senv authHeader tag w
      = (inr (Cleared cleared (iso (clock env (ticks w)))), w') /\
    calls w' = calls w /\
    forall k, Map_get k (store w')
              = if existsb (str_eqb k) cleared then None else Map_get k (store w).
Proof.
  intros Hadmitted. cbv zeta. unfold clear_by_tag_POST. rewrite Hadmitted.
  unfold try_catch, bind, revalidateTag, Date_toISOString, ret.
  destruct (opt_truthy tag); cbn [CACHE_TAGS mapM bind ret];
    unfold bind, ret; cbn [ticks calls store tick];
    eexists; (split; [reflexivity|]); (split; [reflexivity|]);
    intros k; cbn [store tick existsb]; rewrite ?Map_get_delete, ?orb_false_r.
  - rewrite (str_eqb_sym k). destruct (str_eqb (opt_or tag []) k); reflexivity.
  - unfold CACHE_TAGS. cbn [existsb]. rewrite ?orb_false_r.
    rewrite (str_eqb_sym k CACHE_TAG), (str_eqb_sym k RATE_TAG).
    destruct (str_eqb CACHE_TAG k), (str_eqb RATE_TAG k); reflexivity.
Qed.

Lemma clear_by_tag_clears_witness :
  exists w',
    clear_by_tag_POST unconfigured_env guarded_server (Some (js "Bearer s3cret"))
        (Some []) warm_world
      = (inr (Cleared CACHE_TAGS (js "2025-01-07T00:00:00.000Z")), w') /\
    calls w' = calls warm_world /\
    forall k, Map_get k (store w')
              = if existsb (str_eqb k) CACHE_TAGS then None
                else Map_get k (store warm_world).
Proof.
  apply (@clear_by_tag_clears unconfigured_env guarded_server
           (Some (js "Bearer s3cret")) (Some []) warm_world).
  reflexivity.
Defined.
